(** * Idealista Portugal scraper: a shallow embedding of the extraction pipeline

    The development follows the TypeScript sources:
    - [Js]          the fragment of JavaScript the sources rely on: JSON-shaped
                    run-time values, truthiness, property reads, string built-ins;
    - [Parser]      parser.ts ([parseFloor], [mapPropertyType], [parsePropertyItem],
                    [parseNextData], ...);
    - [Transformer] transformer.ts ([extractAmenities]);
    - [Scraper]     scraper.ts ([extractNextData], [hasNextPage], [scrapeLocation],
                    [scrapeLocations], [scrapePage], [buildSearchUrl],
                    [handleCookieConsent]).

    Raw items reach the parser straight out of [JSON.parse] under a type cast, so
    they are modelled as untyped values; the TypeScript interface is a predicate
    on them ([Parser.conforms]).

    Two built-ins are the engine's only up to a point.  [Js.toLowerCase] is the
    case mapping of Basic Latin and Latin-1, so the functions whose answer can
    depend on the case of other characters also exist with the engine's
    function as an argument ([mapPropertyType_with], [extractFeatures_with],
    [extractAmenities_with]); and [Js.parseInt10] is the integer the digits
    spell, which is what [parseInt] returns up to 2^53 ([Js.double_exact]). *)

From Stdlib Require Import ZArith List String Ascii Bool Lia.
From Stdlib Require Import Numbers.DecimalString Numbers.DecimalZ Numbers.DecimalPos.
From Equations Require Import Equations.
Import ListNotations.

Local Open Scope string_scope.
Local Open Scope Z_scope.

(* ===================================================================== *)
(** * JavaScript fragment *)
(* ===================================================================== *)
Module Js.

(** ** Exceptions *)

(** What a [throw] carries.  [TypeError] is what the engine raises for a read
    on [null]/[undefined] or a call of something that is not a function. *)
Inductive exn := TypeError | SyntaxError.

Inductive result (A : Type) :=
| Ok (a : A)
| Throw (e : exn).
Arguments Ok {A} a.
Arguments Throw {A} e.

Definition bind {A B} (m : result A) (k : A -> result B) : result B :=
  match m with
  | Ok a => k a
  | Throw e => Throw e
  end.

Notation "x <- m ;; k" := (bind m (fun x => k))
  (at level 100, m at next level, right associativity).

(** [try { return m } catch { return d }] *)
Definition try_catch {A} (m : result A) (handler : exn -> A) : A :=
  match m with
  | Ok a => a
  | Throw e => handler e
  end.

(** ** Strings

    A JavaScript string is kept as the bytes of its UTF-8 encoding, so the
    literals of the sources can be written down as they are.  Built-ins work
    on characters, i.e. on the groups of bytes that encode one code point. *)

Definition byte (c : ascii) : N := N_of_ascii c.

Definition is_continuation (c : ascii) : bool :=
  ((128 <=? byte c) && (byte c <=? 191))%N.

Definition starts_with_continuation (s : string) : bool :=
  match s with
  | String c _ => is_continuation c
  | EmptyString => false
  end.

(** Split into characters: a lead byte followed by its continuation bytes. *)
Fixpoint chars (s : string) : list string :=
  match s with
  | EmptyString => []
  | String c rest =>
      match chars rest with
      | h :: t =>
          if starts_with_continuation h then String c h :: t
          else String c EmptyString :: h :: t
      | [] => [String c EmptyString]
      end
  end.

Definition unchars (l : list string) : string :=
  fold_right String.append EmptyString l.

(** [s.startsWith(t)] *)
Definition startsWith (s t : string) : bool := String.prefix t s.

(** [s.includes(t)] *)
Fixpoint includes (s t : string) : bool :=
  String.prefix t s ||
  match s with
  | EmptyString => false
  | String _ rest => includes rest t
  end.

(** One character of [toLowerCase] below.  The case mapping is given for Basic
    Latin (A-Z) and the Latin-1 Supplement (U+00C0..U+00DE but U+00D7), which
    is where every term of the sources' tables lives; other characters are
    left as they are. *)
Definition lower_char (ch : string) : string :=
  match ch with
  | String c EmptyString =>
      if ((65 <=? byte c) && (byte c <=? 90))%N
      then String (ascii_of_N (byte c + 32)) EmptyString
      else ch
  | String c (String d EmptyString) =>
      if ((byte c =? 195) && (128 <=? byte d) && (byte d <=? 158)
          && negb (byte d =? 151))%N
      then String c (String (ascii_of_N (byte d + 32)) EmptyString)
      else ch
  | _ => ch
  end.

(** [s.toLowerCase()] on text of Basic Latin and the Latin-1 Supplement.  The
    engine maps characters beyond U+00FF as well, by the case tables of the
    Unicode version it ships with (U+212A to k, U+0152 to U+0153, ...): the
    source functions whose answer can depend on such a character,
    [Parser.mapPropertyType_with], [Parser.extractFeatures_with] and
    [Transformer.extractAmenities_with], take the engine's function as an
    argument, and [toLowerCase] is the instance the examples run on. *)
Definition toLowerCase (s : string) : string :=
  unchars (map lower_char (chars s)).

(** White space of [trim] and of the regular expression class [\s]:
    U+0009..U+000D, U+0020, U+00A0, U+1680, U+2000..U+200A, U+2028, U+2029,
    U+202F, U+205F, U+3000, U+FEFF. *)
Definition is_space (ch : string) : bool :=
  match ch with
  | String c EmptyString =>
      ((9 <=? byte c) && (byte c <=? 13) || (byte c =? 32))%N
  | String c (String d EmptyString) =>
      ((byte c =? 194) && (byte d =? 160))%N
  | String c (String d (String e EmptyString)) =>
      ((byte c =? 225) && (byte d =? 154) && (byte e =? 128)
       || (byte c =? 226) && (byte d =? 128)
          && ((128 <=? byte e) && (byte e <=? 138)
              || (byte e =? 168) || (byte e =? 169) || (byte e =? 175))
       || (byte c =? 226) && (byte d =? 129) && (byte e =? 159)
       || (byte c =? 227) && (byte d =? 128) && (byte e =? 128)
       || (byte c =? 239) && (byte d =? 187) && (byte e =? 191))%N
  | _ => false
  end.

Fixpoint drop_spaces (l : list string) : list string :=
  match l with
  | ch :: rest => if is_space ch then drop_spaces rest else l
  | [] => []
  end.

(** [s.trim()] *)
Definition trim (s : string) : string :=
  unchars (rev (drop_spaces (rev (drop_spaces (chars s))))).

(** [s.replace(/\s+/g, ' ')]: every maximal run of white space becomes one
    space.  [in_run] says that the previous character was white space. *)
Fixpoint collapse_spaces (in_run : bool) (l : list string) : list string :=
  match l with
  | [] => []
  | ch :: rest =>
      if is_space ch then
        if in_run then collapse_spaces true rest
        else " " :: collapse_spaces true rest
      else ch :: collapse_spaces false rest
  end.

Definition replace_spaces (s : string) : string :=
  unchars (collapse_spaces false (chars s)).

(** [s.match(/(\d+)/)]: the first maximal run of ASCII digits, if any. *)
Definition is_digit (c : ascii) : bool :=
  ((48 <=? byte c) && (byte c <=? 57))%N.

Fixpoint take_digits (s : string) : string :=
  match s with
  | String c rest => if is_digit c then String c (take_digits rest) else EmptyString
  | EmptyString => EmptyString
  end.

Fixpoint match_digits (s : string) : option string :=
  match s with
  | EmptyString => None
  | String c rest =>
      if is_digit c then Some (String c (take_digits rest))
      else match_digits rest
  end.

(** [parseInt(s, 10)] on a string of digits.  The engine returns a double:
    it is the integer computed here as long as that integer is at most 2^53
    ([double_exact]), and a rounded value beyond. *)
Fixpoint parse_digits (acc : Z) (s : string) : Z :=
  match s with
  | String c rest =>
      if is_digit c then parse_digits (10 * acc + (Z.of_N (byte c) - 48)) rest
      else acc
  | EmptyString => acc
  end.

Definition parseInt10 (s : string) : Z := parse_digits 0 s.

(** The integers a double holds exactly, with all the integers below them. *)
Definition double_exact (n : Z) : Prop := Z.abs n <= 2 ^ 53.

(** Decimal rendering of an integer, as in a template literal. *)
Definition number_to_string (n : Z) : string :=
  NilZero.string_of_int (Z.to_int n).

(** Number of UTF-16 code units, the [length] of a string: a character
    outside the Basic Multilingual Plane (lead byte F0..F7) counts twice. *)
Definition utf16_length (s : string) : Z :=
  fold_right
    (fun ch n =>
       match ch with
       | String c _ => if (240 <=? byte c)%N then n + 2 else n + 1
       | EmptyString => n
       end) 0 (chars s).

(** ** Values

    The values that [JSON.parse] builds, and [undefined].  Numbers are the
    integers, with exact arithmetic (the sources only test numbers against
    zero, compare them, pass them on or print them).  An object is the list
    of its own properties, the first binding of a name being the one that
    counts. *)
#[warnings="-register-all"]
Inductive value :=
| VUndef
| VNull
| VBool (b : bool)
| VNum (n : Z)
| VStr (s : string)
| VArr (items : list value)
| VObj (props : list (string * value)).

(** [Boolean(v)], the test of [if (v)], [!v], [v || w], [v && w], [v ? a : b] *)
Definition truthy (v : value) : bool :=
  match v with
  | VUndef | VNull => false
  | VBool b => b
  | VNum n => negb (n =? 0)
  | VStr s => negb (String.eqb s "")
  | VArr _ | VObj _ => true
  end.

Definition nullish (v : value) : bool :=
  match v with
  | VUndef | VNull => true
  | _ => false
  end.

Fixpoint lookup (k : string) (props : list (string * value)) : option value :=
  match props with
  | [] => None
  | (k', v) :: rest => if String.eqb k k' then Some v else lookup k rest
  end.

(** The value of [v.k] for [v] other than [null] and [undefined].  Only data
    properties are read this way; none of the names the sources read is a
    method or an accessor of a prototype, apart from [length]. *)
Definition read (v : value) (k : string) : value :=
  match v with
  | VObj props =>
      match lookup k props with
      | Some x => x
      | None => VUndef
      end
  | VArr items =>
      if String.eqb k "length" then VNum (Z.of_nat (List.length items)) else VUndef
  | VStr s =>
      if String.eqb k "length" then VNum (utf16_length s) else VUndef
  | _ => VUndef
  end.

(** [v.k] *)
Definition get (v : value) (k : string) : result value :=
  if nullish v then Throw TypeError else Ok (read v k).

(** [v?.k] *)
Definition opt_get (v : value) (k : string) : value :=
  if nullish v then VUndef else read v k.

(** [a || b], the right operand being evaluated only when [a] is falsy. *)
Definition or_else (a : value) (b : result value) : result value :=
  if truthy a then Ok a else b.

(** [a || b] when [b] is a value already. *)
Definition or_ (a b : value) : value := if truthy a then a else b.

(** The receiver of a [String.prototype] method call [v.m(...)]: calling it on
    anything but a string is a TypeError ([null] and [undefined] have no
    properties, the other values have no callable [m]). *)
Definition string_receiver (v : value) : result string :=
  match v with
  | VStr s => Ok s
  | _ => Throw TypeError
  end.

(** The receiver of an [Array.prototype] method call. *)
Definition array_receiver (v : value) : result (list value) :=
  match v with
  | VArr items => Ok items
  | _ => Throw TypeError
  end.

Fixpoint join_strings (sep : string) (l : list string) : string :=
  match l with
  | [] => ""
  | [x] => x
  | x :: rest => x ++ sep ++ join_strings sep rest
  end.

Definition has_own (k : string) (props : list (string * value)) : bool :=
  match lookup k props with
  | Some _ => true
  | None => false
  end.

(** [String(v)], the conversion of template literals and of [join].  An array
    prints as its elements joined by commas, [null] and [undefined] elements
    printing as nothing; an object prints as [[object Object]] unless an own
    [toString] property (never callable in parsed JSON) hides the inherited
    method, in which case the conversion throws. *)
Fixpoint to_string (v : value) : result string :=
  match v with
  | VUndef => Ok "undefined"
  | VNull => Ok "null"
  | VBool true => Ok "true"
  | VBool false => Ok "false"
  | VNum n => Ok (number_to_string n)
  | VStr s => Ok s
  | VArr items =>
      parts <-
        (fix each (l : list value) : result (list string) :=
           match l with
           | [] => Ok []
           | x :: rest =>
               sx <- (if nullish x then Ok "" else to_string x) ;;
               srest <- each rest ;;
               Ok (sx :: srest)
           end) items ;;
      Ok (join_strings "," parts)
  | VObj props =>
      if has_own "toString" props then Throw TypeError else Ok "[object Object]"
  end.

(** [l.join(sep)] *)
Fixpoint join (sep : string) (l : list value) : result string :=
  match l with
  | [] => Ok ""
  | x :: rest =>
      sx <- (if nullish x then Ok "" else to_string x) ;;
      match rest with
      | [] => Ok sx
      | _ => srest <- join sep rest ;; Ok (sx ++ sep ++ srest)
      end
  end.

End Js.

(* ===================================================================== *)
(** * parser.ts *)
(* ===================================================================== *)
Module Parser.
Import Js.

Definition SOURCE : string := "idealista_portugal".
Definition COUNTRY : string := "Portugal".
Definition CURRENCY : string := "EUR".
Definition BASE_URL : string := "https://www.idealista.pt".

(** The two readings of the wall clock that parsing one item makes:
    [Date.now()] and [new Date().toISOString()]. *)
Record Clock := {
  dateNow : Z;
  isoString : string
}.

(** The legacy [Property] of types.ts, with the fields [parsePropertyItem]
    fills in.  Fields that are copied from the raw item keep its run-time
    value, whatever that is. *)
Record PropertyLocation := {
  address : option string;
  city : value;
  region : value;
  country : string;
  coordinates : option (value * value)
}.

Record PropertyDetails := {
  bedrooms : value;
  bathrooms : value;
  sqm : value;
  floor : option Z;
  rooms : value
}.

Record Property := {
  id : value;
  source : string;
  url : string;
  title : string;
  price : value;
  currency : string;
  propertyType : string;
  transactionType : string;
  location : PropertyLocation;
  details : PropertyDetails;
  features : list string;
  images : list value;
  description : option string;
  scrapedAt : string
}.

(** [cleanText]: [undefined] is [None]. *)
Definition cleanText (text : value) : result (option string) :=
  if negb (truthy text) then Ok None
  else
    s <- string_receiver text ;;
    Ok (Some (trim (replace_spaces s))).

(** [parseFloor]: [undefined] is [None]. *)
Definition parseFloor (floor : value) : result (option Z) :=
  if negb (truthy floor) then Ok None
  else
    s <- string_receiver floor ;;
    let cleaned := trim (toLowerCase s) in
    if includes cleaned "r/c" || includes cleaned "rés" || includes cleaned "térr"
    then Ok (Some 0)
    else if includes cleaned "cave" || includes cleaned "subsolo"
    then Ok (Some (-1))
    else if includes cleaned "sótão" || includes cleaned "ático"
    then Ok (Some 99)
    else
      match match_digits cleaned with
      | Some digits => Ok (Some (parseInt10 digits))
      | None => Ok None
      end.

(** [mapPropertyType], with the engine's [toLowerCase] as an argument. *)
Definition mapPropertyType_with (toLowerCase : string -> string)
  (propertyType typology : value) : result string :=
  type <- (s <- string_receiver (or_ (or_ propertyType typology) (VStr "")) ;;
           Ok (toLowerCase s)) ;;
  if includes type "flat" || includes type "apartamento" || includes type "apartment"
  then Ok "apartment"
  else if includes type "moradia" || includes type "villa" || includes type "chalet"
  then Ok "villa"
  else if includes type "house" || includes type "casa" then Ok "house"
  else if includes type "penthouse" || includes type "cobertura" then Ok "penthouse"
  else if includes type "duplex" then Ok "duplex"
  else if includes type "studio" || includes type "t0" then Ok "studio"
  else if includes type "loft" then Ok "loft"
  else if includes type "office" || includes type "escritório" then Ok "office"
  else if includes type "premises" || includes type "loja" then Ok "commercial"
  else if includes type "garage" || includes type "garagem" then Ok "garage"
  else if includes type "parking" || includes type "estacionamento" then Ok "parking"
  else if includes type "building" || includes type "prédio" then Ok "building"
  else if includes type "land" || includes type "terreno" then Ok "land"
  else Ok "other".

Definition mapPropertyType (propertyType typology : value) : result string :=
  mapPropertyType_with toLowerCase propertyType typology.

Definition mapTransactionType (operation : value) : result string :=
  op <- (s <- string_receiver (or_ operation (VStr "")) ;; Ok (toLowerCase s)) ;;
  if includes op "sale" || includes op "comprar" || includes op "venda"
  then Ok "sale"
  else if includes op "rent" || includes op "arrendar" || includes op "alugar"
  then Ok "rent"
  else Ok "sale".

(** [if (item.k) features.push(name)] *)
Definition push_if (item : value) (k name : string) (features : list string)
  : result (list string) :=
  flag <- get item k ;;
  Ok (if truthy flag then (features ++ [name])%list else features).

(** The body of [item.labels.forEach], with the engine's [toLowerCase] as an
    argument. *)
Fixpoint push_labels (toLowerCase : string -> string) (labels : list value)
  (features : list string) : result (list string) :=
  match labels with
  | [] => Ok features
  | label :: rest =>
      text <- get label "text" ;;
      features' <-
        (if truthy text
         then s <- string_receiver text ;; Ok (features ++ [toLowerCase s])%list
         else Ok features) ;;
      push_labels toLowerCase rest features'
  end.

(** [extractFeatures], with the engine's [toLowerCase] as an argument. *)
Definition extractFeatures_with (toLowerCase : string -> string) (item : value)
  : result (list string) :=
  features <- Ok [] ;;
  features <- push_if item "exterior" "exterior" features ;;
  features <- push_if item "hasLift" "elevator" features ;;
  features <- push_if item "hasParkingSpace" "parking" features ;;
  features <- push_if item "hasSwimmingPool" "swimming pool" features ;;
  features <- push_if item "hasTerrace" "terrace" features ;;
  features <- push_if item "hasGarden" "garden" features ;;
  features <- push_if item "hasVideo" "video available" features ;;
  features <- push_if item "has3DTour" "3D tour" features ;;
  features <- push_if item "hasPlan" "floor plan" features ;;
  features <- push_if item "newDevelopment" "new development" features ;;
  labels <- get item "labels" ;;
  if truthy labels
  then ls <- array_receiver labels ;; push_labels toLowerCase ls features
  else Ok features.

Definition extractFeatures (item : value) : result (list string) :=
  extractFeatures_with toLowerCase item.

Definition buildPropertyUrl (propertyCode url : value) : result string :=
  early <-
    (if truthy url
     then
       u <- string_receiver url ;;
       if startsWith u "/" then Ok (Some (BASE_URL ++ u))
       else if startsWith u "http" then Ok (Some u)
       else Ok None
     else Ok None) ;;
  match early with
  | Some r => Ok r
  | None =>
      if truthy propertyCode
      then code <- to_string propertyCode ;; Ok (BASE_URL ++ "/imovel/" ++ code ++ "/")
      else Ok BASE_URL
  end.

(** [cleanText(...) || fallback] *)
Definition text_or (t : option string) (fallback : string) : string :=
  match t with
  | Some s => if String.eqb s "" then fallback else s
  | None => fallback
  end.

Definition parsePropertyItem (clock : Clock) (item : value) (location : string)
  : result Property :=
  price <-
    (p <- get item "price" ;;
     or_else p
       (a <- (info <- get item "priceInfo" ;;
              Ok (opt_get (opt_get info "price") "amount")) ;;
        or_else a (Ok (VNum 0)))) ;;
  propertyType <-
    (pt <- get item "propertyType" ;;
     typology <-
       (dt <- get item "detailedType" ;;
        or_else (opt_get dt "typology") (get item "detailedType_typology")) ;;
     mapPropertyType pt typology) ;;
  transactionType <- (op <- get item "operation" ;; mapTransactionType op) ;;
  addressParts <-
    (a <- get item "address" ;;
     n <- get item "neighborhood" ;;
     d <- get item "district" ;;
     m <- get item "municipality" ;;
     Ok (filter truthy [a; n; d; m])) ;;
  id_ <-
    (code <- get item "propertyCode" ;;
     or_else code
       (ref <- get item "externalReference" ;;
        or_else ref
          (Ok (VStr ("idealista-" ++ number_to_string (dateNow clock)))))) ;;
  url_ <-
    (code <- get item "propertyCode" ;;
     u <- get item "url" ;;
     buildPropertyUrl code u) ;;
  title_ <-
    (st <- get item "suggestedTexts" ;;
     t <- or_else (opt_get st "title") (get item "address") ;;
     cleaned <- cleanText t ;;
     Ok (text_or cleaned "Property in Portugal")) ;;
  address_ <-
    (match addressParts with
     | [] => Ok None
     | _ => joined <- join ", " addressParts ;; Ok (Some joined)
     end) ;;
  city_ <- (m <- get item "municipality" ;; Ok (or_ m (VStr location))) ;;
  region_ <- get item "province" ;;
  coordinates_ <-
    (lat <- get item "latitude" ;;
     both <- (if truthy lat then get item "longitude" else Ok lat) ;;
     if truthy both
     then la <- get item "latitude" ;; lo <- get item "longitude" ;; Ok (Some (la, lo))
     else Ok None) ;;
  bedrooms_ <- get item "rooms" ;;
  bathrooms_ <- get item "bathrooms" ;;
  sqm_ <- get item "size" ;;
  floor_ <- (f <- get item "floor" ;; parseFloor f) ;;
  rooms_ <- get item "rooms" ;;
  features_ <- extractFeatures item ;;
  images_ <-
    (th <- get item "thumbnail" ;;
     if truthy th then th' <- get item "thumbnail" ;; Ok [th'] else Ok []) ;;
  description_ <-
    (d <- get item "description" ;;
     t <- or_else d (st <- get item "suggestedTexts" ;; Ok (opt_get st "subtitle")) ;;
     cleanText t) ;;
  Ok {|
    id := id_;
    source := SOURCE;
    url := url_;
    title := title_;
    price := price;
    currency := CURRENCY;
    propertyType := propertyType;
    transactionType := transactionType;
    location := {|
      address := address_;
      city := city_;
      region := region_;
      country := COUNTRY;
      coordinates := coordinates_
    |};
    details := {|
      bedrooms := bedrooms_;
      bathrooms := bathrooms_;
      sqm := sqm_;
      floor := floor_;
      rooms := rooms_
    |};
    features := features_;
    images := images_;
    description := description_;
    scrapedAt := isoString clock
  |}.

(** The callback of [elementList.map]: a record, or [null] ([None]) when
    parsing the item threw.  [tick i] is the clock as item [i] is parsed. *)
Fixpoint map_items (tick : nat -> Clock) (i : nat) (items : list value)
  (location : string) : list (option Property) :=
  match items with
  | [] => []
  | item :: rest =>
      try_catch
        (p <- parsePropertyItem (tick i) item location ;; Ok (Some p))
        (fun _ => None)
      :: map_items tick (S i) rest location
  end.

(** [.filter((p) => p !== null)] *)
Fixpoint non_null {A} (l : list (option A)) : list A :=
  match l with
  | [] => []
  | Some a :: rest => a :: non_null rest
  | None :: rest => non_null rest
  end.

(** [v === 0] *)
Definition is_zero (v : value) : bool :=
  match v with
  | VNum 0 => true
  | _ => false
  end.

Definition searchData_of (nextData : value) : value :=
  opt_get (opt_get (opt_get nextData "props") "pageProps") "searchData".

(** The [try] block of [parseNextData]. *)
Definition parseNextData_try (tick : nat -> Clock) (nextData : value)
  (location : string) : result (list Property) :=
  let elementList := or_ (opt_get (searchData_of nextData) "elementList") (VArr []) in
  len <- get elementList "length" ;;
  if is_zero len then Ok []
  else
    items <- array_receiver elementList ;;
    Ok (non_null (map_items tick 0 items location)).

Definition parseNextData (tick : nat -> Clock) (nextData : value)
  (location : string) : list Property :=
  try_catch (parseNextData_try tick nextData location) (fun _ => []).

Record SearchMetadata := {
  total : value;
  currentPage : value;
  totalPages : value
}.

Definition extractSearchMetadata (nextData : value) : SearchMetadata :=
  let searchData := searchData_of nextData in
  {| total := or_ (opt_get searchData "total") (VNum 0);
     currentPage :=
       or_ (or_ (opt_get searchData "currentPage") (opt_get searchData "actualPage"))
         (VNum 1);
     totalPages := or_ (opt_get searchData "totalPages") (VNum 1) |}.

(** ** The interface [IdealistaPropertyItem]

    TypeScript types as a predicate on run-time values.  Every property of the
    interface is optional: it may be missing, [undefined] or [null]. *)
#[warnings="-register-all"]
Inductive ty :=
| TString
| TNumber
| TBoolean
| TArray (elem : ty)
| TObject (fields : list (string * ty)).

Fixpoint has_type (t : ty) (v : value) {struct t} : bool :=
  match t, v with
  | TString, VStr _ => true
  | TNumber, VNum _ => true
  | TBoolean, VBool _ => true
  | TArray elem, VArr items => forallb (has_type elem) items
  | TObject fields, VObj props =>
      (fix all (fs : list (string * ty)) : bool :=
         match fs with
         | [] => true
         | (k, tk) :: rest =>
             match lookup k props with
             | Some x => nullish x || has_type tk x
             | None => true
             end && all rest
         end) fields
  | _, _ => false
  end.

Definition IdealistaPropertyItem : ty :=
  TObject [
    ("propertyCode", TString);
    ("thumbnail", TString);
    ("externalReference", TString);
    ("numPhotos", TNumber);
    ("floor", TString);
    ("price", TNumber);
    ("propertyType", TString);
    ("operation", TString);
    ("size", TNumber);
    ("exterior", TBoolean);
    ("rooms", TNumber);
    ("bathrooms", TNumber);
    ("address", TString);
    ("province", TString);
    ("municipality", TString);
    ("district", TString);
    ("country", TString);
    ("neighborhood", TString);
    ("latitude", TNumber);
    ("longitude", TNumber);
    ("description", TString);
    ("detailedType", TObject [("typology", TString); ("subTypology", TString)]);
    ("status", TString);
    ("newDevelopment", TBoolean);
    ("hasVideo", TBoolean);
    ("has3DTour", TBoolean);
    ("hasPlan", TBoolean);
    ("hasLift", TBoolean);
    ("parkingSpace",
       TObject [("hasParkingSpace", TBoolean);
                ("isParkingSpaceIncludedInPrice", TBoolean)]);
    ("priceInfo",
       TObject [("price", TObject [("amount", TNumber); ("currencySuffix", TString)])]);
    ("parkingSpacePrice", TObject [("amount", TNumber)]);
    ("priceByArea", TNumber);
    ("detailedType_typology", TString);
    ("suggestedTexts", TObject [("subtitle", TString); ("title", TString)]);
    ("hasParkingSpace", TBoolean);
    ("isParkingSpaceIncludedInPrice", TBoolean);
    ("url", TString);
    ("distance", TString);
    ("hasSwimmingPool", TBoolean);
    ("hasTerrace", TBoolean);
    ("hasGarden", TBoolean);
    ("highlight", TObject [("type", TString)]);
    ("labels", TArray (TObject [("type", TString); ("text", TString)]))
  ].

(** [item] is an [IdealistaPropertyItem]. *)
Definition conforms (item : value) : bool := has_type IdealistaPropertyItem item.

End Parser.

(* ===================================================================== *)
(** * transformer.ts *)
(* ===================================================================== *)
Module Transformer.
Import Js.

Record PropertyAmenities := {
  has_parking : bool;
  has_garden : bool;
  has_balcony : bool;
  has_terrace : bool;
  has_pool : bool;
  has_elevator : bool;
  has_garage : bool;
  has_basement : bool;
  has_fireplace : bool;
  is_furnished : bool;
  is_new_construction : bool;
  is_luxury : bool
}.

(** [l.some(p)] *)
Definition some {A} (l : list A) (p : A -> bool) : bool := existsb p l.

(** [extractAmenities], with the engine's [toLowerCase] as an argument. *)
Definition extractAmenities_with (toLowerCase : string -> string)
  (features : list string) : PropertyAmenities :=
  let featuresLower := map (fun f => toLowerCase f) features in
  {|
    has_parking := some featuresLower (fun f =>
      some ["parking"; "garagem"; "estacionamento"; "garage"] (fun term =>
        includes f term));
    has_garden := some featuresLower (fun f =>
      some ["garden"; "jardim"] (fun term => includes f term));
    has_balcony := some featuresLower (fun f =>
      some ["balcony"; "balcão"; "varanda"] (fun term => includes f term));
    has_terrace := some featuresLower (fun f =>
      some ["terrace"; "terraço"; "terrace"] (fun term => includes f term));
    has_pool := some featuresLower (fun f =>
      some ["pool"; "piscina"; "swimming"] (fun term => includes f term));
    has_elevator := some featuresLower (fun f =>
      some ["elevator"; "elevador"; "lift"; "ascensor"] (fun term =>
        includes f term));
    has_garage := some featuresLower (fun f =>
      some ["garage"; "garagem"] (fun term => includes f term));
    has_basement := some featuresLower (fun f =>
      some ["basement"; "cave"; "subsolo"] (fun term => includes f term));
    has_fireplace := some featuresLower (fun f =>
      some ["fireplace"; "lareira"; "chimenea"] (fun term => includes f term));
    is_furnished := some featuresLower (fun f =>
      some ["furnished"; "mobilado"; "amueblado"] (fun term => includes f term));
    is_new_construction := some featuresLower (fun f =>
      some ["new development"; "nova construção"; "obra nova"] (fun term =>
        includes f term));
    is_luxury := some featuresLower (fun f =>
      some ["luxury"; "luxo"; "premium"] (fun term => includes f term))
  |}.

Definition extractAmenities (features : list string) : PropertyAmenities :=
  extractAmenities_with toLowerCase features.

End Transformer.

(* ===================================================================== *)
(** * scraper.ts *)
(* ===================================================================== *)
Module Scraper.
Import Js Parser.

(** ** [extractNextData] *)
Section Extraction.

(** cheerio, [load(html)] and then [$('#__NEXT_DATA__')]: the inner HTML of
    every element the selector matches, in document order. *)
Variable select_next_data : string -> result (list string).

(** [JSON.parse] *)
Variable JSON_parse : string -> result value.

(** The [try] block: what [this.logger.error] is given, and the value
    returned. *)
Definition extractNextData_try (html : string) : result (list string * value) :=
  scriptTag <- select_next_data html ;;
  match scriptTag with
  | [] => Ok (["[idealista] __NEXT_DATA__ script tag not found"], VNull)
  | jsonText :: _ =>
      if String.eqb jsonText ""
      then Ok (["[idealista] __NEXT_DATA__ script tag is empty"], VNull)
      else data <- JSON_parse jsonText ;; Ok ([], data)
  end.

Definition extractNextData (html : string) : list string * value :=
  try_catch (extractNextData_try html)
    (fun _ => (["[idealista] Failed to extract __NEXT_DATA__:"], VNull)).

End Extraction.

(** ** [scrapeLocation] *)

Inductive transaction := sale | rent.

Record ScrapeResult := {
  properties : list Property;
  totalFound : value;
  currentPage : Z;
  hasNextPage : bool
}.

(** What [scrapePage] throws: whether it is an [Error], and its message. *)
Record thrown := {
  instanceofError : bool;
  message : string
}.

Record Options := {
  maxPages : option Z;
  limit : option Z
}.

(** The statement that ended the page loop: one of the three [break]s (each
    announced by a log line of its own) or the loop condition. *)
Inductive LoopExit :=
| ReachedLimit      (* "Reached limit of ... properties" *)
| NoMorePages       (* "No more pages available" *)
| BlockedStop       (* "Blocked by anti-bot, stopping scrape" *)
| PagesExhausted.   (* [page <= maxPages] is false *)

(** [error instanceof Error && error.message.includes('blocked')] *)
Definition is_blocked (error : thrown) : bool :=
  instanceofError error && includes (message error) "blocked".

(** [limit && n >= limit] *)
Definition limit_reached (limit : option Z) (n : nat) : bool :=
  match limit with
  | Some l => negb (l =? 0) && (l <=? Z.of_nat n)
  | None => false
  end.

(** [l.slice(0, end)]; a negative [end] counts from the end of [l]. *)
Definition slice0 {A} (l : list A) (end_ : Z) : list A :=
  if end_ <? 0
  then firstn (Z.to_nat (Z.max (Z.of_nat (List.length l) + end_) 0)) l
  else firstn (Z.to_nat end_) l.

(** [limit ? allProperties.slice(0, limit) : allProperties] *)
Definition trim_to_limit {A} (limit : option Z) (allProperties : list A) : list A :=
  match limit with
  | Some l => if l =? 0 then allProperties else slice0 allProperties l
  | None => allProperties
  end.

Section Crawl.

(** The browser session and everything behind it. *)
Variable World : Type.

(** [this.scrapePage(location, transactionType, page)]: a page of results,
    or what it throws. *)
Variable scrapePage :
  World -> string -> transaction -> Z -> (thrown + ScrapeResult) * World.

(** The randomised wait between two pages. *)
Variable pause : World -> World.

(** Where the page loop stands when it ends.  [fetched] lists the calls of
    [scrapePage] in order, each with its outcome. *)
Record LoopEnd := {
  allProperties : list Property;
  fetched : list (Z * (thrown + ScrapeResult));
  exit : LoopExit;
  world : World
}.

Section Loop.
Variable location : string.
Variable transactionType : transaction.
Variable maxPages_ : Z.
Variable limit_ : option Z.

(** [for (let page = 1; page <= maxPages; page++) { ... }], entered at
    [page]. *)
Equations? page_loop (page : Z) (w : World) (acc : list Property)
  (log : list (Z * (thrown + ScrapeResult))) : LoopEnd
  by wf (Z.to_nat (maxPages_ + 1 - page)) lt :=
  page_loop page w acc log with Z_le_gt_dec page maxPages_ := {
    | right _ :=
        {| allProperties := acc; fetched := log; exit := PagesExhausted;
           world := w |};
    | left _ with scrapePage w location transactionType page := {
        | (inr result, w') with
            limit_reached limit_ (List.length (acc ++ properties result)) := {
            | true :=
                {| allProperties := acc ++ properties result;
                   fetched := log ++ [(page, inr result)];
                   exit := ReachedLimit; world := w' |};
            | false with hasNextPage result := {
                | false :=
                    {| allProperties := acc ++ properties result;
                       fetched := log ++ [(page, inr result)];
                       exit := NoMorePages; world := w' |};
                | true :=
                    page_loop (page + 1)
                      (if page <? maxPages_ then pause w' else w')
                      (acc ++ properties result)
                      (log ++ [(page, inr result)]) } };
        | (inl error, w') with is_blocked error := {
            | true :=
                {| allProperties := acc;
                   fetched := log ++ [(page, inl error)];
                   exit := BlockedStop; world := w' |};
            | false :=
                page_loop (page + 1) w' acc (log ++ [(page, inl error)]) } } }.
Proof. all: lia. Qed.

End Loop.

(** What a crawl of one location gives back ([records]) and how it went. *)
Record Outcome := {
  records : list Property;
  pages : list (Z * (thrown + ScrapeResult));
  stop : LoopExit;
  final_world : World
}.

Definition scrapeLocation (w : World) (location : string)
  (transactionType : transaction) (options : Options) : Outcome :=
  let maxPages := match maxPages options with Some m => m | None => 5 end in
  let limit := limit options in
  let done := page_loop location transactionType maxPages limit 1 w [] [] in
  {| records := trim_to_limit limit (allProperties done);
     pages := fetched done;
     stop := exit done;
     final_world := world done |}.

(** ** [scrapeLocations] *)

(** The wait between two locations. *)
Variable pause_between : World -> World.

(** The options of [scrapeLocations]; [totalLimit] is its [limit]. *)
Record LocationsOptions := {
  maxPagesPerLocation : option Z;
  totalLimit : option Z
}.

(** [locations.indexOf(location)] *)
Fixpoint indexOf (locations : list string) (location : string) : Z :=
  match locations with
  | [] => -1
  | first :: rest =>
      if String.eqb first location then 0
      else
        let i := indexOf rest location in
        if i <? 0 then -1 else i + 1
  end.

(** What a crawl of several locations gives back ([allRecords]), and the
    crawl of each location it went through, in order. *)
Record LocationsOutcome := {
  allRecords : list Property;
  visited : list (string * Outcome);
  last_world : World
}.

(** [limit ? limit - allProperties.length : undefined] *)
Definition remaining_limit (limit : option Z) (acc : list Property) : option Z :=
  match limit with
  | Some l => if l =? 0 then None else Some (l - Z.of_nat (List.length acc))
  | None => None
  end.

(** [for (const location of locations) { ... }] from the locations [todo] on.
    [scrapeLocation] catches what its fetches throw, so the [catch] of this
    loop is never entered. *)
Fixpoint locations_loop (locations : list string) (transactionType : transaction)
  (maxPages_ : Z) (limit_ : option Z) (todo : list string) (w : World)
  (acc : list Property) (seen : list (string * Outcome)) : LocationsOutcome :=
  match todo with
  | [] => {| allRecords := acc; visited := seen; last_world := w |}
  | location :: todo' =>
      let o :=
        scrapeLocation w location transactionType
          {| maxPages := Some maxPages_; limit := remaining_limit limit_ acc |} in
      let acc' := (acc ++ records o)%list in
      let seen' := (seen ++ [(location, o)])%list in
      if limit_reached limit_ (List.length acc')
      then {| allRecords := acc'; visited := seen'; last_world := final_world o |}
      else
        locations_loop locations transactionType maxPages_ limit_ todo'
          (if indexOf locations location <? Z.of_nat (List.length locations) - 1
           then pause_between (final_world o) else final_world o)
          acc' seen'
  end.

Definition scrapeLocations (w : World) (locations : list string)
  (transactionType : transaction) (options : LocationsOptions) : LocationsOutcome :=
  let maxPagesPerLocation :=
    match maxPagesPerLocation options with Some m => m | None => 3 end in
  locations_loop locations transactionType maxPagesPerLocation (totalLimit options)
    locations w [] [].

End Crawl.

(** ** The private methods of [IdealistaScraper] *)
Module Page.

(** [buildSearchUrl]; [BASE_URL] is the constant parser.ts has as well. *)
Definition buildSearchUrl (location : string) (transactionType : transaction)
  (page : Z) : string :=
  let typeSlug :=
    match transactionType with
    | sale => "comprar-casas"
    | rent => "arrendar-casas"
    end in
  let pageSlug :=
    if 1 <? page then "pagina-" ++ number_to_string page ++ ".html" else "" in
  BASE_URL ++ "/" ++ typeSlug ++ "/" ++ location ++ "/" ++ pageSlug.

(** [getTotalCount]; nothing in its [try] block throws. *)
Definition getTotalCount (nextData : value) : value :=
  let searchData := searchData_of nextData in
  or_ (opt_get searchData "total") (VNum 0).

Section Comparison.

(** The outcome of [a < b] when [a] or [b] is not a number: it goes through
    the conversions of the language to primitives and numbers, which are not
    modelled; where they throw, the [catch] of [hasNextPage] answers [false]. *)
Variable compare_other : value -> value -> bool.

(** [a < b] inside the [try] block of [hasNextPage]. *)
Definition less_than (a b : value) : bool :=
  match a, b with
  | VNum x, VNum y => x <? y
  | _, _ => compare_other a b
  end.

Definition hasNextPage (nextData : value) : bool :=
  let searchData := searchData_of nextData in
  let currentPage := or_ (opt_get searchData "currentPage") (VNum 1) in
  let totalPages := or_ (opt_get searchData "totalPages") (VNum 1) in
  less_than currentPage totalPages.

(** *** [scrapePage] *)

Variable World : Type.

(** cheerio and [JSON.parse], as for [extractNextData]. *)
Variable select_next_data : string -> result (list string).
Variable JSON_parse : string -> result value.

(** [this.page] is set: [initialize] has been called. *)
Variable page_ready : World -> bool.

(** Everything between [this.page.goto(url)] and [this.page.content()]:
    navigation, the DataDome and consent handling, scrolling and waiting.
    The HTML of the page, or what one of them throws. *)
Variable render : World -> string -> (thrown + string) * World.

(** The clock while the items of the page are parsed. *)
Variable tick : World -> nat -> Clock.

Definition scrapePage (w : World) (location : string)
  (transactionType : transaction) (pageNumber : Z)
  : (thrown + ScrapeResult) * World :=
  if negb (page_ready w)
  then
    (inl {| instanceofError := true;
            message := "Browser not initialized. Call initialize() first." |}, w)
  else
    let url := buildSearchUrl location transactionType pageNumber in
    match render w url with
    | (inl error, w') => (inl error, w')
    | (inr html, w') =>
        let nextData := snd (extractNextData select_next_data JSON_parse html) in
        if negb (truthy nextData)
        then
          (inr (Build_ScrapeResult [] (VNum 0) pageNumber false), w')
        else
          let properties := parseNextData (tick w') nextData location in
          let hasNextPage := hasNextPage nextData in
          (inr (Build_ScrapeResult properties (getTotalCount nextData)
                  pageNumber hasNextPage), w')
    end.

End Comparison.

(** *** [handleCookieConsent] *)

(** The double quote, which the selectors contain. *)
Definition dq : string := String (ascii_of_N 34) EmptyString.

Definition cookieSelectors : list string :=
  [ "#didomi-notice-agree-button";
    "[id*=" ++ dq ++ "didomi" ++ dq ++ "] button[class*=" ++ dq ++ "agree" ++ dq ++ "]";
    "button:has-text(" ++ dq ++ "Aceitar" ++ dq ++ ")";
    "button:has-text(" ++ dq ++ "Aceito" ++ dq ++ ")";
    "button:has-text(" ++ dq ++ "Aceitar tudo" ++ dq ++ ")";
    "button:has-text(" ++ dq ++ "Concordo" ++ dq ++ ")";
    "button:has-text(" ++ dq ++ "Accept" ++ dq ++ ")";
    "button:has-text(" ++ dq ++ "Accept all" ++ dq ++ ")";
    "button[id*=" ++ dq ++ "accept" ++ dq ++ "]";
    "button[class*=" ++ dq ++ "accept" ++ dq ++ "]" ].

Section Consent.

Variable World : Type.

(** [this.page.locator(selector).first().isVisible({ timeout: 2000 })], with
    its [.catch(() => false)]. *)
Variable isVisible : World -> string -> bool * World.

(** [humanClick(this.page, selector)]: done, or what it throws. *)
Variable humanClick : World -> string -> (thrown + unit) * World.

(** [sleep(500)] *)
Variable sleep : World -> World.

(** The loop over the selectors.  [clicks] lists the calls of [humanClick] in
    order, each with its outcome. *)
Fixpoint consent_loop (selectors : list string) (w : World)
  (clicks : list (string * (thrown + unit)))
  : list (string * (thrown + unit)) * World :=
  match selectors with
  | [] => (clicks, w)
  | selector :: rest =>
      let (visible, w1) := isVisible w selector in
      if visible
      then
        match humanClick w1 selector with
        | (inr done, w2) => ((clicks ++ [(selector, inr done)])%list, sleep w2)
        | (inl error, w2) =>
            consent_loop rest w2 (clicks ++ [(selector, inl error)])%list
        end
      else consent_loop rest w1 clicks
  end.

Definition handleCookieConsent (page_ready : World -> bool) (w : World)
  : list (string * (thrown + unit)) * World :=
  if negb (page_ready w) then ([], w)
  else consent_loop cookieSelectors w [].

End Consent.

End Page.

End Scraper.

(* ===================================================================== *)
(** * The specification's tables and sample inputs *)
(* ===================================================================== *)
Module Spec.
Import Js Parser Transformer Scraper.

(** The ordered table of property kinds and their synonyms. *)
Definition kind_table : list (string * list string) :=
  [ ("apartment", ["flat"; "apartamento"; "apartment"]);
    ("villa", ["moradia"; "villa"; "chalet"]);
    ("house", ["house"; "casa"]);
    ("penthouse", ["penthouse"; "cobertura"]);
    ("duplex", ["duplex"]);
    ("studio", ["studio"; "t0"]);
    ("loft", ["loft"]);
    ("office", ["office"; "escritório"]);
    ("commercial", ["premises"; "loja"]);
    ("garage", ["garage"; "garagem"]);
    ("parking", ["parking"; "estacionamento"]);
    ("building", ["building"; "prédio"]);
    ("land", ["land"; "terreno"]) ].

(** Some synonym of the list occurs in [text]. *)
Definition mentions (text : string) (terms : list string) : bool :=
  existsb (fun term => includes text term) terms.

(** First matching kind in table order wins; no match gives [other]. *)
Fixpoint first_match (table : list (string * list string)) (text : string) : string :=
  match table with
  | [] => "other"
  | (kind, terms) :: rest =>
      if mentions text terms then kind else first_match rest text
  end.

(** The amenity flags and the term list of each. *)
Inductive amenity :=
| Parking | Garden | Balcony | Terrace | Pool | Elevator
| Garage | Basement | Fireplace | Furnished | NewConstruction | Luxury.

Definition all_amenities : list amenity :=
  [Parking; Garden; Balcony; Terrace; Pool; Elevator;
   Garage; Basement; Fireplace; Furnished; NewConstruction; Luxury].

Definition terms_of (a : amenity) : list string :=
  match a with
  | Parking => ["parking"; "garagem"; "estacionamento"; "garage"]
  | Garden => ["garden"; "jardim"]
  | Balcony => ["balcony"; "balcão"; "varanda"]
  | Terrace => ["terrace"; "terraço"; "terrace"]
  | Pool => ["pool"; "piscina"; "swimming"]
  | Elevator => ["elevator"; "elevador"; "lift"; "ascensor"]
  | Garage => ["garage"; "garagem"]
  | Basement => ["basement"; "cave"; "subsolo"]
  | Fireplace => ["fireplace"; "lareira"; "chimenea"]
  | Furnished => ["furnished"; "mobilado"; "amueblado"]
  | NewConstruction => ["new development"; "nova construção"; "obra nova"]
  | Luxury => ["luxury"; "luxo"; "premium"]
  end.

Definition flag (a : amenity) (p : PropertyAmenities) : bool :=
  match a with
  | Parking => has_parking p
  | Garden => has_garden p
  | Balcony => has_balcony p
  | Terrace => has_terrace p
  | Pool => has_pool p
  | Elevator => has_elevator p
  | Garage => has_garage p
  | Basement => has_basement p
  | Fireplace => has_fireplace p
  | Furnished => is_furnished p
  | NewConstruction => is_new_construction p
  | Luxury => is_luxury p
  end.

(** The flags the specification's example expects to be set. *)
Definition pool_and_garage_only : PropertyAmenities :=
  {| has_parking := false; has_garden := false; has_balcony := false;
     has_terrace := false; has_pool := true; has_elevator := false;
     has_garage := true; has_basement := false; has_fireplace := false;
     is_furnished := false; is_new_construction := false; is_luxury := false |}.

Definition ground_terms : list string := ["r/c"; "rés"; "térr"].
Definition basement_terms : list string := ["cave"; "subsolo"].
Definition attic_terms : list string := ["sótão"; "ático"].

(** The records of the items that parse, in page order; the item at index
    [i] is parsed at clock [tick i]. *)
Definition parsed (clock : Clock) (item : value) (location : string) : list Property :=
  match parsePropertyItem clock item location with
  | Ok p => [p]
  | Throw _ => []
  end.

Fixpoint successes (tick : nat -> Clock) (i : nat) (items : list value)
  (location : string) : list Property :=
  match items with
  | [] => []
  | item :: rest =>
      (parsed (tick i) item location ++ successes tick (S i) rest location)%list
  end.

(** The embedded state of a page that lists [items]. *)
Definition page_with (items : list value) : value :=
  VObj [("props",
     VObj [("pageProps",
        VObj [("searchData", VObj [("elementList", VArr items)])])])].

(** An optional property of type [t]: missing, [null] or of that type. *)
Definition optional (t : ty) (v : value) : bool := nullish v || has_type t v.

Definition interface_fields (t : ty) : list (string * ty) :=
  match t with
  | TObject fields => fields
  | _ => []
  end.

Definition label_type : ty := TObject [("type", TString); ("text", TString)].

Definition detailedType_type : ty :=
  TObject [("typology", TString); ("subTypology", TString)].

Definition suggestedTexts_type : ty :=
  TObject [("subtitle", TString); ("title", TString)].

(** Digit runs, for the first embedded integer of a floor text. *)
Definition no_digit (s : string) : Prop :=
  forall c, In c (list_ascii_of_string s) -> is_digit c = false.

Definition all_digits (s : string) : Prop :=
  forall c, In c (list_ascii_of_string s) -> is_digit c = true.

Definition starts_with_digit (s : string) : bool :=
  match s with
  | String c _ => is_digit c
  | EmptyString => false
  end.

(** [p] with another identifier and another capture timestamp. *)
Definition restamp (new_id : value) (new_scrapedAt : string) (p : Property) : Property :=
  {| id := new_id;
     source := source p;
     url := url p;
     title := title p;
     price := price p;
     currency := currency p;
     propertyType := propertyType p;
     transactionType := transactionType p;
     location := location p;
     details := details p;
     features := features p;
     images := images p;
     description := description p;
     scrapedAt := new_scrapedAt |}.

(** The identifier [parsePropertyItem] synthesizes at clock [c]. *)
Definition synthesized_id (c : Clock) : value :=
  VStr ("idealista-" ++ number_to_string (dateNow c)).

(** The price the source site gives for [item], if any. *)
Definition upstream_price (item : value) : value :=
  or_ (read item "price")
      (opt_get (opt_get (read item "priceInfo") "price") "amount").

(** The page indices [p], [p + 1], ..., [n] of them. *)
Fixpoint pages_from (p : Z) (n : nat) : list Z :=
  match n with
  | O => []
  | S n' => p :: pages_from (p + 1) n'
  end.

(** The records one call of [scrapePage] contributed. *)
Definition got (entry : Z * (thrown + ScrapeResult)) : list Property :=
  match snd entry with
  | inr result => properties result
  | inl _ => []
  end.

(** The accumulator has not reached the record limit. *)
Definition below_limit (limit : option Z) (acc : list Property) : Prop :=
  acc = [] \/ limit_reached limit (List.length acc) = false.

(** Sample clocks and items. *)
Definition noon : Clock :=
  {| dateNow := 1730030400000; isoString := "2024-10-27T12:00:00.000Z" |}.

Definition midnight : Clock :=
  {| dateNow := 1730073600000; isoString := "2024-10-28T00:00:00.000Z" |}.

Definition empty_item : value := VObj [].

Definition flat_in_lisboa : value :=
  VObj [("propertyCode", VStr "33445566");
        ("price", VNum 250000);
        ("propertyType", VStr "flat");
        ("operation", VStr "sale");
        ("floor", VStr "3º andar");
        ("municipality", VStr "Lisboa");
        ("labels", VArr [VObj [("text", VStr "Piscina privada")]])].

Definition negative_price_item : value := VObj [("price", VNum (-5))].

(** An item whose [floor] is a number, which the interface excludes. *)
Definition numeric_floor_item : value :=
  VObj [("propertyCode", VStr "77"); ("floor", VNum 3)].

(** The page limit in force: [maxPages], 5 when it is not given. *)
Definition page_cap (options : Options) : Z :=
  match maxPages options with
  | Some m => m
  | None => 5
  end.

(** Lists of characters as [chars] builds them: each is a byte followed by
    continuation bytes only, and only the first may begin with a
    continuation byte. *)
Definition all_continuation (s : string) : Prop :=
  forall c, In c (list_ascii_of_string s) -> is_continuation c = true.

Fixpoint well_formed (first : bool) (l : list string) : Prop :=
  match l with
  | [] => True
  | ch :: rest =>
      (exists c tail,
         ch = String c tail /\ all_continuation tail
         /\ (first = true \/ is_continuation c = false))
      /\ well_formed false rest
  end.

(** The only white space is the single space, and no two of them touch. *)
Fixpoint tidy (l : list string) : Prop :=
  match l with
  | [] => True
  | ch :: rest =>
      (is_space ch = true ->
       ch = " " /\ match rest with
                   | next :: _ => is_space next = false
                   | [] => True
                   end)
      /\ tidy rest
  end.

(** Neither the first nor the last character is white space. *)
Definition no_outer_space (l : list string) : Prop :=
  (forall ch rest, l = ch :: rest -> is_space ch = false)
  /\ (forall init ch, l = (init ++ [ch])%list -> is_space ch = false).

Definition sale_terms : list string := ["sale"; "comprar"; "venda"].
Definition rent_terms : list string := ["rent"; "arrendar"; "alugar"].

(** The address fragments of an item that are non-empty strings, in the
    order in which [parsePropertyItem] lists them. *)
Definition fragment (item : value) (k : string) : list string :=
  match read item k with
  | VStr s => if String.eqb s "" then [] else [s]
  | _ => []
  end.

Definition fragments (item : value) : list string :=
  flat_map (fragment item) ["address"; "neighborhood"; "district"; "municipality"].

(** The boolean properties [extractFeatures] looks at and the feature each
    stands for, in the order of the source. *)
Definition feature_flags : list (string * string) :=
  [ ("exterior", "exterior");
    ("hasLift", "elevator");
    ("hasParkingSpace", "parking");
    ("hasSwimmingPool", "swimming pool");
    ("hasTerrace", "terrace");
    ("hasGarden", "garden");
    ("hasVideo", "video available");
    ("has3DTour", "3D tour");
    ("hasPlan", "floor plan");
    ("newDevelopment", "new development") ].

Definition flag_features (item : value) : list string :=
  flat_map (fun '(k, name) => if truthy (read item k) then [name] else [])
    feature_flags.

(** The lower-cased texts of the labels that have one, [toLowerCase] being the
    engine's function. *)
Definition label_feature (toLowerCase : string -> string) (label : value)
  : list string :=
  match read label "text" with
  | VStr s => if String.eqb s "" then [] else [toLowerCase s]
  | _ => []
  end.

Definition label_features (toLowerCase : string -> string) (item : value)
  : list string :=
  match read item "labels" with
  | VArr labels => flat_map (label_feature toLowerCase) labels
  | _ => []
  end.

(** The boolean properties of an item that name an amenity. *)
Definition flag_amenities : list (string * amenity) :=
  [ ("hasLift", Elevator);
    ("hasParkingSpace", Parking);
    ("hasSwimmingPool", Pool);
    ("hasTerrace", Terrace);
    ("hasGarden", Garden);
    ("newDevelopment", NewConstruction) ].

(** A villa on the Greenwich meridian. *)
Definition villa_on_the_meridian : value :=
  VObj [("propertyCode", VStr "9001");
        ("address", VStr "Rua do Sol 3");
        ("district", VStr "");
        ("municipality", VStr "Faro");
        ("latitude", VNum 37);
        ("longitude", VNum 0);
        ("hasSwimmingPool", VBool true);
        ("hasLift", VBool false);
        ("labels", VArr [VObj [("text", VStr "Vista MAR")]; VObj [("type", VStr "x")]])].

(** A page number as [hasNextPage] reads it: 1 when it is missing or 0. *)
Definition page_or_1 (v : value) : Z :=
  match v with
  | VNum n => if n =? 0 then 1 else n
  | _ => 1
  end.

(** The embedded state of a page whose search data is [searchData]. *)
Definition state_with (searchData : value) : value :=
  VObj [("props", VObj [("pageProps", VObj [("searchData", searchData)])])].

(** A record to fill sample pages with. *)
Definition sample_record (code : string) : Property :=
  {| id := VStr code;
     source := SOURCE;
     url := BASE_URL ++ "/imovel/" ++ code ++ "/";
     title := "Property in Portugal";
     price := VNum 0;
     currency := CURRENCY;
     propertyType := "other";
     transactionType := "sale";
     location := {| address := None; city := VStr "lisboa"; region := VUndef;
                    country := COUNTRY; coordinates := None |};
     details := {| bedrooms := VUndef; bathrooms := VUndef; sqm := VUndef;
                   floor := None; rooms := VUndef |};
     features := [];
     images := [];
     description := None;
     scrapedAt := "2024-10-27T12:00:00.000Z" |}.

Definition five_records : list Property :=
  map sample_record ["a1"; "a2"; "a3"; "a4"; "a5"].

Definition page_of (records : list Property) (page : Z) (more : bool) : ScrapeResult :=
  {| properties := records;
     totalFound := VNum 60;
     currentPage := page;
     hasNextPage := more |}.

(** A session whose only page holds five records and is the last one. *)
Definition single_page_session (w : unit) (location : string)
  (transactionType : transaction) (page : Z) : (thrown + ScrapeResult) * unit :=
  (inr (page_of five_records page false), w).

Definition datadome_block : thrown :=
  {| instanceofError := true; message := "Request blocked by DataDome" |}.

(** A session of many pages in which the fetch of page 2 is blocked. *)
Definition blocked_on_page_2 (w : unit) (location : string)
  (transactionType : transaction) (page : Z) : (thrown + ScrapeResult) * unit :=
  (if page =? 2 then inl datadome_block
   else inr (page_of five_records page true), w).

Definition navigation_timeout : thrown :=
  {| instanceofError := true; message := "page.goto: Timeout 60000ms exceeded." |}.

(** A session whose first fetch times out and whose third page is the last. *)
Definition timeout_then_three_pages (w : unit) (location : string)
  (transactionType : transaction) (page : Z) : (thrown + ScrapeResult) * unit :=
  (if page =? 1 then inl navigation_timeout
   else inr (page_of five_records page (page <? 3)), w).

Definition no_pause (w : unit) : unit := w.

(** Two documents and stand-ins for the two library calls on them: a
    challenge page without the container, and a page whose container holds
    text that is not JSON. *)
Definition challenge_page : string :=
  "<html><body>Please verify you are a human</body></html>".

Definition truncated_page : string :=
  "<html><script id='__NEXT_DATA__'>{'props':</script></html>".

Definition sample_select (html : string) : result (list string) :=
  if String.eqb html truncated_page then Ok ["{'props':"] else Ok [].

Definition sample_parse (text : string) : result value :=
  if String.eqb text "{}" then Ok (VObj []) else Throw SyntaxError.

(** The page loop goes on after this fetch: a page that announces a next
    page, or a failure that is not a block. *)
Definition goes_on (entry : Z * (thrown + ScrapeResult)) : bool :=
  match snd entry with
  | inr result => hasNextPage result
  | inl error => negb (is_blocked error)
  end.

(** The fetch [outcome] is one on which the loop ends with [e]. *)
Definition ends (e : LoopExit) (outcome : thrown + ScrapeResult) : Prop :=
  match e, outcome with
  | NoMorePages, inr result => hasNextPage result = false
  | BlockedStop, inl error => is_blocked error = true
  | ReachedLimit, inr _ => True
  | _, _ => False
  end.


(** The records a visited location contributed. *)
Definition collected {World} (v : string * Outcome World) : list Property :=
  records World (snd v).

(** A crawl of several locations that waits between two consecutive
    locations and nowhere else: [locations_loop] with the test on the
    position of the location replaced by "another location follows". *)
Fixpoint crawl_each {World}
  (scrapePage : World -> string -> transaction -> Z -> (thrown + ScrapeResult) * World)
  (pause pause_between : World -> World) (transactionType : transaction)
  (maxPages_ : Z) (limit_ : option Z) (todo : list string) (w : World)
  (acc : list Property) (seen : list (string * Outcome World))
  : LocationsOutcome World :=
  match todo with
  | [] => {| allRecords := acc; visited := seen; last_world := w |}
  | location :: todo' =>
      let o :=
        scrapeLocation World scrapePage pause w location transactionType
          {| maxPages := Some maxPages_; limit := remaining_limit limit_ acc |} in
      let acc' := (acc ++ records World o)%list in
      let seen' := (seen ++ [(location, o)])%list in
      if limit_reached limit_ (List.length acc')
      then {| allRecords := acc'; visited := seen'; last_world := final_world World o |}
      else
        crawl_each scrapePage pause pause_between transactionType maxPages_ limit_
          todo'
          (match todo' with
           | [] => final_world World o
           | _ :: _ => pause_between (final_world World o)
           end)
          acc' seen'
  end.

(** A session that counts the waits between locations; every location has
    one page of five records. *)
Definition counting_session (w : nat) (location : string)
  (transactionType : transaction) (page : Z) : (thrown + ScrapeResult) * nat :=
  (inr (page_of five_records page false), w).

(** What [scrapePage] throws before [initialize] has been called. *)
Definition not_initialized : thrown :=
  {| instanceofError := true;
     message := "Browser not initialized. Call initialize() first." |}.

(** The page [scrapePage] reports when the document has no usable state. *)
Definition empty_last_page (pageNumber : Z) : ScrapeResult :=
  {| properties := []; totalFound := VNum 0; currentPage := pageNumber;
     hasNextPage := false |}.

(** [xs] is [ys] with some elements left out. *)
Fixpoint subsequence (xs ys : list string) : bool :=
  match xs, ys with
  | [], _ => true
  | _ :: _, [] => false
  | x :: xs', y :: ys' =>
      if String.eqb x y then subsequence xs' ys' else subsequence xs ys'
  end.

(** A click that threw. *)
Definition failed (click : string * (thrown + unit)) : bool :=
  match snd click with
  | inl _ => true
  | inr _ => false
  end.

(** A banner whose Didomi button is covered, so that the click on it throws,
    and whose "Aceitar" button works. *)
Definition covered_button : thrown :=
  {| instanceofError := true; message := "locator.click: Timeout 30000ms exceeded." |}.

Definition banner_visible (w : unit) (selector : string) : bool * unit :=
  (String.eqb selector "#didomi-notice-agree-button"
   || includes selector "Aceitar", w).

Definition banner_click (w : unit) (selector : string) : (thrown + unit) * unit :=
  (if String.eqb selector "#didomi-notice-agree-button"
   then inl covered_button else inr tt, w).

End Spec.

(* ===================================================================== *)
(** * Properties *)
(* ===================================================================== *)
Import Js Parser Transformer Scraper Spec.

(** ** Strings *)

Lemma includes_prefix s t : String.prefix t s = true -> includes s t = true.
Proof. intros H. destruct s; cbn [includes]; rewrite H; reflexivity. Qed.

Lemma existsb_In_iff {A} (p : A -> bool) l :
  existsb p l = true <-> exists x, In x l /\ p x = true.
Proof. apply existsb_exists. Qed.

Lemma prefix_iff t s : String.prefix t s = true <-> exists rest, s = t ++ rest.
Proof.
  revert s. induction t as [| c t IH]; intros s.
  - split; [intros _; exists s; reflexivity | intros _; destruct s; reflexivity].
  - destruct s as [| d s]; simpl;
      [split; [discriminate | intros [rest H]; discriminate H] |].
    destruct (ascii_dec c d) as [<- | Hne].
    + rewrite IH. split; intros [rest H]; exists rest; [subst; reflexivity |].
      injection H as H. exact H.
    + split; [discriminate |]. intros [rest H]. injection H as H _. congruence.
Qed.

(** [includes] is the substring relation. *)
Lemma includes_iff s t :
  includes s t = true <-> exists before rest, s = before ++ t ++ rest.
Proof.
  induction s as [| c s IH]; cbn [includes]; rewrite orb_true_iff, prefix_iff.
  - split.
    + intros [[rest H] | H]; [exists "", rest; exact H | discriminate H].
    + intros (before & rest & H). left. destruct before; [| discriminate H].
      exists rest. exact H.
  - rewrite IH. split.
    + intros [[rest H] | (before & rest & H)].
      * exists "", rest. exact H.
      * exists (String c before), rest. rewrite H. reflexivity.
    + intros (before & rest & H). destruct before as [| b before].
      * left. exists rest. exact H.
      * right. injection H as _ H. exists before, rest. exact H.
Qed.

(** Splitting a string into characters loses nothing. *)
Lemma unchars_chars s : unchars (chars s) = s.
Proof.
  induction s as [| c s IH]; [reflexivity |]. cbn [chars].
  destruct (chars s) as [| h t]; cbn [unchars fold_right] in *.
  - rewrite <- IH. reflexivity.
  - destruct (starts_with_continuation h); cbn [unchars fold_right String.append];
      rewrite IH; reflexivity.
Qed.

(** Reading one more digit multiplies by ten and adds the digit. *)
Lemma parse_digits_snoc acc digits c :
  all_digits digits -> is_digit c = true ->
  parse_digits acc (digits ++ String c "") =
  10 * parse_digits acc digits + (Z.of_N (byte c) - 48).
Proof.
  revert acc. induction digits as [| d digits IH]; intros acc Hd Hc; simpl.
  - rewrite Hc. reflexivity.
  - rewrite (Hd d) by (left; reflexivity).
    apply IH; [| exact Hc]. intros x Hx. apply Hd. right. exact Hx.
Qed.

Example to_string_examples :
  to_string (VArr [VNum 1; VNull; VArr [VStr "a"; VBool true]; VNum (-2)])
  = Ok "1,,a,true,-2"
  /\ to_string (VObj [("a", VNum 1)]) = Ok "[object Object]"
  /\ to_string (VObj [("toString", VNum 1)]) = Throw TypeError
  /\ join ", " [VStr "Rua Augusta"; VNum 5; VStr "Lisboa"] = Ok "Rua Augusta, 5, Lisboa".
Proof. repeat split. Qed.

Example string_examples :
  toLowerCase "Sótão ÁTICO R/C" = "sótão ático r/c"
  /\ trim "  3º  andar " = "3º  andar"
  /\ replace_spaces ("T2  em" ++ String (ascii_of_N 10) " Lisboa") = "T2 em Lisboa"
  /\ match_digits "andar 12, porta 3" = Some "12"
  /\ parseInt10 "007" = 7
  /\ utf16_length "Sótão" = 5.
Proof. repeat split. Qed.

(** ** Amenities *)

Lemma flag_extractAmenities_with lower a features :
  flag a (extractAmenities_with lower features) =
  existsb (fun f => mentions f (terms_of a)) (map lower features).
Proof. destruct a; reflexivity. Qed.

Lemma flag_extractAmenities a features :
  flag a (extractAmenities features) =
  existsb (fun f => mentions f (terms_of a)) (map toLowerCase features).
Proof. apply flag_extractAmenities_with. Qed.

(** C3, the example as the specification states it: the labels
    ["Piscina privada"; "Garagem"] do not leave every flag but [has_pool] and
    [has_garage] unset, because "garagem" is a parking term as well. *)
Lemma C3_example_sets_parking_too :
  extractAmenities ["Piscina privada"; "Garagem"] <> pool_and_garage_only
  /\ has_parking (extractAmenities ["Piscina privada"; "Garagem"]) = true.
Proof. split; [discriminate | reflexivity]. Qed.

(** C3, amended: for the labels ["Piscina privada"; "Garagem"] the flags
    [has_pool], [has_garage] and [has_parking] are set and every other flag is
    unset; and for every list of labels each flag is set exactly when some
    lower-cased label contains some term of that amenity's list, each amenity
    on its own, whatever lower-casing the engine does ([lower]). *)
Theorem C3_amenity_inference :
  (forall a,
     flag a (extractAmenities ["Piscina privada"; "Garagem"]) = true
     <-> a = Pool \/ a = Garage \/ a = Parking)
  /\ (forall (lower : string -> string) a features,
        flag a (extractAmenities_with lower features) = true
        <-> exists label term,
              In label features /\ In term (terms_of a)
              /\ includes (lower label) term = true).
Proof.
  split.
  - intros a; split.
    + destruct a; vm_compute; intros H; try discriminate H; auto.
    + intros [-> | [-> | ->]]; reflexivity.
  - intros lower a features. rewrite flag_extractAmenities_with.
    rewrite existsb_In_iff. split.
    + intros (f & Hf & Hm). apply in_map_iff in Hf as (label & <- & Hl).
      apply existsb_In_iff in Hm as (term & Ht & Hi).
      exists label, term. auto.
    + intros (label & term & Hl & Ht & Hi).
      exists (lower label). split; [apply in_map; exact Hl |].
      apply existsb_In_iff. exists term. auto.
Qed.

(** C3 at a label in capitals that mentions a lift. *)
Lemma C3_amenity_inference_witness :
  flag Elevator (extractAmenities ["Prédio com ELEVADOR"]) = true.
Proof.
  destruct C3_amenity_inference as [_ H].
  apply (H toLowerCase Elevator ["Prédio com ELEVADOR"]).
  exists "Prédio com ELEVADOR", "elevador".
  repeat split; [left; reflexivity | right; left; reflexivity].
Defined.

(** ** Property kinds *)

Lemma first_match_found table text pre kind terms post :
  table = (pre ++ (kind, terms) :: post)%list ->
  mentions text terms = true ->
  (forall e, In e pre -> mentions text (snd e) = false) ->
  first_match table text = kind.
Proof.
  intros -> Hm. induction pre as [| [k ts] pre IH]; intros Hpre; simpl.
  - rewrite Hm. reflexivity.
  - pose proof (Hpre (k, ts) (or_introl eq_refl)) as E. simpl in E. rewrite E.
    apply IH. intros e He. apply Hpre. right. exact He.
Qed.

Lemma first_match_none table text :
  (forall e, In e table -> mentions text (snd e) = false) ->
  first_match table text = "other".
Proof.
  induction table as [| [k ts] table IH]; intros H; simpl; [reflexivity |].
  pose proof (H (k, ts) (or_introl eq_refl)) as E. simpl in E. rewrite E.
  apply IH. intros e He. apply H. right. exact He.
Qed.

Lemma first_match_inv table text :
  (exists pre terms post,
     table = (pre ++ (first_match table text, terms) :: post)%list
     /\ mentions text terms = true
     /\ forall e, In e pre -> mentions text (snd e) = false)
  \/ (first_match table text = "other"
      /\ forall e, In e table -> mentions text (snd e) = false).
Proof.
  induction table as [| [k ts] table IH]; simpl.
  - right. split; [reflexivity | intros e []].
  - destruct (mentions text ts) eqn:Hm.
    + left. exists [], ts, table. repeat split; auto. intros e [].
    + destruct IH as [(pre & terms & post & Ht & Hmt & Hpre) | [Ho Hall]].
      * left. exists ((k, ts) :: pre), terms, post. repeat split; auto.
        -- simpl. f_equal. exact Ht.
        -- intros e [<- | He]; [exact Hm | apply Hpre; exact He].
      * right. split; [exact Ho |].
        intros e [<- | He]; [exact Hm | apply Hall; exact He].
Qed.

(** The chain of tests in [mapPropertyType] is the table look-up. *)
Lemma mapPropertyType_with_table lower propertyType typology s :
  or_ (or_ propertyType typology) (VStr "") = VStr s ->
  mapPropertyType_with lower propertyType typology
  = Ok (first_match kind_table (lower s)).
Proof.
  intros H. unfold mapPropertyType_with. rewrite H. cbn [string_receiver bind].
  generalize (lower s) as t. intros t.
  cbn [first_match kind_table mentions existsb].
  repeat match goal with
         | |- context [includes t ?x] =>
             destruct (includes t x); cbn [orb]; try reflexivity
         end.
Qed.

Lemma mapPropertyType_table propertyType typology s :
  or_ (or_ propertyType typology) (VStr "") = VStr s ->
  mapPropertyType propertyType typology = Ok (first_match kind_table (toLowerCase s)).
Proof. apply mapPropertyType_with_table. Qed.

(** C4: property-kind inference is a case-insensitive substring match against
    the table apartment, villa, house, penthouse, duplex, studio, loft,
    office, commercial, garage, parking, building, land; the first kind in
    table order one of whose synonyms occurs in the lower-cased input is
    returned, and [other] is returned exactly when no kind matches.  The
    input is lower-cased by the engine ([lower]), whatever its case tables
    are. *)
Theorem C4_property_kind_first_match :
  map fst kind_table =
    ["apartment"; "villa"; "house"; "penthouse"; "duplex"; "studio"; "loft";
     "office"; "commercial"; "garage"; "parking"; "building"; "land"]
  /\ (forall (lower : string -> string) s,
        mapPropertyType_with lower (VStr s) VUndef
        = Ok (first_match kind_table (lower s))
        /\ mapPropertyType_with lower VUndef (VStr s)
           = Ok (first_match kind_table (lower s)))
  /\ (forall text kind,
        first_match kind_table text = kind
        <-> (exists pre terms post,
               kind_table = (pre ++ (kind, terms) :: post)%list
               /\ mentions text terms = true
               /\ forall e, In e pre -> mentions text (snd e) = false)
            \/ (kind = "other"
                /\ forall e, In e kind_table -> mentions text (snd e) = false))
  /\ (forall text,
        first_match kind_table text = "other"
        <-> forall kind terms,
              In (kind, terms) kind_table -> mentions text terms = false).
Proof.
  split; [reflexivity |]. split; [| split].
  - intros lower s. split; apply mapPropertyType_with_table; destruct s; reflexivity.
  - intros text kind. split.
    + intros <-. destruct (first_match_inv kind_table text) as [H | [H1 H2]].
      * left. exact H.
      * right. split; assumption.
    + intros [(pre & terms & post & Ht & Hm & Hpre) | [-> Hall]].
      * eapply first_match_found; eassumption.
      * apply first_match_none. exact Hall.
  - intros text. split.
    + intros Ho kind terms Hin.
      destruct (first_match_inv kind_table text)
        as [(pre & ts & post & Ht & Hm & Hpre) | [_ Hall]].
      * exfalso. rewrite Ho in Ht.
        assert (Hk : In "other" (map fst kind_table)).
        { rewrite Ht at 1. rewrite map_app. apply in_or_app. right. left. reflexivity. }
        cbn in Hk.
        repeat (destruct Hk as [Hk | Hk]; [discriminate Hk |]). exact Hk.
      * apply (Hall (kind, terms)). exact Hin.
    + intros H. apply first_match_none. intros [k ts] He. apply (H k ts). exact He.
Qed.

(** C4 at "Apartamento T2", which names a kind, and at "quinta", which names
    none. *)
Lemma C4_property_kind_first_match_witness :
  mapPropertyType (VStr "Apartamento T2") VUndef = Ok "apartment"
  /\ first_match kind_table "quinta" = "other".
Proof.
  destruct C4_property_kind_first_match as (_ & Hmap & _ & Hother).
  split.
  - unfold mapPropertyType.
    destruct (Hmap toLowerCase "Apartamento T2") as [-> _]. reflexivity.
  - apply Hother. intros kind terms Hin. cbn [kind_table In] in Hin.
    repeat (destruct Hin as [Hin | Hin];
            [injection Hin as <- <-; reflexivity |]).
    contradiction.
Defined.

(** The match does not depend on the case of the input, and a kind whose
    synonym occurs inside a later kind's synonym shadows it. *)
Example mapPropertyType_ignores_case :
  mapPropertyType (VStr "FLAT in Lisboa") VUndef = Ok "apartment"
  /\ mapPropertyType (VStr "Moradia") VUndef = Ok "villa"
  /\ mapPropertyType (VStr "ESCRITÓRIO") VUndef = Ok "office"
  /\ mapPropertyType (VStr "penthouse") VUndef = Ok "house"
  /\ mapPropertyType VUndef VUndef = Ok "other".
Proof. repeat split. Qed.

(** ** Floors *)

Lemma take_digits_run digits rest :
  all_digits digits -> starts_with_digit rest = false ->
  take_digits (digits ++ rest) = digits.
Proof.
  induction digits as [| c digits IH]; intros Hd Hr; simpl.
  - destruct rest as [| c rest]; simpl in *; [reflexivity | rewrite Hr; reflexivity].
  - rewrite (Hd c) by (left; reflexivity). f_equal.
    apply IH; [| exact Hr]. intros d Hin. apply Hd. right. exact Hin.
Qed.

(** [match_digits] finds the first maximal run of digits. *)
Lemma match_digits_first before c digits rest :
  no_digit before -> all_digits (String c digits) -> starts_with_digit rest = false ->
  match_digits (before ++ String c digits ++ rest) = Some (String c digits).
Proof.
  intros Hb Hd Hr. induction before as [| b before IH]; simpl.
  - rewrite (Hd c) by (left; reflexivity). f_equal. f_equal.
    apply take_digits_run; [| exact Hr]. intros d Hin. apply Hd. right. exact Hin.
  - rewrite (Hb b) by (left; reflexivity).
    apply IH. intros d Hin. apply Hb. right. exact Hin.
Qed.

Lemma match_digits_none s : match_digits s = None <-> no_digit s.
Proof.
  induction s as [| c s IH]; simpl.
  - split; [intros _ c [] | reflexivity].
  - destruct (is_digit c) eqn:E.
    + split; [discriminate |]. intros H.
      rewrite (H c) in E by (left; reflexivity). discriminate E.
    + rewrite IH. split.
      * intros H d [<- | Hin]; [exact E | apply H; exact Hin].
      * intros H d Hin. apply H. right. exact Hin.
Qed.

Lemma parseFloor_string s :
  s <> "" ->
  parseFloor (VStr s) =
  let cleaned := trim (toLowerCase s) in
  if mentions cleaned ground_terms then Ok (Some 0)
  else if mentions cleaned basement_terms then Ok (Some (-1))
  else if mentions cleaned attic_terms then Ok (Some 99)
  else Ok (option_map parseInt10 (match_digits cleaned)).
Proof.
  intros Hs. unfold parseFloor. cbn [truthy].
  destruct s as [| c s]; [congruence |]. cbn [String.eqb negb string_receiver bind].
  cbv zeta. generalize (trim (toLowerCase (String c s))) as t. intros t.
  cbn [mentions existsb ground_terms basement_terms attic_terms].
  repeat match goal with
         | |- context [includes t ?x] =>
             destruct (includes t x); cbn [orb]; try reflexivity
         end.
  destruct (match_digits t); reflexivity.
Qed.

(** C5: floor parsing maps "R/C" and the other ground-floor terms to 0,
    "Cave" and the other basement terms to -1, "Sótão" and the other attic
    terms to the sentinel 99, "3º andar" to 3 (its first embedded integer),
    and the empty or absent string to no value.  The embedded integer is the
    one the digits spell as long as a double holds it exactly. *)
Theorem C5_floor_parsing :
  parseFloor (VStr "R/C") = Ok (Some 0)
  /\ parseFloor (VStr "Cave") = Ok (Some (-1))
  /\ parseFloor (VStr "Sótão") = Ok (Some 99)
  /\ parseFloor (VStr "3º andar") = Ok (Some 3)
  /\ parseFloor (VStr "") = Ok None
  /\ parseFloor VUndef = Ok None
  /\ parseFloor VNull = Ok None
  /\ (forall s, s <> "" ->
        let cleaned := trim (toLowerCase s) in
        (mentions cleaned ground_terms = true ->
           parseFloor (VStr s) = Ok (Some 0))
        /\ (mentions cleaned ground_terms = false ->
            mentions cleaned basement_terms = true ->
              parseFloor (VStr s) = Ok (Some (-1)))
        /\ (mentions cleaned ground_terms = false ->
            mentions cleaned basement_terms = false ->
            mentions cleaned attic_terms = true ->
              parseFloor (VStr s) = Ok (Some 99))
        /\ (mentions cleaned ground_terms = false ->
            mentions cleaned basement_terms = false ->
            mentions cleaned attic_terms = false ->
            forall before digits rest,
              cleaned = before ++ digits ++ rest ->
              no_digit before -> digits <> "" -> all_digits digits ->
              starts_with_digit rest = false ->
              double_exact (parseInt10 digits) ->
              parseFloor (VStr s) = Ok (Some (parseInt10 digits)))
        /\ (mentions cleaned ground_terms = false ->
            mentions cleaned basement_terms = false ->
            mentions cleaned attic_terms = false ->
            no_digit cleaned ->
              parseFloor (VStr s) = Ok None)).
Proof.
  do 7 (split; [reflexivity |]).
  intros s Hs cleaned. rewrite (parseFloor_string s Hs). fold cleaned. cbv zeta.
  repeat split.
  - intros ->. reflexivity.
  - intros -> ->. reflexivity.
  - intros -> -> ->. reflexivity.
  - intros -> -> -> before digits rest Hc Hb Hne Hd Hr _.
    destruct digits as [| c digits]; [congruence |].
    rewrite Hc, (match_digits_first before c digits rest Hb Hd Hr). reflexivity.
  - intros -> -> -> Hn. apply match_digits_none in Hn. rewrite Hn. reflexivity.
Qed.

(** The general rules of C5 at "2º Dto, porta 14": no term occurs, the first
    run of digits is "2". *)
Lemma C5_floor_parsing_witness :
  parseFloor (VStr "2º Dto, porta 14") = Ok (Some 2).
Proof.
  destruct C5_floor_parsing as (_ & _ & _ & _ & _ & _ & _ & H).
  pose proof (H "2º Dto, porta 14" ltac:(discriminate)) as H'.
  cbv zeta in H'. destruct H' as (_ & _ & _ & Hd & _).
  apply (Hd eq_refl eq_refl eq_refl "" "2" "º dto, porta 14").
  - reflexivity.
  - intros c [].
  - discriminate.
  - intros c [<- | []]. reflexivity.
  - reflexivity.
  - unfold double_exact. vm_compute. discriminate.
Defined.

Example parseFloor_more :
  parseFloor (VStr "Rés-do-chão") = Ok (Some 0)
  /\ parseFloor (VStr "Térreo") = Ok (Some 0)
  /\ parseFloor (VStr "SUBSOLO 2") = Ok (Some (-1))
  /\ parseFloor (VStr "Ático") = Ok (Some 99)
  /\ parseFloor (VStr "andar 12, porta 3") = Ok (Some 12)
  /\ parseFloor (VStr "7") = Ok (Some 7)
  /\ parseFloor (VStr "último") = Ok None
  /\ parseFloor (VNum 3) = Throw TypeError.
Proof. repeat split. Qed.

(** ** Reading raw items *)

Lemma get_ok v k : nullish v = false -> get v k = Ok (read v k).
Proof. unfold get. intros ->. reflexivity. Qed.

Lemma get_throw v k : nullish v = true -> get v k = Throw TypeError.
Proof. unfold get. intros ->. reflexivity. Qed.

Lemma or_else_value a b : or_else a (Ok b) = Ok (or_ a b).
Proof. unfold or_else, or_. destruct (truthy a); reflexivity. Qed.

Lemma truthy_or_ a b : truthy (or_ a b) = truthy a || truthy b.
Proof. unfold or_. destruct (truthy a) eqn:E; [rewrite E |]; reflexivity. Qed.

(** ** Pages *)

Lemma non_null_map_items tick i items location :
  non_null (map_items tick i items location) = successes tick i items location.
Proof.
  revert i. induction items as [| item rest IH]; intros i; simpl; [reflexivity |].
  unfold parsed. destruct (parsePropertyItem (tick i) item location); simpl;
    rewrite IH; reflexivity.
Qed.

Lemma successes_app tick i pre post location :
  successes tick i (pre ++ post) location =
  (successes tick i pre location
   ++ successes tick (i + List.length pre) post location)%list.
Proof.
  revert i. induction pre as [| item pre IH]; intros i; simpl.
  - rewrite Nat.add_0_r. reflexivity.
  - rewrite IH, <- app_assoc, Nat.add_succ_r. reflexivity.
Qed.

Lemma successes_In tick i items location n item p :
  nth_error items n = Some item ->
  parsePropertyItem (tick (i + n)%nat) item location = Ok p ->
  In p (successes tick i items location).
Proof.
  revert i n. induction items as [| x rest IH]; intros i n Hn Hp.
  - destruct n; discriminate Hn.
  - simpl. apply in_or_app. destruct n as [| n]; simpl in Hn.
    + left. injection Hn as ->. rewrite Nat.add_0_r in Hp.
      unfold parsed. rewrite Hp. left. reflexivity.
    + right. apply (IH (S i) n Hn). rewrite Nat.add_succ_comm. exact Hp.
Qed.

Lemma parseNextData_cases tick nextData location :
  parseNextData tick nextData location =
  match opt_get (searchData_of nextData) "elementList" with
  | VArr items => successes tick 0 items location
  | _ => []
  end.
Proof.
  unfold parseNextData, parseNextData_try.
  destruct (opt_get (searchData_of nextData) "elementList") as
    [| | b | n | s | items | props]; try reflexivity.
  - destruct b; reflexivity.
  - unfold or_. cbn [truthy]. destruct (negb (n =? 0)); reflexivity.
  - unfold or_. cbn [truthy]. destruct (negb (String.eqb s "")); [| reflexivity].
    cbn [get nullish bind]. destruct (is_zero (read (VStr s) "length")); reflexivity.
  - unfold or_. cbn [truthy get nullish bind read String.eqb Ascii.eqb Bool.eqb].
    destruct items as [| item rest]; [reflexivity |].
    cbn [List.length Z.of_nat is_zero array_receiver bind try_catch].
    apply non_null_map_items.
  - unfold or_. cbn [truthy get nullish bind].
    destruct (is_zero (read (VObj props) "length")); reflexivity.
Qed.

Lemma searchData_of_page_with items :
  opt_get (searchData_of (page_with items)) "elementList" = VArr items.
Proof. reflexivity. Qed.

(** C10: page parsing never throws and isolates faults per item.  Whatever the
    embedded state is, [parseNextData] returns a list: the records of the
    items that parse, in page order, when the state holds an item list, and
    the empty list otherwise.  An item whose parsing throws is dropped alone:
    the records of the items before and after it are returned, and every item
    that parses has its record in the result. *)
Theorem C10_page_parsing_fault_isolated :
  forall tick nextData location,
    parseNextData tick nextData location =
      match opt_get (searchData_of nextData) "elementList" with
      | VArr items => successes tick 0 items location
      | _ => []
      end
    /\ (forall items, parseNextData_try tick nextData location = Ok items ->
          parseNextData tick nextData location = items)
    /\ (forall e, parseNextData_try tick nextData location = Throw e ->
          parseNextData tick nextData location = [])
    /\ (forall before bad after e,
          parsePropertyItem (tick (List.length before)) bad location = Throw e ->
          parseNextData tick (page_with (before ++ bad :: after)) location =
            (successes tick 0 before location
             ++ successes tick (S (List.length before)) after location)%list)
    /\ (forall items n item p,
          nth_error items n = Some item ->
          parsePropertyItem (tick n) item location = Ok p ->
          In p (parseNextData tick (page_with items) location)).
Proof.
  intros tick nextData location. split; [apply parseNextData_cases |].
  split; [| split; [| split]].
  - unfold parseNextData. intros items ->. reflexivity.
  - unfold parseNextData. intros e ->. reflexivity.
  - intros before bad after e Hbad.
    rewrite parseNextData_cases, searchData_of_page_with, successes_app.
    cbn [successes]. unfold parsed. rewrite Nat.add_0_l, Hbad. reflexivity.
  - intros items n item p Hn Hp.
    rewrite parseNextData_cases, searchData_of_page_with.
    apply (successes_In tick 0%nat items location n item p Hn Hp).
Qed.

(** C10 on a page of four items of which the second is [null] and the third
    has a numeric floor: the first and the fourth come back. *)
Lemma C10_page_parsing_fault_isolated_witness :
  parseNextData (fun _ => noon)
    (page_with [flat_in_lisboa; VNull; numeric_floor_item; empty_item]) "lisboa"
  = (parsed noon flat_in_lisboa "lisboa" ++ parsed noon empty_item "lisboa")%list
  /\ List.length
       (parseNextData (fun _ => noon)
          (page_with [flat_in_lisboa; VNull; numeric_floor_item; empty_item])
          "lisboa") = 2%nat
  /\ parseNextData (fun _ => noon) (VStr "<html>") "lisboa" = []
  /\ parseNextData (fun _ => noon) VNull "lisboa" = []
  /\ parseNextData (fun _ => noon)
       (VObj [("props", VObj [("pageProps", VObj [("searchData",
          VObj [("elementList", VNum 7)])])])]) "lisboa" = [].
Proof.
  destruct (C10_page_parsing_fault_isolated (fun _ => noon)
              (page_with [flat_in_lisboa; VNull; numeric_floor_item; empty_item])
              "lisboa") as (_ & _ & _ & Hdrop & _).
  pose proof (Hdrop [flat_in_lisboa] VNull [numeric_floor_item; empty_item]
                TypeError eq_refl) as H.
  split; [| split; [| repeat split]].
  - exact H.
  - reflexivity.
Defined.

(** ** Items that conform to the interface *)

Lemma has_type_object fields props :
  has_type (TObject fields) (VObj props) =
  forallb (fun '(k, tk) =>
             match lookup k props with
             | Some x => nullish x || has_type tk x
             | None => true
             end) fields.
Proof.
  induction fields as [| [k tk] fields IH]; [reflexivity |].
  cbn [forallb]. rewrite <- IH. reflexivity.
Qed.

Lemma optional_field fields v k t :
  optional (TObject fields) v = true -> In (k, t) fields ->
  optional t (opt_get v k) = true.
Proof.
  unfold optional, opt_get. intros H Hin.
  destruct (nullish v) eqn:Hn; [reflexivity |]. cbn [orb] in H.
  destruct v; try discriminate H. rewrite has_type_object in H.
  rewrite forallb_forall in H. specialize (H (k, t) Hin). cbn in H.
  unfold read. destruct (lookup k props); [exact H | reflexivity].
Qed.

Lemma conforms_object item :
  conforms item = true -> exists props, item = VObj props.
Proof.
  unfold conforms, IdealistaPropertyItem. destruct item; try discriminate.
  intros _. eexists. reflexivity.
Qed.

Lemma conforms_field props k t :
  conforms (VObj props) = true -> In (k, t) (interface_fields IdealistaPropertyItem) ->
  optional t (read (VObj props) k) = true.
Proof.
  intros Hc Hin.
  apply (optional_field (interface_fields IdealistaPropertyItem) (VObj props) k t);
    [| exact Hin].
  unfold optional. rewrite orb_true_iff. right. exact Hc.
Qed.

Lemma optional_or_ t a b :
  optional t a = true -> optional t b = true -> optional t (or_ a b) = true.
Proof. unfold or_. destruct (truthy a); auto. Qed.

Lemma optional_string_truthy v :
  optional TString v = true -> truthy v = true ->
  exists s, v = VStr s /\ s <> "".
Proof.
  destruct v; try discriminate. intros _ H. exists s. split; [reflexivity |].
  intros ->. discriminate H.
Qed.

Lemma optional_string_default v :
  optional TString v = true -> exists s, or_ v (VStr "") = VStr s.
Proof.
  destruct v; try discriminate; intros _; unfold or_; cbn [truthy].
  - exists "". reflexivity.
  - exists "". reflexivity.
  - destruct (negb (String.eqb s "")); eexists; reflexivity.
Qed.

Lemma mapPropertyType_ok p t :
  optional TString p = true -> optional TString t = true ->
  exists kind, mapPropertyType p t = Ok kind.
Proof.
  intros Hp Ht.
  destruct (optional_string_default (or_ p t) (optional_or_ _ _ _ Hp Ht)) as [s Hs].
  rewrite (mapPropertyType_table p t s Hs). eexists. reflexivity.
Qed.

Lemma mapTransactionType_ok op :
  optional TString op = true -> exists kind, mapTransactionType op = Ok kind.
Proof.
  intros Ho. destruct (optional_string_default op Ho) as [s Hs].
  unfold mapTransactionType. rewrite Hs. cbn [string_receiver bind].
  repeat match goal with
         | |- context [if ?b then _ else _] => destruct b
         end; eexists; reflexivity.
Qed.

Lemma cleanText_ok t :
  optional TString t = true -> exists r, cleanText t = Ok r.
Proof.
  intros Ht. unfold cleanText. destruct (truthy t) eqn:E; cbn [negb].
  - destruct (optional_string_truthy t Ht E) as (s & -> & _).
    eexists. reflexivity.
  - eexists. reflexivity.
Qed.

Lemma parseFloor_ok f :
  optional TString f = true -> exists r, parseFloor f = Ok r.
Proof.
  intros Hf. destruct (truthy f) eqn:E.
  - destruct (optional_string_truthy f Hf E) as (s & -> & Hs).
    rewrite (parseFloor_string s Hs). cbv zeta.
    repeat match goal with
           | |- context [if ?b then _ else _] => destruct b
           end; eexists; reflexivity.
  - unfold parseFloor. rewrite E. eexists. reflexivity.
Qed.

Lemma buildPropertyUrl_ok code u :
  optional TString code = true -> optional TString u = true ->
  exists r, buildPropertyUrl code u = Ok r.
Proof.
  intros Hc Hu. unfold buildPropertyUrl.
  assert (Hearly : exists early,
             (if truthy u
              then
                u0 <- string_receiver u ;;
                if startsWith u0 "/" then Ok (Some (BASE_URL ++ u0))
                else if startsWith u0 "http" then Ok (Some u0) else Ok None
              else Ok None) = Ok early).
  { destruct (truthy u) eqn:E; [| eexists; reflexivity].
    destruct (optional_string_truthy u Hu E) as (s & -> & _).
    cbn [string_receiver bind].
    destruct (startsWith s "/"); [eexists; reflexivity |].
    destruct (startsWith s "http"); eexists; reflexivity. }
  destruct Hearly as [early ->]. cbn [bind].
  destruct early; [eexists; reflexivity |].
  destruct (truthy code) eqn:E; [| eexists; reflexivity].
  destruct (optional_string_truthy code Hc E) as (s & -> & _).
  eexists. reflexivity.
Qed.

Lemma join_strings_ok sep l :
  Forall (fun v => optional TString v = true /\ truthy v = true) l ->
  exists r, join sep l = Ok r.
Proof.
  induction l as [| x rest IH]; intros H; [eexists; reflexivity |].
  inversion H as [| ? ? [Hx Tx] Hrest]; subst.
  destruct (optional_string_truthy x Hx Tx) as (s & -> & _).
  cbn [join nullish to_string bind].
  destruct rest as [| y rest]; [eexists; reflexivity |].
  destruct (IH Hrest) as [r ->]. eexists. reflexivity.
Qed.

Lemma filter_truthy_strings l :
  Forall (fun v => optional TString v = true) l ->
  Forall (fun v => optional TString v = true /\ truthy v = true) (filter truthy l).
Proof.
  induction 1 as [| x rest Hx _ IH]; simpl; [constructor |].
  destruct (truthy x) eqn:E; [constructor; auto | exact IH].
Qed.

Lemma push_if_ok item k name features :
  nullish item = false -> exists r, push_if item k name features = Ok r.
Proof.
  intros Hn. unfold push_if. rewrite (get_ok item k Hn). eexists. reflexivity.
Qed.

Lemma push_labels_ok lower labels features :
  forallb (has_type label_type) labels = true ->
  exists r, push_labels lower labels features = Ok r.
Proof.
  revert features. induction labels as [| label rest IH]; intros features H.
  - eexists. reflexivity.
  - cbn [forallb] in H. apply andb_true_iff in H as [Hl Hrest].
    assert (Ho : optional label_type label = true).
    { unfold optional. rewrite Hl. apply orb_true_r. }
    assert (Hn : nullish label = false) by (destruct label; try discriminate Hl; reflexivity).
    pose proof (optional_field _ label "text" TString Ho
                  ltac:(right; left; reflexivity)) as Ht.
    unfold opt_get in Ht. rewrite Hn in Ht.
    cbn [push_labels]. rewrite (get_ok label "text" Hn). cbn [bind].
    destruct (truthy (read label "text")) eqn:E.
    + destruct (optional_string_truthy _ Ht E) as (s & -> & _).
      cbn [string_receiver bind]. apply IH. exact Hrest.
    + cbn [bind]. apply IH. exact Hrest.
Qed.

Lemma extractFeatures_ok item :
  nullish item = false ->
  optional (TArray label_type) (read item "labels") = true ->
  exists r, extractFeatures item = Ok r.
Proof.
  intros Hn Hl. unfold extractFeatures, extractFeatures_with. cbn [bind].
  repeat match goal with
         | |- context [push_if item ?k ?name ?fs] =>
             let r := fresh "fs" in
             destruct (push_if_ok item k name fs Hn) as [r ->]; cbn [bind]
         end.
  rewrite (get_ok item "labels" Hn). cbn [bind].
  destruct (truthy (read item "labels")) eqn:E; [| eexists; reflexivity].
  destruct (read item "labels") as [| | | | | ls |]; try discriminate.
  cbn [array_receiver bind]. apply push_labels_ok. exact Hl.
Qed.

(** ** One item *)

Ltac bind_inversion H :=
  repeat match type of H with
         | bind ?m _ = Ok _ =>
             let E := fresh "E" in
             destruct m eqn:E; cbn [bind] in H |- *; [| discriminate H]
         end.

Lemma parsePropertyItem_nullish c item location :
  nullish item = true -> parsePropertyItem c item location = Throw TypeError.
Proof.
  intros Hn. unfold parsePropertyItem. rewrite (get_throw item "price" Hn).
  reflexivity.
Qed.

Lemma or_left a b : truthy a = true -> or_ a b = a.
Proof. unfold or_. intros ->. reflexivity. Qed.

Lemma or_right a b : truthy a = false -> or_ a b = b.
Proof. unfold or_. intros ->. reflexivity. Qed.

Lemma or_assoc a b c : or_ (or_ a b) c = or_ a (or_ b c).
Proof.
  unfold or_. destruct (truthy a) eqn:Ea; [rewrite Ea; reflexivity |].
  reflexivity.
Qed.

(** What a record owes to the clock, and its price. *)
Lemma parsePropertyItem_fields c item location p :
  parsePropertyItem c item location = Ok p ->
  nullish item = false
  /\ id p = or_ (read item "propertyCode")
              (or_ (read item "externalReference") (synthesized_id c))
  /\ price p = or_ (upstream_price item) (VNum 0)
  /\ scrapedAt p = isoString c.
Proof.
  intros H. destruct (nullish item) eqn:Hn.
  - rewrite (parsePropertyItem_nullish c item location Hn) in H. discriminate H.
  - split; [reflexivity |]. unfold parsePropertyItem in H.
    rewrite !get_ok in H by exact Hn. cbn [bind] in H.
    rewrite !or_else_value in H. cbn [bind] in H.
    bind_inversion H. injection H as <-. cbn [id price scrapedAt].
    unfold upstream_price. rewrite or_assoc. auto.
Qed.

(** The clock only enters the identifier and the capture timestamp. *)
Lemma parsePropertyItem_clock c1 c2 item location p1 :
  parsePropertyItem c1 item location = Ok p1 ->
  parsePropertyItem c2 item location =
  Ok (restamp (or_ (read item "propertyCode")
                 (or_ (read item "externalReference") (synthesized_id c2)))
        (isoString c2) p1).
Proof.
  intros H. destruct (nullish item) eqn:Hn.
  - rewrite (parsePropertyItem_nullish c1 item location Hn) in H. discriminate H.
  - unfold parsePropertyItem in H |- *.
    rewrite !get_ok in H |- * by exact Hn. cbn [bind] in H |- *.
    rewrite !or_else_value in H |- *. cbn [bind] in H |- *.
    bind_inversion H. injection H as <-. reflexivity.
Qed.

Ltac split_conditionals :=
  repeat match goal with
         | |- context [bind (if ?b then _ else _) _] => destruct b; cbn [bind]
         end.

Ltac finish_item Hfloor Hn Hlabels Hdescription Hsub :=
  split_conditionals;
  (let fl := fresh "fl" in
   destruct (parseFloor_ok _ Hfloor) as [fl ->]; cbn [bind]);
  (let fs := fresh "fs" in
   destruct (extractFeatures_ok _ Hn Hlabels) as [fs ->]; cbn [bind]);
  split_conditionals;
  match goal with
  | |- context [cleanText ?t] =>
      let d := fresh "d" in
      destruct (cleanText_ok t) as [d ->];
        [apply optional_or_; assumption |]
  end;
  cbn [bind]; eexists; reflexivity.

(** Parsing succeeds on every item of the interface. *)
Lemma parsePropertyItem_total c item location :
  conforms item = true -> exists p, parsePropertyItem c item location = Ok p.
Proof.
  intros Hc. destruct (conforms_object item Hc) as [props ->].
  assert (F : forall k t, In (k, t) (interface_fields IdealistaPropertyItem) ->
                optional t (read (VObj props) k) = true)
    by (intros k t; apply conforms_field; exact Hc).
  assert (Str : forall k, In (k, TString) (interface_fields IdealistaPropertyItem) ->
                  optional TString (read (VObj props) k) = true)
    by (intros k; apply F).
  assert (Hn : nullish (VObj props) = false) by reflexivity.
  pose proof (F "detailedType" detailedType_type ltac:(cbn; tauto)) as Hdt.
  pose proof (F "suggestedTexts" suggestedTexts_type ltac:(cbn; tauto)) as Hst.
  pose proof (F "labels" (TArray label_type) ltac:(cbn; tauto)) as Hlabels.
  pose proof (optional_field _ _ "typology" TString Hdt ltac:(cbn; tauto)) as Hty.
  pose proof (optional_field _ _ "title" TString Hst ltac:(cbn; tauto)) as Htitle.
  pose proof (optional_field _ _ "subtitle" TString Hst ltac:(cbn; tauto)) as Hsub.
  pose proof (Str "propertyType" ltac:(cbn; tauto)) as HpropertyType.
  pose proof (Str "detailedType_typology" ltac:(cbn; tauto)) as Htypology2.
  pose proof (Str "operation" ltac:(cbn; tauto)) as Hoperation.
  pose proof (Str "address" ltac:(cbn; tauto)) as Haddress.
  pose proof (Str "neighborhood" ltac:(cbn; tauto)) as Hneighborhood.
  pose proof (Str "district" ltac:(cbn; tauto)) as Hdistrict.
  pose proof (Str "municipality" ltac:(cbn; tauto)) as Hmunicipality.
  pose proof (Str "propertyCode" ltac:(cbn; tauto)) as HpropertyCode.
  pose proof (Str "url" ltac:(cbn; tauto)) as Hurl.
  pose proof (Str "description" ltac:(cbn; tauto)) as Hdescription.
  pose proof (Str "floor" ltac:(cbn; tauto)) as Hfloor.
  unfold parsePropertyItem.
  rewrite !get_ok by exact Hn. cbn [bind].
  rewrite !or_else_value. cbn [bind].
  match goal with
  | |- context [mapPropertyType ?a ?b] =>
      destruct (mapPropertyType_ok a b) as [kind ->];
        [exact HpropertyType | apply optional_or_; assumption |]
  end.
  cbn [bind].
  destruct (mapTransactionType_ok _ Hoperation) as [tx ->]. cbn [bind].
  destruct (buildPropertyUrl_ok _ _ HpropertyCode Hurl) as [u ->]. cbn [bind].
  match goal with
  | |- context [cleanText ?t] =>
      destruct (cleanText_ok t) as [title_ ->];
        [apply optional_or_; assumption |]
  end.
  cbn [bind].
  match goal with
  | |- context [filter truthy ?l] =>
      assert (Hparts : Forall (fun v => optional TString v = true /\ truthy v = true)
                         (filter truthy l))
        by (apply filter_truthy_strings; repeat constructor; assumption);
      destruct (join_strings_ok ", " _ Hparts) as [joined Hjoined];
      destruct (filter truthy l) eqn:Eparts
  end.
  - cbn [bind]. finish_item Hfloor Hn Hlabels Hdescription Hsub.
  - rewrite Hjoined. cbn [bind]. finish_item Hfloor Hn Hlabels Hdescription Hsub.
Qed.

Lemma conforming_id_is_string c props :
  conforms (VObj props) = true ->
  exists s,
    or_ (read (VObj props) "propertyCode")
      (or_ (read (VObj props) "externalReference") (synthesized_id c)) = VStr s
    /\ s <> "".
Proof.
  intros Hc.
  pose proof (conforms_field props "propertyCode" TString Hc ltac:(cbn; tauto)) as H1.
  pose proof (conforms_field props "externalReference" TString Hc ltac:(cbn; tauto)) as H2.
  apply optional_string_truthy.
  - repeat apply optional_or_; auto.
  - rewrite !truthy_or_. rewrite !orb_true_iff. right. right. reflexivity.
Qed.

Lemma conforming_upstream_price props :
  conforms (VObj props) = true ->
  optional TNumber (upstream_price (VObj props)) = true.
Proof.
  intros Hc. unfold upstream_price. apply optional_or_.
  - apply (conforms_field props "price" TNumber Hc). cbn; tauto.
  - pose proof (conforms_field props "priceInfo" _ Hc
                  ltac:(do 29 right; left; reflexivity)) as Hinfo.
    pose proof (optional_field _ _ "price" _ Hinfo ltac:(left; reflexivity)) as Hprice.
    apply (optional_field _ _ "amount" TNumber Hprice). left. reflexivity.
Qed.

(** C1, as the specification states it, fails on an item whose upstream price
    is negative: the record keeps the negative price. *)
Lemma C1_negative_price_is_kept :
  conforms negative_price_item = true
  /\ exists p,
       parsePropertyItem noon negative_price_item "lisboa" = Ok p
       /\ price p = VNum (-5).
Proof. split; [reflexivity |]. eexists. split; reflexivity. Qed.

(** C1, amended: for every raw item, however incomplete, a record is produced
    and its identifier is a non-empty string; its price is the upstream price
    ([price], else [priceInfo.price.amount]) when that is present and not
    zero, and 0 otherwise, so it is at least 0 whenever the upstream price is
    not negative. *)
Theorem C1_identifier_nonempty_price_defaults_to_zero :
  forall c item location,
    conforms item = true ->
    exists p,
      parsePropertyItem c item location = Ok p
      /\ (exists s, id p = VStr s /\ s <> "")
      /\ (exists n,
            price p = VNum n
            /\ (truthy (upstream_price item) = false -> n = 0)
            /\ (truthy (upstream_price item) = true -> upstream_price item = VNum n)
            /\ ((forall m, upstream_price item = VNum m -> 0 <= m) -> 0 <= n)).
Proof.
  intros c item location Hc.
  destruct (parsePropertyItem_total c item location Hc) as [p Hp].
  destruct (parsePropertyItem_fields c item location p Hp) as (_ & Hid & Hprice & _).
  destruct (conforms_object item Hc) as [props ->].
  exists p. split; [exact Hp |]. split.
  - rewrite Hid. apply conforming_id_is_string. exact Hc.
  - pose proof (conforming_upstream_price props Hc) as Hup.
    rewrite Hprice. unfold or_.
    destruct (truthy (upstream_price (VObj props))) eqn:E.
    + destruct (upstream_price (VObj props)) as [| | | n | | |]; try discriminate.
      exists n. repeat split; auto. discriminate.
    + exists 0. repeat split; auto; [discriminate | lia].
Qed.

(** C1 at the item with no field at all. *)
Lemma C1_identifier_nonempty_price_defaults_to_zero_witness :
  exists p,
    parsePropertyItem noon empty_item "lisboa" = Ok p
    /\ (exists s, id p = VStr s /\ s <> "")
    /\ (exists n,
          price p = VNum n
          /\ (truthy (upstream_price empty_item) = false -> n = 0)
          /\ (truthy (upstream_price empty_item) = true -> upstream_price empty_item = VNum n)
          /\ ((forall m, upstream_price empty_item = VNum m -> 0 <= m) -> 0 <= n)).
Proof.
  exact (C1_identifier_nonempty_price_defaults_to_zero noon empty_item "lisboa" eq_refl).
Defined.

(** Whatever the item, a record that is produced has a truthy identifier and
    the price just described. *)
Lemma produced_record_id_and_price c item location p :
  parsePropertyItem c item location = Ok p ->
  truthy (id p) = true /\ price p = or_ (upstream_price item) (VNum 0).
Proof.
  intros H. destruct (parsePropertyItem_fields c item location p H) as (_ & Hid & Hp & _).
  split; [| exact Hp]. rewrite Hid, !truthy_or_, !orb_true_iff. right. right.
  reflexivity.
Qed.

Example empty_item_record :
  parsePropertyItem noon empty_item "lisboa" =
  Ok {| id := VStr "idealista-1730030400000";
        source := "idealista_portugal";
        url := "https://www.idealista.pt";
        title := "Property in Portugal";
        price := VNum 0;
        currency := "EUR";
        propertyType := "other";
        transactionType := "sale";
        location := {| address := None; city := VStr "lisboa"; region := VUndef;
                       country := "Portugal"; coordinates := None |};
        details := {| bedrooms := VUndef; bathrooms := VUndef; sqm := VUndef;
                      floor := None; rooms := VUndef |};
        features := [];
        images := [];
        description := None;
        scrapedAt := "2024-10-27T12:00:00.000Z" |}.
Proof. reflexivity. Qed.

Example flat_in_lisboa_record :
  parsePropertyItem noon flat_in_lisboa "porto" =
  Ok {| id := VStr "33445566";
        source := "idealista_portugal";
        url := "https://www.idealista.pt/imovel/33445566/";
        title := "Property in Portugal";
        price := VNum 250000;
        currency := "EUR";
        propertyType := "apartment";
        transactionType := "sale";
        location := {| address := Some "Lisboa"; city := VStr "Lisboa";
                       region := VUndef; country := "Portugal";
                       coordinates := None |};
        details := {| bedrooms := VUndef; bathrooms := VUndef; sqm := VUndef;
                      floor := Some 3; rooms := VUndef |};
        features := ["piscina privada"];
        images := [];
        description := None;
        scrapedAt := "2024-10-27T12:00:00.000Z" |}.
Proof. reflexivity. Qed.

(** C2, as the specification states it, fails: two applications to the same
    item at different times give different records (the synthesized
    identifier and the capture timestamp are read from the clock). *)
Lemma C2_same_input_different_records :
  parsePropertyItem noon empty_item "lisboa"
  <> parsePropertyItem midnight empty_item "lisboa".
Proof. vm_compute. discriminate. Qed.

(** C2, amended: the normalizer is total, it never fails on a raw item, and
    it is deterministic up to the clock: two applications to the same item
    and location give records that agree on every field but the capture
    timestamp, which is the clock reading of each application, and the
    identifier when it is synthesized (no [propertyCode] and no
    [externalReference]); under equal clock readings the two records are
    equal. *)
Theorem C2_normalize_total_and_deterministic_up_to_clock :
  forall item location,
    conforms item = true ->
    forall c1 c2,
    exists p1 p2,
      parsePropertyItem c1 item location = Ok p1
      /\ parsePropertyItem c2 item location = Ok p2
      /\ p2 = restamp (id p2) (scrapedAt p2) p1
      /\ scrapedAt p1 = isoString c1
      /\ scrapedAt p2 = isoString c2
      /\ (truthy (or_ (read item "propertyCode") (read item "externalReference"))
          = true -> id p1 = id p2)
      /\ (truthy (or_ (read item "propertyCode") (read item "externalReference"))
          = false -> id p1 = synthesized_id c1 /\ id p2 = synthesized_id c2)
      /\ (dateNow c1 = dateNow c2 -> isoString c1 = isoString c2 -> p1 = p2).
Proof.
  intros item location Hc c1 c2.
  destruct (parsePropertyItem_total c1 item location Hc) as [p1 H1].
  pose proof (parsePropertyItem_clock c1 c2 item location p1 H1) as H2.
  destruct (parsePropertyItem_fields c1 item location p1 H1) as (_ & Hid1 & _ & Hat1).
  eexists p1, _. split; [exact H1 |]. split; [exact H2 |].
  cbn [id scrapedAt restamp].
  split; [reflexivity |]. split; [exact Hat1 |]. split; [reflexivity |].
  rewrite Hid1, <- !or_assoc.
  split; [| split].
  - intros E. rewrite !(or_left _ _ E). reflexivity.
  - intros E. rewrite !(or_right _ _ E). split; reflexivity.
  - intros Hd Hi. unfold synthesized_id. rewrite <- Hd, <- Hi, <- Hat1.
    fold (synthesized_id c1). rewrite or_assoc, <- Hid1.
    destruct p1. reflexivity.
Qed.

(** C2 at the item with no field, at noon and at midnight. *)
Lemma C2_normalize_total_and_deterministic_up_to_clock_witness :
  exists p1 p2,
    parsePropertyItem noon empty_item "lisboa" = Ok p1
    /\ parsePropertyItem midnight empty_item "lisboa" = Ok p2
    /\ p2 = restamp (id p2) (scrapedAt p2) p1
    /\ scrapedAt p1 = isoString noon
    /\ scrapedAt p2 = isoString midnight
    /\ (truthy (or_ (read empty_item "propertyCode")
                  (read empty_item "externalReference")) = true -> id p1 = id p2)
    /\ (truthy (or_ (read empty_item "propertyCode")
                  (read empty_item "externalReference")) = false ->
        id p1 = synthesized_id noon /\ id p2 = synthesized_id midnight)
    /\ (dateNow noon = dateNow midnight -> isoString noon = isoString midnight ->
        p1 = p2).
Proof.
  exact (C2_normalize_total_and_deterministic_up_to_clock
           empty_item "lisboa" eq_refl noon midnight).
Defined.

(** ** Embedded state *)

Lemma extractNextData_cases select parse html :
  extractNextData select parse html =
  match select html with
  | Throw _ => (["[idealista] Failed to extract __NEXT_DATA__:"], VNull)
  | Ok [] => (["[idealista] __NEXT_DATA__ script tag not found"], VNull)
  | Ok (jsonText :: _) =>
      if String.eqb jsonText ""
      then (["[idealista] __NEXT_DATA__ script tag is empty"], VNull)
      else
        match parse jsonText with
        | Ok data => ([], data)
        | Throw _ => (["[idealista] Failed to extract __NEXT_DATA__:"], VNull)
        end
  end.
Proof.
  unfold extractNextData, extractNextData_try.
  destruct (select html) as [[| jsonText rest] | e]; cbn [bind try_catch];
    try reflexivity.
  destruct (String.eqb jsonText ""); [reflexivity |].
  destruct (parse jsonText); reflexivity.
Qed.

(** C8, as the specification states it, fails: a document without the
    container and a document whose container does not parse give the same
    returned value, [null]. *)
Lemma C8_missing_and_malformed_return_the_same :
  sample_select challenge_page = Ok []
  /\ sample_select truncated_page = Ok ["{'props':"]
  /\ sample_parse "{'props':" = Throw SyntaxError
  /\ snd (extractNextData sample_select sample_parse challenge_page)
     = snd (extractNextData sample_select sample_parse truncated_page)
  /\ ~ (forall select parse missing malformed text rest e,
          select missing = Ok [] ->
          select malformed = Ok (text :: rest) ->
          parse text = Throw e ->
          snd (extractNextData select parse missing)
          <> snd (extractNextData select parse malformed)).
Proof.
  do 4 (split; [reflexivity |]).
  intros H.
  apply (H sample_select sample_parse challenge_page truncated_page
           "{'props':" [] SyntaxError); reflexivity.
Qed.

(** C8, amended: embedded-state extraction never raises for any input
    document and any behaviour of the HTML and JSON libraries; every failure
    is returned as the value [null]: a missing container, an empty container
    and a container whose text does not parse all return [null] and differ
    only in the line that is logged. *)
Theorem C8_extraction_returns_null_on_every_failure :
  forall select parse html,
    (forall e, select html = Throw e ->
       extractNextData select parse html
       = (["[idealista] Failed to extract __NEXT_DATA__:"], VNull))
    /\ (select html = Ok [] ->
          extractNextData select parse html
          = (["[idealista] __NEXT_DATA__ script tag not found"], VNull))
    /\ (forall rest, select html = Ok ("" :: rest) ->
          extractNextData select parse html
          = (["[idealista] __NEXT_DATA__ script tag is empty"], VNull))
    /\ (forall text rest e,
          select html = Ok (text :: rest) -> text <> "" -> parse text = Throw e ->
          extractNextData select parse html
          = (["[idealista] Failed to extract __NEXT_DATA__:"], VNull))
    /\ (forall text rest data,
          select html = Ok (text :: rest) -> text <> "" -> parse text = Ok data ->
          extractNextData select parse html = ([], data))
    /\ (snd (extractNextData select parse html) = VNull
        \/ exists text rest,
             select html = Ok (text :: rest)
             /\ parse text = Ok (snd (extractNextData select parse html))).
Proof.
  intros select parse html. rewrite extractNextData_cases.
  repeat split.
  - intros e ->. reflexivity.
  - intros ->. reflexivity.
  - intros rest ->. reflexivity.
  - intros text rest e -> Hne ->.
    apply String.eqb_neq in Hne. rewrite Hne. reflexivity.
  - intros text rest data -> Hne ->.
    apply String.eqb_neq in Hne. rewrite Hne. reflexivity.
  - destruct (select html) as [[| text rest] | e]; [left; reflexivity | | left; reflexivity].
    destruct (String.eqb text ""); [left; reflexivity |].
    destruct (parse text) as [data | e] eqn:E; [| left; reflexivity].
    right. exists text, rest. split; [reflexivity | exact E].
Qed.

(** C8 on the challenge page and on the truncated page. *)
Lemma C8_extraction_returns_null_on_every_failure_witness :
  extractNextData sample_select sample_parse challenge_page
  = (["[idealista] __NEXT_DATA__ script tag not found"], VNull)
  /\ extractNextData sample_select sample_parse truncated_page
     = (["[idealista] Failed to extract __NEXT_DATA__:"], VNull).
Proof.
  destruct (C8_extraction_returns_null_on_every_failure
              sample_select sample_parse challenge_page) as (_ & Hmissing & _).
  destruct (C8_extraction_returns_null_on_every_failure
              sample_select sample_parse truncated_page) as (_ & _ & _ & Hbad & _).
  split.
  - apply Hmissing. reflexivity.
  - apply (Hbad "{'props':" [] SyntaxError); [reflexivity | discriminate | reflexivity].
Defined.

(** ** The page loop *)

Lemma pages_from_length p n : List.length (pages_from p n) = n.
Proof. revert p. induction n; intros p; simpl; [| rewrite IHn]; reflexivity. Qed.

Lemma pages_from_app p a b :
  pages_from p (a + b) = (pages_from p a ++ pages_from (p + Z.of_nat a) b)%list.
Proof.
  revert p. induction a as [| a IH]; intros p.
  - simpl. rewrite Z.add_0_r. reflexivity.
  - cbn [Nat.add pages_from app]. rewrite IH. do 3 f_equal. lia.
Qed.

Lemma pages_from_nth p n i q :
  nth_error (pages_from p n) i = Some q -> q = p + Z.of_nat i /\ (i < n)%nat.
Proof.
  revert p i. induction n as [| n IH]; intros p i H.
  - destruct i; discriminate H.
  - destruct i as [| i]; simpl in H.
    + injection H as <-. split; lia.
    + apply IH in H. lia.
Qed.

Lemma trim_below_limit limit (acc : list Property) :
  below_limit limit acc -> trim_to_limit limit acc = acc.
Proof.
  unfold below_limit, trim_to_limit, limit_reached, slice0.
  intros [-> | H].
  - destruct limit as [l |]; [| reflexivity].
    destruct (l =? 0); [reflexivity |]. destruct (l <? 0); apply firstn_nil.
  - destruct limit as [l |]; [| reflexivity].
    destruct (l =? 0) eqn:E0; [reflexivity |]. cbn [negb andb] in H.
    apply Z.leb_gt in H.
    assert (Hl : (l <? 0) = false) by (apply Z.ltb_ge; lia). rewrite Hl.
    apply firstn_all2. lia.
Qed.

Lemma trim_at_limit l (acc : list Property) :
  1 <= l -> limit_reached (Some l) (List.length acc) = true ->
  trim_to_limit (Some l) acc = firstn (Z.to_nat l) acc
  /\ List.length (trim_to_limit (Some l) acc) = Z.to_nat l.
Proof.
  unfold trim_to_limit, limit_reached, slice0. intros Hl H.
  assert (E0 : (l =? 0) = false) by (apply Z.eqb_neq; lia).
  assert (E1 : (l <? 0) = false) by (apply Z.ltb_ge; lia).
  rewrite E0 in *. rewrite E1. cbn [negb andb] in H. apply Z.leb_le in H.
  split; [reflexivity |]. rewrite length_firstn. lia.
Qed.

Section CrawlFacts.

Variable World : Type.
Variable scrapePage :
  World -> string -> transaction -> Z -> (thrown + ScrapeResult) * World.
Variable pause : World -> World.
Variable location : string.
Variable transactionType : transaction.
Variable maxPages_ : Z.
Variable limit_ : option Z.

(** Everything the claims need to know about one run of the loop entered at
    [page] with accumulator [acc]: which pages it fetches, what it
    accumulates, and how it ends. *)
Lemma page_loop_facts page w acc log :
  exists new,
    fetched World
      (page_loop World scrapePage pause location transactionType maxPages_ limit_
         page w acc log) = (log ++ new)%list
    /\ map fst new = pages_from page (List.length new)
    /\ (new = [] \/ page + Z.of_nat (List.length new) - 1 <= maxPages_)
    /\ allProperties World
         (page_loop World scrapePage pause location transactionType maxPages_ limit_
            page w acc log) = (acc ++ flat_map got new)%list
    /\ (forall pre n err post,
          new = (pre ++ (n, inl err) :: post)%list -> is_blocked err = true ->
          post = []
          /\ exit World
               (page_loop World scrapePage pause location transactionType
                  maxPages_ limit_ page w acc log) = BlockedStop)
    /\ (exit World
          (page_loop World scrapePage pause location transactionType maxPages_
             limit_ page w acc log) = ReachedLimit ->
        limit_reached limit_
          (List.length
             (allProperties World
                (page_loop World scrapePage pause location transactionType
                   maxPages_ limit_ page w acc log))) = true)
    /\ (below_limit limit_ acc ->
        exit World
          (page_loop World scrapePage pause location transactionType maxPages_
             limit_ page w acc log) <> ReachedLimit ->
        below_limit limit_
          (allProperties World
             (page_loop World scrapePage pause location transactionType
                maxPages_ limit_ page w acc log))).
Proof.
  funelim (page_loop World scrapePage pause location transactionType maxPages_
             limit_ page w acc log).
  - (* the loop condition fails *)
    exists []. cbn [fetched allProperties exit flat_map List.length pages_from map].
    rewrite !app_nil_r. repeat apply conj; auto.
    + intros pre n err post E. destruct pre; discriminate E.
    + discriminate.
  - (* blocked *)
    exists [(page, inl error)].
    cbn [fetched allProperties exit flat_map got snd List.length pages_from map fst app].
    rewrite !app_nil_r. repeat apply conj; auto.
    + right. lia.
    + intros pre n err post E _.
      destruct pre as [| a [| b pre]]; inversion E; subst.
      split; reflexivity.
    + discriminate.
  - (* another error: on to the next page *)
    destruct H as (new & Hf & Hp & Hb & Ha & Hlast & Hlim & Hbelow).
    exists ((page, inl error) :: new).
    rewrite Hf, Ha. cbn [flat_map got snd List.length pages_from map fst app].
    rewrite <- app_assoc, Hp. repeat apply conj; auto.
    + right. destruct Hb as [-> | Hb]; [cbn [List.length] |]; lia.
    + intros pre n err post E Hblk.
      destruct pre as [| a pre]; cbn [app] in E; inversion E; subst.
      * congruence.
      * apply (Hlast pre n err post eq_refl Hblk).
    + rewrite <- Ha. exact Hlim.
    + rewrite <- Ha. exact Hbelow.
  - (* the record limit is reached *)
    exists [(page, inr result0)].
    cbn [fetched allProperties exit flat_map got snd List.length pages_from map fst app].
    rewrite !app_nil_r. repeat apply conj; auto.
    + right. lia.
    + intros pre n err post E _. destruct pre as [| a [| b pre]]; discriminate E.
    + intros _ Hne. congruence.
  - (* a page with a successor: on to the next page *)
    destruct H as (new & Hf & Hp & Hb & Ha & Hlast & Hlim & Hbelow).
    exists ((page, inr result0) :: new).
    rewrite Hf, Ha. cbn [flat_map got snd List.length pages_from map fst app].
    rewrite <- !app_assoc, Hp. repeat apply conj; auto.
    + right. destruct Hb as [-> | Hb]; [cbn [List.length] |]; lia.
    + intros pre n err post E Hblk.
      destruct pre as [| a pre]; cbn [app] in E; inversion E; subst.
      apply (Hlast pre n err post eq_refl Hblk).
    + rewrite app_assoc, <- Ha. exact Hlim.
    + intros _ Hne. rewrite app_assoc, <- Ha. apply Hbelow; [| exact Hne].
      right. exact Heq0.
  - (* no next page *)
    exists [(page, inr result0)].
    cbn [fetched allProperties exit flat_map got snd List.length pages_from map fst app].
    rewrite !app_nil_r. repeat apply conj; auto.
    + right. lia.
    + intros pre n err post E _. destruct pre as [| a [| b pre]]; discriminate E.
    + discriminate.
    + intros _ _. right. exact Heq0.
Qed.

(** One pass through the loop body that reaches the record limit. *)
Lemma page_loop_reaches_limit page w acc log result w' :
  page <= maxPages_ ->
  scrapePage w location transactionType page = (inr result, w') ->
  limit_reached limit_ (List.length (acc ++ properties result)) = true ->
  page_loop World scrapePage pause location transactionType maxPages_ limit_
    page w acc log =
  {| allProperties := (acc ++ properties result)%list;
     fetched := (log ++ [(page, inr result)])%list;
     exit := ReachedLimit;
     world := w' |}.
Proof.
  funelim (page_loop World scrapePage pause location transactionType maxPages_
             limit_ page w acc log);
    intros Hle Hpage Hlimit; try lia;
    match goal with
    | E : scrapePage _ _ _ _ = _ |- _ =>
        tryif constr_eq E Hpage then fail
        else (rewrite Hpage in E; inversion E; subst)
    end;
    congruence.
Qed.

End CrawlFacts.

(** ** One location *)

Lemma pages_from_In p n q : In q (pages_from p n) -> p <= q < p + Z.of_nat n.
Proof.
  intros H. apply In_nth_error in H as [i H]. apply pages_from_nth in H. lia.
Qed.

(** C9: the page index of a location crawl starts at 1, grows by exactly 1
    from one fetch to the next, and never exceeds the page limit
    ([maxPages], 5 by default). *)
Theorem C9_pagination_invariant :
  forall World scrapePage pause w location transactionType options,
    let o :=
      scrapeLocation World scrapePage pause w location transactionType options in
    map fst (pages World o) = pages_from 1 (List.length (pages World o))
    /\ Z.of_nat (List.length (pages World o)) <= Z.max 0 (page_cap options)
    /\ (forall i p,
          nth_error (map fst (pages World o)) i = Some p ->
          p = 1 + Z.of_nat i /\ 1 <= p <= page_cap options).
Proof.
  intros World scrapePage pause w location transactionType options o.
  destruct (page_loop_facts World scrapePage pause location transactionType
              (page_cap options) (limit options) 1 w [] [])
    as (new & Hf & Hp & Hb & _).
  assert (Hpages : pages World o = new) by exact Hf.
  rewrite Hpages. split; [exact Hp |].
  assert (Hbound : Z.of_nat (List.length new) <= Z.max 0 (page_cap options))
    by (destruct Hb as [-> | Hb]; [cbn [List.length] |]; lia).
  split; [exact Hbound |].
  intros i p Hi. rewrite Hp in Hi. apply pages_from_nth in Hi. lia.
Qed.

(** C9 on a session blocked on its second page: pages 1 and 2 are fetched. *)
Lemma C9_pagination_invariant_witness :
  map fst
    (pages unit
       (scrapeLocation unit blocked_on_page_2 no_pause tt "lisboa" sale
          {| maxPages := Some 5; limit := None |})) = [1; 2].
Proof.
  destruct (C9_pagination_invariant unit blocked_on_page_2 no_pause tt "lisboa" sale
              {| maxPages := Some 5; limit := None |}) as (H & _).
  rewrite H. reflexivity.
Defined.

(** C7: a blocked fetch ends the crawl of the location at once.  If the fetch
    of page [n] throws an error whose message mentions "blocked", it is the
    last fetch of the run: no later page is fetched, page [n] is not fetched
    again (the pages before it are 1, ..., [n - 1], once each), and the
    records of the pages fetched before it are all returned. *)
Theorem C7_blocked_fetch_ends_the_crawl :
  forall World scrapePage pause w location transactionType options
         before n err after,
    let o :=
      scrapeLocation World scrapePage pause w location transactionType options in
    pages World o = (before ++ (n, inl err) :: after)%list ->
    is_blocked err = true ->
    after = []
    /\ stop World o = BlockedStop
    /\ map fst before = pages_from 1 (List.length before)
    /\ n = 1 + Z.of_nat (List.length before)
    /\ ~ In n (map fst before)
    /\ records World o = flat_map got before.
Proof.
  intros World scrapePage pause w location transactionType options
         before n err after o Hpages Hblocked.
  destruct (page_loop_facts World scrapePage pause location transactionType
              (page_cap options) (limit options) 1 w [] [])
    as (new & Hf & Hp & _ & Ha & Hlast & _ & Hbelow).
  assert (Hnew : new = (before ++ (n, inl err) :: after)%list)
    by (rewrite <- Hpages; symmetry; exact Hf).
  destruct (Hlast before n err after Hnew Hblocked) as [-> Hexit].
  assert (Hsplit : map fst before = pages_from 1 (List.length before)
                   /\ n = 1 + Z.of_nat (List.length before)).
  { rewrite Hnew, map_app, length_app, pages_from_app in Hp.
    cbn [map fst List.length pages_from] in Hp.
    apply app_inj_tail in Hp. exact Hp. }
  destruct Hsplit as [Hbefore Hn].
  repeat apply conj; auto.
  - rewrite Hbefore. intros Hin. apply pages_from_In in Hin. lia.
  - unfold o, scrapeLocation. cbn [records].
    rewrite trim_below_limit.
    + fold (page_cap options). rewrite Ha, Hnew, flat_map_app.
      cbn [flat_map got snd app]. rewrite app_nil_r. reflexivity.
    + apply Hbelow; [left; reflexivity |].
      fold (page_cap options). rewrite Hexit. discriminate.
Qed.

(** C7 on a session blocked on its second page. *)
Lemma C7_blocked_fetch_ends_the_crawl_witness :
  stop unit
    (scrapeLocation unit blocked_on_page_2 no_pause tt "lisboa" sale
       {| maxPages := Some 5; limit := None |}) = BlockedStop
  /\ records unit
       (scrapeLocation unit blocked_on_page_2 no_pause tt "lisboa" sale
          {| maxPages := Some 5; limit := None |}) = five_records.
Proof.
  destruct (C7_blocked_fetch_ends_the_crawl unit blocked_on_page_2 no_pause tt
              "lisboa" sale {| maxPages := Some 5; limit := None |}
              [(1, inr (page_of five_records 1 true))] 2 datadome_block []
              eq_refl eq_refl) as (_ & Hstop & _ & _ & _ & Hrecords).
  split; [exact Hstop |]. rewrite Hrecords. reflexivity.
Defined.

(** C6: with a record limit [l] (3 in the specification's example) and a
    first page that yields at least [l] items (5 in the example), the crawl
    returns exactly the first [l] records and stops because the limit is
    reached, after that one fetch, whether or not the page has a successor and
    whether or not it is the last page allowed: the record limit is checked
    first.  In every run that stops for another reason, fewer than [l]
    records are returned. *)
Theorem C6_record_limit_takes_precedence :
  forall World scrapePage pause w location transactionType cap l,
    let options := {| maxPages := cap; limit := Some l |} in
    let o :=
      scrapeLocation World scrapePage pause w location transactionType options in
    1 <= l ->
    (forall result w',
       1 <= page_cap options ->
       scrapePage w location transactionType 1 = (inr result, w') ->
       l <= Z.of_nat (List.length (properties result)) ->
       records World o = firstn (Z.to_nat l) (properties result)
       /\ List.length (records World o) = Z.to_nat l
       /\ stop World o = ReachedLimit
       /\ pages World o = [(1, inr result)])
    /\ (stop World o = ReachedLimit -> List.length (records World o) = Z.to_nat l)
    /\ (stop World o <> ReachedLimit ->
        Z.of_nat (List.length (records World o)) < l).
Proof.
  intros World scrapePage pause w location transactionType cap l options o Hl.
  repeat apply conj.
  - intros result w' Hcap Hpage Hmany.
    assert (Hlimit : limit_reached (Some l)
                       (List.length ([] ++ properties result)) = true).
    { unfold limit_reached. cbn [app].
      apply andb_true_iff. split; [apply negb_true_iff, Z.eqb_neq; lia |].
      apply Z.leb_le. exact Hmany. }
    pose proof (page_loop_reaches_limit World scrapePage pause location
                  transactionType (page_cap options) (Some l) 1 w [] [] result w'
                  Hcap Hpage Hlimit) as Hloop.
    unfold o, scrapeLocation. fold (page_cap options). cbn [limit options].
    rewrite Hloop. cbn [records stop pages allProperties fetched exit app].
    destruct (trim_at_limit l (properties result) Hl Hlimit) as [Htrim Hlen].
    repeat apply conj; auto.
  - intros Hstop.
    destruct (page_loop_facts World scrapePage pause location transactionType
                (page_cap options) (Some l) 1 w [] [])
      as (new & _ & _ & _ & _ & _ & Hlim & _).
    apply (trim_at_limit l _ Hl). apply Hlim. exact Hstop.
  - intros Hstop.
    destruct (page_loop_facts World scrapePage pause location transactionType
                (page_cap options) (Some l) 1 w [] [])
      as (new & _ & _ & _ & _ & _ & _ & Hbelow).
    specialize (Hbelow (or_introl eq_refl) Hstop).
    unfold o, scrapeLocation. fold (page_cap options). cbn [limit options records].
    rewrite (trim_below_limit _ _ Hbelow).
    destruct Hbelow as [-> | Hb]; [cbn [List.length]; lia |].
    unfold limit_reached in Hb.
    assert (E0 : (l =? 0) = false) by (apply Z.eqb_neq; lia).
    rewrite E0 in Hb. cbn [negb andb] in Hb. apply Z.leb_gt in Hb. exact Hb.
Qed.

(** C6 on the specification's example, with every other stop condition true
    as well: limit 3, a page of 5 items that has no successor and is the only
    page allowed. *)
Lemma C6_record_limit_takes_precedence_witness :
  List.length
    (records unit
       (scrapeLocation unit single_page_session no_pause tt "lisboa" sale
          {| maxPages := Some 1; limit := Some 3 |})) = 3%nat
  /\ stop unit
       (scrapeLocation unit single_page_session no_pause tt "lisboa" sale
          {| maxPages := Some 1; limit := Some 3 |}) = ReachedLimit
  /\ records unit
       (scrapeLocation unit single_page_session no_pause tt "lisboa" sale
          {| maxPages := Some 1; limit := Some 3 |})
     = map sample_record ["a1"; "a2"; "a3"].
Proof.
  destruct (C6_record_limit_takes_precedence unit single_page_session no_pause tt
              "lisboa" sale (Some 1) 3 ltac:(lia)) as (H & _ & _).
  destruct (H (page_of five_records 1 false) tt ltac:(cbn; lia) eq_refl
              ltac:(cbn; lia)) as (Hrecords & Hlen & Hstop & _).
  repeat apply conj.
  - exact Hlen.
  - exact Hstop.
  - rewrite Hrecords. reflexivity.
Defined.

(** An error that does not mention "blocked" skips the page and the crawl goes
    on; the last page ends it. *)
Example crawl_goes_on_after_other_errors :
  let o :=
    scrapeLocation unit timeout_then_three_pages no_pause tt "porto" sale
      {| maxPages := None; limit := None |} in
  map fst (pages unit o) = [1; 2; 3]
  /\ stop unit o = NoMorePages
  /\ List.length (records unit o) = 10%nat.
Proof. repeat split. Qed.

Example crawl_stops_at_the_page_limit :
  let o :=
    scrapeLocation unit blocked_on_page_2 no_pause tt "porto" sale
      {| maxPages := Some 1; limit := None |} in
  map fst (pages unit o) = [1]
  /\ stop unit o = PagesExhausted
  /\ List.length (records unit o) = 5%nat.
Proof. repeat split. Qed.

(* ===================================================================== *)
(** * Further properties of the sources *)
(* ===================================================================== *)

(** ** [cleanText] *)

Lemma well_formed_weaken b l : well_formed false l -> well_formed b l.
Proof.
  destruct l as [| ch rest]; [intros; exact I |]. cbn [well_formed].
  intros [(c & tail & E & Ht & [Hf | Hc]) Hrest]; [discriminate Hf |].
  split; [| exact Hrest]. exists c, tail. auto.
Qed.

Lemma well_formed_tail b ch rest : well_formed b (ch :: rest) -> well_formed true rest.
Proof. intros [_ H]. apply well_formed_weaken. exact H. Qed.

Lemma well_formed_prefix b p q : well_formed b (p ++ q) -> well_formed b p.
Proof.
  revert b. induction p as [| ch p IH]; intros b; [intros; exact I |].
  cbn [app well_formed]. intros [Hch Hrest]. split; [exact Hch | apply IH, Hrest].
Qed.

Lemma chars_well_formed s : well_formed true (chars s).
Proof.
  induction s as [| c s IH]; [exact I |]. cbn [chars].
  destruct (chars s) as [| h t] eqn:E.
  - split; [| exact I]. exists c, "". repeat split; auto. intros x [].
  - destruct IH as [(d & tail & -> & Htail & _) Ht].
    destruct (starts_with_continuation (String d tail)) eqn:Hd; cbn in Hd.
    + split; [| exact Ht]. exists c, (String d tail). repeat split; auto.
      intros x [<- | Hx]; [exact Hd | apply Htail, Hx].
    + split.
      * exists c, "". repeat split; auto. intros x [].
      * split; [| exact Ht]. exists d, tail. auto.
Qed.

Lemma chars_cons_continuation c tail u rest :
  all_continuation tail -> chars u = rest ->
  match rest with
  | h :: _ => starts_with_continuation h = false
  | [] => True
  end ->
  chars (String c (tail ++ u)) = String c tail :: rest.
Proof.
  revert c. induction tail as [| d tail IH]; intros c Htail Hu Hrest.
  - cbn [String.append chars]. rewrite Hu.
    destruct rest as [| h t]; [reflexivity | rewrite Hrest; reflexivity].
  - cbn [String.append]. change (chars (String c (String d (tail ++ u))))
      with (match chars (String d (tail ++ u)) with
            | h :: t =>
                if starts_with_continuation h then String c h :: t
                else String c EmptyString :: h :: t
            | [] => [String c EmptyString]
            end).
    rewrite (IH d) by (auto; intros x Hx; apply Htail; right; exact Hx).
    cbn [starts_with_continuation]. rewrite (Htail d) by (left; reflexivity).
    reflexivity.
Qed.

(** Putting characters together and splitting again gives them back. *)
Lemma chars_unchars l : well_formed true l -> chars (unchars l) = l.
Proof.
  induction l as [| ch rest IH]; intros H; [reflexivity |].
  pose proof (well_formed_tail _ _ _ H) as Hrest.
  destruct H as [(c & tail & -> & Htail & _) Hfalse].
  cbn [unchars fold_right]. change (fold_right String.append "" rest) with (unchars rest).
  cbn [String.append]. apply chars_cons_continuation; auto.
  destruct rest as [| h t]; [exact I |].
  destruct Hfalse as [(d & tl & -> & _ & [Hf | Hd]) _]; [discriminate Hf | exact Hd].
Qed.

Lemma space_is_well_formed b rest :
  well_formed false rest -> well_formed b (" " :: rest).
Proof.
  intros H. split; [| exact H]. exists " "%char, "". repeat split; auto.
  intros x [].
Qed.

Lemma collapse_well_formed b in_run l :
  well_formed b l -> well_formed b (collapse_spaces in_run l).
Proof.
  revert b in_run. induction l as [| ch rest IH]; intros b in_run H; [exact I |].
  cbn [collapse_spaces]. destruct H as [Hch Hrest].
  destruct (is_space ch).
  - destruct in_run.
    + apply well_formed_weaken, IH, Hrest.
    + apply space_is_well_formed, IH, Hrest.
  - split; [exact Hch | apply IH, Hrest].
Qed.

Lemma drop_spaces_suffix l : exists spaces, l = (spaces ++ drop_spaces l)%list.
Proof.
  induction l as [| ch rest [spaces IH]]; [exists []; reflexivity |].
  cbn [drop_spaces]. destruct (is_space ch).
  - exists (ch :: spaces). cbn [app]. f_equal. exact IH.
  - exists []. reflexivity.
Qed.

Lemma drop_spaces_head l ch rest : drop_spaces l = ch :: rest -> is_space ch = false.
Proof.
  induction l as [| x l IH]; cbn [drop_spaces]; [discriminate |].
  destruct (is_space x) eqn:E; [exact IH |]. intros H. injection H as <- _. exact E.
Qed.

Lemma drop_spaces_fixed l :
  (forall ch rest, l = ch :: rest -> is_space ch = false) -> drop_spaces l = l.
Proof.
  destruct l as [| ch rest]; [reflexivity |]. intros H. cbn [drop_spaces].
  rewrite (H ch rest eq_refl). reflexivity.
Qed.

(** [trim] on characters. *)
Lemma drop_end_prefix l :
  exists spaces, l = (rev (drop_spaces (rev l)) ++ spaces)%list.
Proof.
  destruct (drop_spaces_suffix (rev l)) as [spaces H].
  exists (rev spaces). apply (f_equal (@rev string)) in H.
  rewrite rev_involutive, rev_app_distr in H. exact H.
Qed.

Lemma well_formed_suffix p q : well_formed true (p ++ q) -> well_formed true q.
Proof.
  induction p as [| ch p IH]; [intros H; exact H |]. cbn [app]. intros H.
  apply IH. apply (well_formed_tail _ _ _ H).
Qed.

Lemma strip_well_formed l :
  well_formed true l ->
  well_formed true (rev (drop_spaces (rev (drop_spaces l)))).
Proof.
  intros H. destruct (drop_spaces_suffix l) as [sp Hs].
  rewrite Hs in H. apply well_formed_suffix in H.
  destruct (drop_end_prefix (drop_spaces l)) as [sp' Hp].
  rewrite Hp in H. apply well_formed_prefix in H. exact H.
Qed.

Lemma collapse_true_head l ch rest :
  collapse_spaces true l = ch :: rest -> is_space ch = false.
Proof.
  induction l as [| x l IH]; cbn [collapse_spaces]; [discriminate |].
  destruct (is_space x) eqn:E; [exact IH |]. intros H. injection H as <- _. exact E.
Qed.

Lemma collapse_tidy in_run l : tidy (collapse_spaces in_run l).
Proof.
  revert in_run. induction l as [| ch rest IH]; intros in_run; [exact I |].
  cbn [collapse_spaces]. destruct (is_space ch) eqn:E.
  - destruct in_run; [apply IH |]. split; [| apply IH].
    intros _. split; [reflexivity |].
    destruct (collapse_spaces true rest) as [| n r] eqn:En; [exact I |].
    apply (collapse_true_head rest n r En).
  - split; [| apply IH]. intros H. rewrite E in H. discriminate H.
Qed.

Lemma tidy_suffix p q : tidy (p ++ q) -> tidy q.
Proof.
  induction p as [| ch p IH]; [intros H; exact H |]. cbn [app tidy].
  intros [_ H]. apply IH, H.
Qed.

Lemma tidy_prefix p q : tidy (p ++ q) -> tidy p.
Proof.
  induction p as [| ch p IH]; [intros; exact I |]. cbn [app tidy]. intros [Hch H].
  split; [| apply IH, H]. intros Hs. destruct (Hch Hs) as [-> Hn].
  split; [reflexivity |]. destruct p as [| n p]; [exact I | exact Hn].
Qed.

Lemma strip_tidy l : tidy l -> tidy (rev (drop_spaces (rev (drop_spaces l)))).
Proof.
  intros H. destruct (drop_spaces_suffix l) as [sp Hs].
  rewrite Hs in H. apply tidy_suffix in H.
  destruct (drop_end_prefix (drop_spaces l)) as [sp' Hp].
  rewrite Hp in H. apply tidy_prefix in H. exact H.
Qed.

Lemma strip_no_outer_space l :
  no_outer_space (rev (drop_spaces (rev (drop_spaces l)))).
Proof.
  split.
  - intros ch rest H.
    destruct (drop_end_prefix (drop_spaces l)) as [sp Hp].
    rewrite H in Hp. cbn [app] in Hp.
    apply (drop_spaces_head l ch _ Hp).
  - intros init ch H. apply (f_equal (@rev string)) in H.
    rewrite rev_involutive, rev_app_distr in H. cbn [rev app] in H.
    apply (drop_spaces_head _ ch _ H).
Qed.

Lemma collapse_fixed l : tidy l -> collapse_spaces false l = l.
Proof.
  induction l as [| ch rest IH]; [reflexivity |]. cbn [tidy collapse_spaces].
  intros [Hch Hrest]. specialize (IH Hrest).
  destruct (is_space ch) eqn:E.
  - destruct (Hch eq_refl) as [-> Hnext]. f_equal.
    destruct rest as [| n r]; [reflexivity |].
    cbn [collapse_spaces] in IH |- *. rewrite Hnext in IH |- *. exact IH.
  - f_equal. exact IH.
Qed.

Lemma strip_fixed l :
  no_outer_space l -> rev (drop_spaces (rev (drop_spaces l))) = l.
Proof.
  intros [Hfirst Hlast]. rewrite (drop_spaces_fixed l Hfirst).
  rewrite drop_spaces_fixed; [apply rev_involutive |].
  intros ch rest H. apply (Hlast (rev rest) ch).
  apply (f_equal (@rev string)) in H. rewrite rev_involutive in H. exact H.
Qed.

(** The characters of a cleaned text. *)
Lemma clean_chars s :
  let cleaned := trim (replace_spaces s) in
  let l := rev (drop_spaces (rev (drop_spaces (collapse_spaces false (chars s))))) in
  cleaned = unchars l /\ chars cleaned = l
  /\ well_formed true l /\ tidy l /\ no_outer_space l.
Proof.
  cbv zeta. unfold trim, replace_spaces.
  pose proof (collapse_well_formed true false (chars s) (chars_well_formed s)) as Hc.
  rewrite (chars_unchars _ Hc).
  pose proof (strip_well_formed _ Hc) as Hw.
  split; [reflexivity |]. split; [apply chars_unchars, Hw |].
  split; [exact Hw |]. split; [apply strip_tidy, collapse_tidy |].
  apply strip_no_outer_space.
Qed.

(** [cleanText] yields a text in normal form, and leaves such a text as it
    is: the result has no white space but single spaces between other
    characters, none at either end, and cleaning it again changes nothing.
    Nothing but a string can be cleaned, and an empty or missing text gives
    no text. *)
Theorem cleanText_normal_form :
  (forall s, s <> "" ->
     exists r,
       cleanText (VStr s) = Ok (Some r)
       /\ tidy (chars r) /\ no_outer_space (chars r)
       /\ trim (replace_spaces r) = r)
  /\ (forall t, truthy t = false -> cleanText t = Ok None)
  /\ (forall t, truthy t = true -> (forall s, t <> VStr s) ->
        cleanText t = Throw TypeError).
Proof.
  split; [| split].
  - intros s Hs. exists (trim (replace_spaces s)).
    destruct (clean_chars s) as (Hr & Hchars & Hw & Ht & Ho). cbv zeta in *.
    split; [| split; [| split]].
    + unfold cleanText. cbn [truthy]. destruct s; [congruence | reflexivity].
    + rewrite Hchars. exact Ht.
    + rewrite Hchars. exact Ho.
    + unfold trim at 1, replace_spaces at 1. rewrite Hchars.
      rewrite (collapse_fixed _ Ht), (chars_unchars _ Hw), (strip_fixed _ Ho).
      symmetry. exact Hr.
  - intros t Ht. unfold cleanText. rewrite Ht. reflexivity.
  - intros t Ht Hs. unfold cleanText. rewrite Ht. cbn [negb].
    destruct t; try reflexivity. elim (Hs s). reflexivity.
Qed.

(** [cleanText] at a title with stray white space. *)
Lemma cleanText_normal_form_witness :
  exists r,
    cleanText (VStr "  Apartamento   T2  ") = Ok (Some r)
    /\ tidy (chars r) /\ no_outer_space (chars r)
    /\ trim (replace_spaces r) = r.
Proof.
  destruct cleanText_normal_form as (H & _ & _).
  apply (H "  Apartamento   T2  "). discriminate.
Defined.

(** ** [mapTransactionType] *)

Lemma mapTransactionType_string s :
  mapTransactionType (VStr s) =
  Ok (if mentions (toLowerCase s) sale_terms then "sale"
      else if mentions (toLowerCase s) rent_terms then "rent"
      else "sale").
Proof.
  unfold mapTransactionType.
  assert (E : or_ (VStr s) (VStr "") = VStr s) by (destruct s; reflexivity).
  rewrite E. cbn [string_receiver bind].
  generalize (toLowerCase s) as t. intros t.
  cbn [mentions existsb sale_terms rent_terms].
  repeat match goal with
         | |- context [includes t ?x] =>
             destruct (includes t x); cbn [orb]; try reflexivity
         end.
Qed.

(** The transaction kind is always "sale" or "rent": "rent" exactly when a
    rent term occurs in the lower-cased operation and no sale term does,
    "sale" in every other case, a missing or empty operation included; an
    operation that is neither missing nor a string makes it throw. *)
Theorem mapTransactionType_sale_unless_rent_only :
  (forall operation kind,
     mapTransactionType operation = Ok kind -> kind = "sale" \/ kind = "rent")
  /\ (forall s,
        mapTransactionType (VStr s) = Ok "rent"
        <-> mentions (toLowerCase s) sale_terms = false
            /\ mentions (toLowerCase s) rent_terms = true)
  /\ (forall operation, truthy operation = false ->
        mapTransactionType operation = Ok "sale")
  /\ (forall operation, truthy operation = true -> (forall s, operation <> VStr s) ->
        mapTransactionType operation = Throw TypeError).
Proof.
  split; [| split; [| split]].
  - intros operation kind H.
    destruct operation as [| | b | n | s | items | props].
    + vm_compute in H. injection H as <-. left. reflexivity.
    + vm_compute in H. injection H as <-. left. reflexivity.
    + destruct b; vm_compute in H; [discriminate H |].
      injection H as <-. left. reflexivity.
    + unfold mapTransactionType, or_ in H. cbn [truthy] in H.
      destruct (negb (n =? 0)); [discriminate H |].
      vm_compute in H. injection H as <-. left. reflexivity.
    + rewrite mapTransactionType_string in H.
      destruct (mentions (toLowerCase s) sale_terms);
        [injection H as <-; left; reflexivity |].
      destruct (mentions (toLowerCase s) rent_terms); injection H as <-; auto.
    + discriminate H.
    + discriminate H.
  - intros s. rewrite mapTransactionType_string.
    destruct (mentions (toLowerCase s) sale_terms);
      destruct (mentions (toLowerCase s) rent_terms);
      split; intros H; try discriminate H; try (destruct H; discriminate); auto.
  - intros operation H. unfold mapTransactionType, or_. rewrite H. reflexivity.
  - intros operation H Hs. unfold mapTransactionType, or_. rewrite H.
    destruct operation; try reflexivity. elim (Hs s). reflexivity.
Qed.

(** The rule at an operation that names both kinds, and at one that names
    only renting. *)
Lemma mapTransactionType_sale_unless_rent_only_witness :
  mapTransactionType (VStr "Arrendar") = Ok "rent"
  /\ (forall kind, mapTransactionType (VStr "Venda ou arrendamento") = Ok kind ->
        kind = "sale" \/ kind = "rent").
Proof.
  destruct mapTransactionType_sale_unless_rent_only as (Hkind & Hrent & _).
  split.
  - apply Hrent. split; reflexivity.
  - apply Hkind.
Defined.

(** ** [parseFloor] *)

Lemma parse_digits_nonneg acc s : 0 <= acc -> 0 <= parse_digits acc s.
Proof.
  revert acc. induction s as [| c s IH]; intros acc Hacc; cbn [parse_digits];
    [exact Hacc |].
  destruct (is_digit c) eqn:E; [| exact Hacc]. apply IH.
  unfold is_digit in E. apply andb_true_iff in E as [E _]. apply N.leb_le in E. lia.
Qed.

(** A parsed floor is never below -1: any sign in front of the digits is
    lost.  [parseFloor] throws exactly on a floor that is neither missing nor
    a string. *)
Theorem parseFloor_range :
  (forall f n, parseFloor f = Ok (Some n) -> -1 <= n)
  /\ (forall f, (exists e, parseFloor f = Throw e)
                <-> truthy f = true /\ forall s, f <> VStr s).
Proof.
  split.
  - intros f n H. unfold parseFloor in H.
    destruct (truthy f) eqn:Et; cbn [negb] in H; [| discriminate H].
    destruct f; try discriminate H. cbn [string_receiver bind] in H.
    repeat match type of H with
           | (if ?b then _ else _) = _ => destruct b
           end; try (injection H as <-; lia).
    destruct (match_digits _); [| discriminate H].
    injection H as <-. unfold parseInt10.
    pose proof (parse_digits_nonneg 0 s0 ltac:(lia)). lia.
  - intros f. split.
    + intros [e H]. destruct (truthy f) eqn:Et.
      * split; [reflexivity |]. intros s ->.
        assert (Hs : s <> "") by (intros ->; discriminate Et).
        rewrite (parseFloor_string s Hs) in H. cbv zeta in H.
        repeat match type of H with
               | (if ?b then _ else _) = _ => destruct b
               end; discriminate H.
      * unfold parseFloor in H. rewrite Et in H. discriminate H.
    + intros [Et Hs]. exists TypeError. unfold parseFloor. rewrite Et. cbn [negb].
      destruct f; try reflexivity. elim (Hs s). reflexivity.
Qed.

(** The range at a floor written with a minus sign. *)
Lemma parseFloor_range_witness : -1 <= 2 /\ parseFloor (VStr "-2") = Ok (Some 2).
Proof.
  destruct parseFloor_range as [H _].
  split; [apply (H (VStr "-2") 2) |]; reflexivity.
Defined.

(** ** [buildPropertyUrl] *)

(** The URL of a record always begins with "http".  A relative URL of the
    item is put behind the base URL and an "http" URL is kept, whatever the
    property code is; any other URL is ignored, and the URL is then built
    from the property code, or is the base URL when there is none. *)
Theorem buildPropertyUrl_cases :
  (forall propertyCode url r,
     buildPropertyUrl propertyCode url = Ok r -> startsWith r "http" = true)
  /\ (forall propertyCode u,
        startsWith u "/" = true ->
        buildPropertyUrl propertyCode (VStr u) = Ok (BASE_URL ++ u))
  /\ (forall propertyCode u,
        startsWith u "/" = false -> startsWith u "http" = true ->
        buildPropertyUrl propertyCode (VStr u) = Ok u)
  /\ (forall code url,
        url = VUndef \/ url = VNull
        \/ (exists u, url = VStr u /\ startsWith u "/" = false
                      /\ startsWith u "http" = false) ->
        buildPropertyUrl (VStr code) url =
        Ok (if String.eqb code "" then BASE_URL
            else BASE_URL ++ "/imovel/" ++ code ++ "/")).
Proof.
  split; [| split; [| split]].
  - intros propertyCode url r H. unfold buildPropertyUrl in H.
    assert (Hbase : forall x, startsWith (BASE_URL ++ x) "http" = true)
      by (intros x; reflexivity).
    destruct (truthy url) eqn:Eu.
    + destruct url; try discriminate H. cbn [string_receiver bind] in H.
      destruct (startsWith s "/"); cbn [bind] in H;
        [injection H as <-; apply Hbase |].
      destruct (startsWith s "http") eqn:Eh; cbn [bind] in H;
        [injection H as <-; exact Eh |].
      destruct (truthy propertyCode); [| injection H as <-; reflexivity].
      destruct (to_string propertyCode); cbn [bind] in H; [| discriminate H].
      injection H as <-. apply Hbase.
    + cbn [bind] in H.
      destruct (truthy propertyCode); [| injection H as <-; reflexivity].
      destruct (to_string propertyCode); cbn [bind] in H; [| discriminate H].
      injection H as <-. apply Hbase.
  - intros propertyCode u Hu. unfold buildPropertyUrl.
    assert (Ht : truthy (VStr u) = true) by (destruct u; [discriminate Hu | reflexivity]).
    rewrite Ht. cbn [string_receiver bind]. rewrite Hu. reflexivity.
  - intros propertyCode u Hs Hh. unfold buildPropertyUrl.
    assert (Ht : truthy (VStr u) = true) by (destruct u; [discriminate Hh | reflexivity]).
    rewrite Ht. cbn [string_receiver bind]. rewrite Hs, Hh. reflexivity.
  - intros code url Hurl. unfold buildPropertyUrl.
    assert (Hearly :
              (if truthy url
               then
                 u <- string_receiver url ;;
                 if startsWith u "/" then Ok (Some (BASE_URL ++ u))
                 else if startsWith u "http" then Ok (Some u) else Ok None
               else Ok None) = Ok None).
    { destruct Hurl as [-> | [-> | (u & -> & Hs & Hh)]]; try reflexivity.
      cbn [string_receiver bind]. rewrite Hs, Hh.
      destruct (truthy (VStr u)); reflexivity. }
    rewrite Hearly. cbn [bind truthy to_string].
    destruct (String.eqb code ""); reflexivity.
Qed.

(** The cases at an item with both a relative URL and a property code, and
    at one whose URL has no scheme. *)
Lemma buildPropertyUrl_cases_witness :
  buildPropertyUrl (VStr "33445566") (VStr "/imovel/1/")
  = Ok "https://www.idealista.pt/imovel/1/"
  /\ buildPropertyUrl (VStr "33445566") (VStr "www.idealista.pt/imovel/1/")
     = Ok "https://www.idealista.pt/imovel/33445566/".
Proof.
  destruct buildPropertyUrl_cases as (_ & Hrel & _ & Hcode).
  split.
  - apply (Hrel (VStr "33445566") "/imovel/1/"). reflexivity.
  - apply (Hcode "33445566" (VStr "www.idealista.pt/imovel/1/")).
    right. right. eexists. repeat split.
Defined.

(** ** The fields of a record *)

(** How each field of a record comes from the item: the steps of
    [parsePropertyItem], each with its result. *)
Lemma parsePropertyItem_inversion c item location_ p :
  parsePropertyItem c item location_ = Ok p ->
  nullish item = false
  /\ mapPropertyType (read item "propertyType")
       (or_ (opt_get (read item "detailedType") "typology")
          (read item "detailedType_typology")) = Ok (propertyType p)
  /\ mapTransactionType (read item "operation") = Ok (transactionType p)
  /\ buildPropertyUrl (read item "propertyCode") (read item "url") = Ok (url p)
  /\ (exists cleaned,
        cleanText (or_ (opt_get (read item "suggestedTexts") "title")
                     (read item "address")) = Ok cleaned
        /\ title p = text_or cleaned "Property in Portugal")
  /\ match filter truthy [read item "address"; read item "neighborhood";
                          read item "district"; read item "municipality"] with
     | [] => address (location p) = None
     | parts => exists joined,
                  join ", " parts = Ok joined
                  /\ address (location p) = Some joined
     end
  /\ city (location p) = or_ (read item "municipality") (VStr location_)
  /\ region (location p) = read item "province"
  /\ country (location p) = COUNTRY
  /\ coordinates (location p) =
       (if truthy (read item "latitude") && truthy (read item "longitude")
        then Some (read item "latitude", read item "longitude") else None)
  /\ details p =
       {| bedrooms := read item "rooms"; bathrooms := read item "bathrooms";
          sqm := read item "size"; floor := floor (details p);
          rooms := read item "rooms" |}
  /\ parseFloor (read item "floor") = Ok (floor (details p))
  /\ extractFeatures item = Ok (features p)
  /\ images p =
       (if truthy (read item "thumbnail") then [read item "thumbnail"] else [])
  /\ cleanText (or_ (read item "description")
                  (opt_get (read item "suggestedTexts") "subtitle"))
     = Ok (description p)
  /\ source p = SOURCE /\ currency p = CURRENCY.
Proof.
  intros H. destruct (nullish item) eqn:Hn.
  - rewrite (parsePropertyItem_nullish c item location_ Hn) in H. discriminate H.
  - split; [reflexivity |]. unfold parsePropertyItem in H.
    rewrite !get_ok in H by exact Hn. cbn [bind] in H.
    rewrite !or_else_value in H. cbn [bind] in H.
    destruct (truthy (read item "latitude")) eqn:Elat;
      destruct (truthy (read item "longitude")) eqn:Elon;
      destruct (truthy (read item "thumbnail")) eqn:Eth;
      cbn [bind andb] in H; rewrite ?Elat, ?Elon in H; cbn [bind] in H;
      bind_inversion H; injection H as <-;
      cbn [propertyType transactionType url title location address city region
           country coordinates details floor features images description source
           currency];
      (repeat apply conj; try reflexivity; try assumption;
       [ match goal with
         | E : bind ?m _ = Ok _ |- exists _, _ =>
             let cleaned := fresh "cleaned" in
             destruct m as [cleaned |]; cbn [bind] in E; [| discriminate E];
             injection E as <-; exists cleaned; split; reflexivity
         end
       | match goal with
         | E : match ?l with [] => _ | _ :: _ => _ end = Ok _ |- _ =>
             destruct l; cbn [bind] in E;
             [ injection E as <-; reflexivity
             | match type of E with
               | bind ?m _ = _ =>
                   let joined := fresh "joined" in
                   destruct m as [joined |]; cbn [bind] in E; [| discriminate E];
                   injection E as <-; exists joined; split; reflexivity
               end ]
         end ]).
Qed.

Lemma join_of_strings sep l : join sep (map VStr l) = Ok (join_strings sep l).
Proof.
  induction l as [| x rest IH]; [reflexivity |].
  cbn [map join nullish to_string bind join_strings].
  destruct rest as [| y rest]; [reflexivity |].
  cbn [map] in IH |- *. rewrite IH. reflexivity.
Qed.

Lemma filter_truthy_fragment item k :
  optional TString (read item k) = true ->
  filter truthy [read item k] = map VStr (fragment item k).
Proof.
  unfold fragment. destruct (read item k); try discriminate; try reflexivity.
  intros _. cbn [filter truthy]. destruct (String.eqb s ""); reflexivity.
Qed.

(** The address of a record is made of the item's address, neighbourhood,
    district and municipality, in this order, joined by ", "; fragments that
    are missing or empty are left out, and there is no address when all are. *)
Theorem address_joins_the_fragments :
  forall c item location_ p,
    conforms item = true ->
    parsePropertyItem c item location_ = Ok p ->
    address (location p) =
      match fragments item with
      | [] => None
      | parts => Some (join_strings ", " parts)
      end.
Proof.
  intros c item location_ p Hc Hp.
  destruct (conforms_object item Hc) as [props ->].
  destruct (parsePropertyItem_inversion c _ location_ p Hp)
    as (_ & _ & _ & _ & _ & Haddr & _).
  assert (Hparts :
            filter truthy [read (VObj props) "address"; read (VObj props) "neighborhood";
                           read (VObj props) "district"; read (VObj props) "municipality"]
            = map VStr (fragments (VObj props))).
  { unfold fragments. cbn [flat_map]. rewrite app_nil_r, !map_app.
    rewrite <- !filter_truthy_fragment
      by (apply conforms_field; [exact Hc | cbn; tauto]).
    change [read (VObj props) "address"; read (VObj props) "neighborhood";
            read (VObj props) "district"; read (VObj props) "municipality"]
      with ([read (VObj props) "address"] ++ [read (VObj props) "neighborhood"]
            ++ [read (VObj props) "district"] ++ [read (VObj props) "municipality"])%list.
    rewrite !filter_app. reflexivity. }
  rewrite Hparts in Haddr.
  destruct (fragments (VObj props)) as [| x rest]; [exact Haddr |].
  cbn [map] in Haddr. destruct Haddr as (joined & Hj & ->).
  change (VStr x :: map VStr rest) with (map VStr (x :: rest)) in Hj.
  rewrite join_of_strings in Hj. injection Hj as <-. reflexivity.
Qed.

(** The address of the villa: its empty district and its missing
    neighbourhood are left out. *)
Lemma address_joins_the_fragments_witness :
  exists p,
    parsePropertyItem noon villa_on_the_meridian "faro" = Ok p
    /\ address (location p) = Some "Rua do Sol 3, Faro".
Proof.
  eexists. split; [reflexivity |].
  exact (address_joins_the_fragments noon villa_on_the_meridian "faro" _
           eq_refl eq_refl).
Defined.

(** The city of a record is the item's municipality, or the location that was
    asked for when the item has none; a record has coordinates only when the
    item has a latitude and a longitude that are both other than 0. *)
Theorem city_and_coordinates :
  forall c item location_ p,
    conforms item = true ->
    parsePropertyItem c item location_ = Ok p ->
    city (location p) =
      VStr (match fragment item "municipality" with
            | m :: _ => m
            | [] => location_
            end)
    /\ coordinates (location p) =
         match read item "latitude", read item "longitude" with
         | VNum la, VNum lo =>
             if (la =? 0) || (lo =? 0) then None else Some (VNum la, VNum lo)
         | _, _ => None
         end.
Proof.
  intros c item location_ p Hc Hp.
  destruct (conforms_object item Hc) as [props ->].
  destruct (parsePropertyItem_inversion c _ location_ p Hp)
    as (_ & _ & _ & _ & _ & _ & Hcity & _ & _ & Hcoord & _).
  pose proof (conforms_field props "municipality" TString Hc ltac:(cbn; tauto)) as Hm.
  pose proof (conforms_field props "latitude" TNumber Hc ltac:(cbn; tauto)) as Hla.
  pose proof (conforms_field props "longitude" TNumber Hc ltac:(cbn; tauto)) as Hlo.
  split.
  - rewrite Hcity. unfold fragment, or_.
    destruct (read (VObj props) "municipality"); try discriminate Hm; try reflexivity.
    cbn [truthy]. destruct (String.eqb s ""); reflexivity.
  - rewrite Hcoord.
    destruct (read (VObj props) "latitude") as [| | | la | | |];
      try discriminate Hla; try reflexivity;
      destruct (read (VObj props) "longitude") as [| | | lo | | |];
      try discriminate Hlo; cbn [truthy andb]; try reflexivity;
      try (destruct (la =? 0); reflexivity).
    destruct (la =? 0); destruct (lo =? 0); reflexivity.
Qed.

(** The villa keeps its municipality and, lying on the meridian, has no
    coordinates. *)
Lemma city_and_coordinates_witness :
  exists p,
    parsePropertyItem noon villa_on_the_meridian "algarve" = Ok p
    /\ city (location p) = VStr "Faro"
    /\ coordinates (location p) = None.
Proof.
  eexists. split; [reflexivity |].
  exact (city_and_coordinates noon villa_on_the_meridian "algarve" _ eq_refl eq_refl).
Defined.

Lemma cleanText_some t r :
  cleanText t = Ok (Some r) ->
  tidy (chars r) /\ no_outer_space (chars r).
Proof.
  unfold cleanText. destruct (truthy t); cbn [negb]; [| discriminate].
  destruct t; try discriminate. cbn [string_receiver bind].
  intros H. injection H as <-.
  destruct (clean_chars s) as (_ & Hchars & _ & Ht & Ho). cbv zeta in *.
  rewrite Hchars. split; assumption.
Qed.

(** Every record has a title, and its texts are clean: the title is never
    empty (it is "Property in Portugal" when the item gives none) and neither
    the title nor the description has white space at an end, or any white
    space but single spaces. *)
Theorem title_is_never_empty :
  forall c item location_ p,
    parsePropertyItem c item location_ = Ok p ->
    title p <> ""
    /\ tidy (chars (title p)) /\ no_outer_space (chars (title p))
    /\ (forall d, description p = Some d ->
          tidy (chars d) /\ no_outer_space (chars d))
    /\ (truthy (or_ (opt_get (read item "suggestedTexts") "title")
                  (read item "address")) = false ->
        title p = "Property in Portugal").
Proof.
  intros c item location_ p Hp.
  destruct (parsePropertyItem_inversion c item location_ p Hp)
    as (_ & _ & _ & _ & (cleaned & Hclean & Htitle) & _ & _ & _ & _ & _ & _ & _
        & _ & _ & Hdesc & _).
  assert (Hfallback : tidy (chars "Property in Portugal")
                      /\ no_outer_space (chars "Property in Portugal"))
    by (apply (cleanText_some (VStr "Property in Portugal")); reflexivity).
  assert (Hshape : title p <> "" /\ tidy (chars (title p))
                   /\ no_outer_space (chars (title p))).
  { rewrite Htitle. unfold text_or. destruct cleaned as [r |].
    - destruct (String.eqb r "") eqn:Er.
      + split; [discriminate | exact Hfallback].
      + apply String.eqb_neq in Er. split; [exact Er |].
        apply (cleanText_some _ r Hclean).
    - split; [discriminate | exact Hfallback]. }
  destruct Hshape as (H1 & H2 & H3).
  split; [exact H1 |]. split; [exact H2 |]. split; [exact H3 |]. split.
  - intros d Hd. rewrite Hd in Hdesc. apply (cleanText_some _ d Hdesc).
  - intros Hf. rewrite Htitle. unfold cleanText in Hclean. rewrite Hf in Hclean.
    injection Hclean as <-. reflexivity.
Qed.

(** The title of an item whose suggested title is white space only. *)
Lemma title_is_never_empty_witness :
  exists p,
    parsePropertyItem noon (VObj [("suggestedTexts", VObj [("title", VStr "   ")])])
      "lisboa" = Ok p
    /\ title p = "Property in Portugal"
    /\ title p <> "".
Proof.
  eexists. split; [reflexivity |]. split; [reflexivity |].
  exact (proj1 (title_is_never_empty noon
                  (VObj [("suggestedTexts", VObj [("title", VStr "   ")])])
                  "lisboa" _ eq_refl)).
Defined.

(** ** Features *)

Lemma push_if_value item k name features :
  nullish item = false ->
  push_if item k name features =
  Ok (features ++ (if truthy (read item k) then [name] else []))%list.
Proof.
  intros Hn. unfold push_if. rewrite (get_ok item k Hn). cbn [bind].
  destruct (truthy (read item k)); [reflexivity | rewrite app_nil_r; reflexivity].
Qed.

Lemma push_labels_value lower labels features r :
  push_labels lower labels features = Ok r ->
  r = (features ++ flat_map (label_feature lower) labels)%list.
Proof.
  revert features. induction labels as [| label rest IH]; intros features H.
  - injection H as <-. cbn [flat_map]. rewrite app_nil_r. reflexivity.
  - cbn [push_labels] in H. destruct (nullish label) eqn:Hn.
    + rewrite (get_throw label "text" Hn) in H. discriminate H.
    + rewrite (get_ok label "text" Hn) in H. cbn [bind] in H.
      cbn [flat_map]. unfold label_feature at 1.
      destruct (read label "text") as [| | b | n | s | items | props];
        cbn [truthy] in H;
        try (cbn [bind] in H; rewrite (IH _ H), app_nil_l; reflexivity).
      * destruct b; [discriminate H |].
        cbn [bind] in H. rewrite (IH _ H). reflexivity.
      * destruct (negb (n =? 0)); [discriminate H |].
        cbn [bind] in H. rewrite (IH _ H). reflexivity.
      * destruct (String.eqb s ""); cbn [negb string_receiver bind] in H;
          rewrite (IH _ H); [reflexivity |]. rewrite <- app_assoc. reflexivity.
      * discriminate H.
      * discriminate H.
Qed.

(** The ten tests on the boolean properties of an item leave
    [flag_features]. *)
Lemma extractFeatures_with_flags lower item :
  nullish item = false ->
  extractFeatures_with lower item =
  (if truthy (read item "labels")
   then ls <- array_receiver (read item "labels") ;;
        push_labels lower ls (flag_features item)
   else Ok (flag_features item)).
Proof.
  intros Hn. unfold extractFeatures_with. cbn [bind].
  repeat (rewrite push_if_value by exact Hn; cbn [bind]).
  rewrite (get_ok item "labels" Hn). cbn [bind].
  unfold flag_features. cbn [flat_map feature_flags app].
  rewrite app_nil_r, <- !app_assoc. reflexivity.
Qed.

(** What the labels of an item add to the features [fs]. *)
Lemma labels_value lower item fs features :
  (if truthy (read item "labels")
   then ls <- array_receiver (read item "labels") ;; push_labels lower ls fs
   else Ok fs) = Ok features ->
  features = (fs ++ label_features lower item)%list.
Proof.
  intros H. unfold label_features.
  destruct (read item "labels") as [| | b | n | s | labels | props];
    cbn [truthy array_receiver bind] in H;
    try (injection H as <-; rewrite app_nil_r; reflexivity).
  - destruct b; [discriminate H |].
    injection H as <-. rewrite app_nil_r. reflexivity.
  - destruct (negb (n =? 0)); [discriminate H |].
    injection H as <-. rewrite app_nil_r. reflexivity.
  - destruct (negb (String.eqb s "")); [discriminate H |].
    injection H as <-. rewrite app_nil_r. reflexivity.
  - apply push_labels_value in H. exact H.
  - discriminate H.
Qed.

(** The features of an item are the names of its boolean properties that are
    set, in the order of the source, followed by the lower-cased texts of its
    labels, in the order of the labels; a label without a text adds nothing.
    The texts are lower-cased by the engine ([lower]), whatever its case
    tables are. *)
Theorem extractFeatures_flags_then_labels :
  forall (lower : string -> string) item features,
    extractFeatures_with lower item = Ok features ->
    features = (flag_features item ++ label_features lower item)%list.
Proof.
  intros lower item features H. destruct (nullish item) eqn:Hn.
  - unfold extractFeatures_with in H. cbn [bind] in H. unfold push_if at 1 in H.
    rewrite (get_throw item _ Hn) in H. discriminate H.
  - rewrite (extractFeatures_with_flags lower item Hn) in H.
    apply labels_value in H. exact H.
Qed.

(** The features of the villa. *)
Lemma extractFeatures_flags_then_labels_witness :
  extractFeatures villa_on_the_meridian = Ok ["swimming pool"; "vista mar"].
Proof.
  assert (H : exists fs, extractFeatures villa_on_the_meridian = Ok fs)
    by (eexists; reflexivity).
  destruct H as [fs H]. rewrite H.
  rewrite (extractFeatures_flags_then_labels toLowerCase villa_on_the_meridian
             fs H).
  reflexivity.
Defined.

(** ** Amenities of a record *)

Lemma flag_true_iff a features :
  flag a (extractAmenities features) = true
  <-> exists label term,
        In label features /\ In term (terms_of a)
        /\ includes (toLowerCase label) term = true.
Proof.
  rewrite flag_extractAmenities, existsb_In_iff. split.
  - intros (f & Hf & Hm). apply in_map_iff in Hf as (label & <- & Hl).
    apply existsb_In_iff in Hm as (term & Ht & Hi). exists label, term. auto.
  - intros (label & term & Hl & Ht & Hi).
    exists (toLowerCase label). split; [apply in_map; exact Hl |].
    apply existsb_In_iff. exists term. auto.
Qed.

Lemma flag_app a fs1 fs2 :
  flag a (extractAmenities (fs1 ++ fs2)) =
  flag a (extractAmenities fs1) || flag a (extractAmenities fs2).
Proof. rewrite !flag_extractAmenities, map_app. apply existsb_app. Qed.

(** The amenity flags of a list of features are the flags of its parts
    or-ed together: no flag is set without a feature, adding features never
    clears a flag, and their order does not matter.  A garage is parking
    too: [has_garage] never holds without [has_parking]. *)
Theorem amenities_accumulate :
  (forall a, flag a (extractAmenities []) = false)
  /\ (forall a fs1 fs2,
        flag a (extractAmenities (fs1 ++ fs2)) =
        flag a (extractAmenities fs1) || flag a (extractAmenities fs2))
  /\ (forall a fs1 fs2,
        flag a (extractAmenities (fs1 ++ fs2)) = flag a (extractAmenities (fs2 ++ fs1)))
  /\ (forall features,
        flag Garage (extractAmenities features) = true ->
        flag Parking (extractAmenities features) = true).
Proof.
  split; [| split; [| split]].
  - intros a. destruct a; reflexivity.
  - apply flag_app.
  - intros a fs1 fs2. rewrite !flag_app. apply orb_comm.
  - intros features H. apply flag_true_iff in H as (label & term & Hl & Ht & Hi).
    apply flag_true_iff. exists label, term. repeat split; auto.
    cbn [terms_of In] in Ht |- *. tauto.
Qed.

(** A label that mentions a garage sets both flags. *)
Lemma amenities_accumulate_witness :
  flag Parking (extractAmenities ["Box / Garagem"]) = true.
Proof.
  destruct amenities_accumulate as (_ & _ & _ & H).
  apply H. reflexivity.
Defined.

Lemma byte_ascii_of_N n : (n < 256)%N -> byte (ascii_of_N n) = n.
Proof. intros H. unfold byte. apply N_ascii_embedding. exact H. Qed.

Lemma byte_bound c : (byte c < 256)%N.
Proof. apply N_ascii_bounded. Qed.

Lemma lower_char_idempotent ch : lower_char (lower_char ch) = lower_char ch.
Proof.
  destruct ch as [| c [| d [| e rest]]]; try reflexivity.
  - cbn [lower_char].
    destruct ((65 <=? byte c) && (byte c <=? 90))%N eqn:E; cbn [lower_char].
    + apply andb_true_iff in E as [E1 E2].
      apply N.leb_le in E1. apply N.leb_le in E2.
      rewrite byte_ascii_of_N by lia.
      assert (E3 : (byte c + 32 <=? 90)%N = false) by (apply N.leb_gt; lia).
      rewrite E3, andb_false_r. reflexivity.
    + rewrite E. reflexivity.
  - cbn [lower_char].
    destruct ((byte c =? 195) && (128 <=? byte d) && (byte d <=? 158)
              && negb (byte d =? 151))%N eqn:E; cbn [lower_char].
    + apply andb_true_iff in E as [E E4]. apply andb_true_iff in E as [E E3].
      apply andb_true_iff in E as [E1 E2].
      apply N.leb_le in E2. apply N.leb_le in E3.
      rewrite byte_ascii_of_N by lia.
      assert (E5 : (byte d + 32 <=? 158)%N = false) by (apply N.leb_gt; lia).
      rewrite E5, andb_false_r. reflexivity.
    + rewrite E. reflexivity.
Qed.

Lemma lower_char_well_formed b l :
  well_formed b l -> well_formed b (map lower_char l).
Proof.
  revert b. induction l as [| ch rest IH]; intros b; [intros; exact I |].
  cbn [map well_formed]. intros [(c & tail & -> & Htail & Hfirst) Hrest].
  split; [| apply IH, Hrest].
  destruct tail as [| d [| e tail]].
  - cbn [lower_char].
    destruct ((65 <=? byte c) && (byte c <=? 90))%N eqn:E.
    + exists (ascii_of_N (byte c + 32)), "". repeat split; [intros x [] |].
      right. apply andb_true_iff in E as [E1 E2].
      apply N.leb_le in E1. apply N.leb_le in E2.
      unfold is_continuation. rewrite byte_ascii_of_N by lia.
      apply andb_false_iff. left. apply N.leb_gt. lia.
    + exists c, "". auto.
  - cbn [lower_char].
    destruct ((byte c =? 195) && (128 <=? byte d) && (byte d <=? 158)
              && negb (byte d =? 151))%N eqn:E.
    + exists c, (String (ascii_of_N (byte d + 32)) ""). repeat split; auto.
      intros x [<- | []].
      apply andb_true_iff in E as [E E4]. apply andb_true_iff in E as [E E3].
      apply andb_true_iff in E as [E1 E2].
      apply N.leb_le in E2. apply N.leb_le in E3.
      unfold is_continuation. rewrite byte_ascii_of_N by lia.
      apply andb_true_iff. split; apply N.leb_le; lia.
    + exists c, (String d ""). auto.
  - exists c, (String d (String e tail)). auto.
Qed.

(** Lower-casing twice is lower-casing once. *)
Lemma toLowerCase_idempotent s : toLowerCase (toLowerCase s) = toLowerCase s.
Proof.
  unfold toLowerCase.
  rewrite chars_unchars by (apply lower_char_well_formed, chars_well_formed).
  rewrite map_map. f_equal. apply map_ext. intros ch. apply lower_char_idempotent.
Qed.

(** What the item says about amenities reaches the amenity flags of its
    record: a boolean property that is set ([hasLift], [hasParkingSpace],
    [hasSwimmingPool], [hasTerrace], [hasGarden], [newDevelopment]) sets the
    flag of its amenity, and so does a label whose lower-cased text contains
    a term of the amenity. *)
Theorem amenities_follow_flags_and_labels :
  forall c item location_ p,
    parsePropertyItem c item location_ = Ok p ->
    (forall k a,
       In (k, a) flag_amenities -> truthy (read item k) = true ->
       flag a (extractAmenities (features p)) = true)
    /\ (forall labels label s a term,
          read item "labels" = VArr labels -> In label labels ->
          read label "text" = VStr s ->
          In term (terms_of a) -> includes (toLowerCase s) term = true ->
          flag a (extractAmenities (features p)) = true).
Proof.
  intros c item location_ p Hp.
  destruct (parsePropertyItem_inversion c item location_ p Hp)
    as (_ & _ & _ & _ & _ & _ & _ & _ & _ & _ & _ & _ & Hf & _).
  assert (Hitem : nullish item = false).
  { destruct (nullish item) eqn:Hn; [| reflexivity].
    unfold extractFeatures, extractFeatures_with in Hf. cbn [bind] in Hf.
    unfold push_if at 1 in Hf. rewrite (get_throw item _ Hn) in Hf.
    discriminate Hf. }
  unfold extractFeatures in Hf.
  rewrite (extractFeatures_with_flags toLowerCase item Hitem) in Hf.
  apply labels_value in Hf. rewrite Hf.
  split.
  - intros k a Hin Hk. rewrite flag_app. apply orb_true_iff. left.
    assert (Hname : forall name, In (k, name) feature_flags ->
                      In name (flag_features item)).
    { intros name Hn. unfold flag_features. apply in_flat_map.
      exists (k, name). split; [exact Hn |]. rewrite Hk. left. reflexivity. }
    apply flag_true_iff. cbn [flag_amenities In] in Hin.
    repeat (destruct Hin as [Hin | Hin];
            [injection Hin as <- <-;
             eexists; eexists; split;
             [apply Hname; cbn [feature_flags In];
              repeat (first [left; reflexivity | right])
             | split; [left; reflexivity | reflexivity]] |]).
    contradiction.
  - intros labels label s a term Hlabels Hin Htext Hterm Hincl.
    rewrite flag_app. apply orb_true_iff. right.
    apply flag_true_iff. exists (toLowerCase s), term.
    repeat split; auto.
    + unfold label_features. rewrite Hlabels. apply in_flat_map.
      exists label. split; [exact Hin |]. unfold label_feature. rewrite Htext.
      destruct (String.eqb s "") eqn:Es; [| left; reflexivity].
      apply String.eqb_eq in Es. subst s.
      destruct term; [| discriminate Hincl].
      exfalso. clear - Hterm. destruct a; cbn in Hterm;
        repeat (destruct Hterm as [Hterm | Hterm]; [discriminate Hterm |]);
        exact Hterm.
    + rewrite toLowerCase_idempotent. exact Hincl.
Qed.

(** The villa has a pool, by its [hasSwimmingPool]. *)
Lemma amenities_follow_flags_and_labels_witness :
  exists p,
    parsePropertyItem noon villa_on_the_meridian "faro" = Ok p
    /\ flag Pool (extractAmenities (features p)) = true.
Proof.
  eexists. split; [reflexivity |].
  refine (proj1 (amenities_follow_flags_and_labels noon villa_on_the_meridian
                   "faro" _ eq_refl) "hasSwimmingPool" Pool _ eq_refl).
  cbn. tauto.
Defined.

(** ** Pages of items *)

Lemma successes_In_inv tick i items location_ p :
  In p (successes tick i items location_) ->
  exists n item,
    nth_error items n = Some item
    /\ parsePropertyItem (tick (i + n)%nat) item location_ = Ok p.
Proof.
  revert i. induction items as [| x rest IH]; intros i H; [destruct H |].
  cbn [successes] in H. apply in_app_or in H as [H | H].
  - unfold parsed in H. destruct (parsePropertyItem (tick i) x location_) eqn:E;
      [| destruct H]. destruct H as [<- | []].
    exists 0%nat, x. rewrite Nat.add_0_r. auto.
  - destruct (IH (S i) H) as (n & item & Hn & Hp).
    exists (S n), item. rewrite Nat.add_succ_r. auto.
Qed.

Lemma successes_length tick i items location_ :
  (List.length (successes tick i items location_) <= List.length items)%nat.
Proof.
  revert i. induction items as [| x rest IH]; intros i; [apply Nat.le_refl |].
  cbn [successes]. rewrite length_app. specialize (IH (S i)).
  unfold parsed. destruct (parsePropertyItem (tick i) x location_);
    cbn [List.length]; lia.
Qed.

Lemma successes_conforming tick i items location_ :
  forallb conforms items = true ->
  List.length (successes tick i items location_) = List.length items
  /\ forall n item,
       nth_error items n = Some item ->
       exists p,
         nth_error (successes tick i items location_) n = Some p
         /\ parsePropertyItem (tick (i + n)%nat) item location_ = Ok p.
Proof.
  revert i. induction items as [| x rest IH]; intros i H.
  - split; [reflexivity |]. intros n item Hn. destruct n; discriminate Hn.
  - cbn [forallb] in H. apply andb_true_iff in H as [Hx Hrest].
    destruct (IH (S i) Hrest) as [Hlen Hnth].
    destruct (parsePropertyItem_total (tick i) x location_ Hx) as [p Hp].
    cbn [successes]. unfold parsed. rewrite Hp. cbn [app List.length].
    split; [rewrite Hlen; reflexivity |].
    intros n item Hn. destruct n as [| n]; cbn [nth_error] in Hn |- *.
    + injection Hn as <-. exists p. rewrite Nat.add_0_r. auto.
    + destruct (Hnth n item Hn) as (q & Hq & Hpq).
      exists q. rewrite Nat.add_succ_r. auto.
Qed.

(** [parseNextData] invents nothing and, on well-typed pages, loses nothing:
    every record it returns is the record of an item of the page, there are
    never more records than items, and when every item conforms to the
    interface there is exactly one record per item, in page order. *)
Theorem parseNextData_records_are_items :
  forall tick nextData location_,
    (forall p,
       In p (parseNextData tick nextData location_) ->
       exists items n item,
         opt_get (searchData_of nextData) "elementList" = VArr items
         /\ nth_error items n = Some item
         /\ parsePropertyItem (tick n) item location_ = Ok p)
    /\ (forall items,
          opt_get (searchData_of nextData) "elementList" = VArr items ->
          (List.length (parseNextData tick nextData location_)
           <= List.length items)%nat)
    /\ (forall items,
          opt_get (searchData_of nextData) "elementList" = VArr items ->
          forallb conforms items = true ->
          List.length (parseNextData tick nextData location_) = List.length items
          /\ forall n item,
               nth_error items n = Some item ->
               exists p,
                 nth_error (parseNextData tick nextData location_) n = Some p
                 /\ parsePropertyItem (tick n) item location_ = Ok p).
Proof.
  intros tick nextData location_. rewrite parseNextData_cases.
  split; [| split].
  - intros p Hin.
    destruct (opt_get (searchData_of nextData) "elementList");
      try (destruct Hin).
    destruct (successes_In_inv tick 0%nat items location_ p Hin)
      as (n & item & Hn & Hp).
    exists items, n, item. auto.
  - intros items ->. apply successes_length.
  - intros items -> Hall. apply (successes_conforming tick 0%nat items location_ Hall).
Qed.

(** A page of two well-typed items gives two records. *)
Lemma parseNextData_records_are_items_witness :
  List.length
    (parseNextData (fun _ => noon) (page_with [flat_in_lisboa; empty_item]) "lisboa")
  = 2%nat.
Proof.
  destruct (parseNextData_records_are_items (fun _ => noon)
              (page_with [flat_in_lisboa; empty_item]) "lisboa") as (_ & _ & H).
  apply (H [flat_in_lisboa; empty_item] eq_refl eq_refl).
Defined.

(** ** Search metadata and the next page *)

(** The metadata of a page always has page numbers: [currentPage] and
    [totalPages] are never missing and never 0 (1 stands in for them), and
    [total] is never missing.  [currentPage] falls back on [actualPage].
    A state without search data gives 0 results on page 1 of 1. *)
Theorem extractSearchMetadata_defaults :
  forall nextData,
    let m := extractSearchMetadata nextData in
    truthy (Parser.currentPage m) = true
    /\ truthy (totalPages m) = true
    /\ nullish (total m) = false
    /\ (nullish (searchData_of nextData) = true ->
        m = {| total := VNum 0; Parser.currentPage := VNum 1; totalPages := VNum 1 |})
    /\ (truthy (opt_get (searchData_of nextData) "currentPage") = false ->
        truthy (opt_get (searchData_of nextData) "actualPage") = true ->
        Parser.currentPage m = opt_get (searchData_of nextData) "actualPage").
Proof.
  intros nextData m. unfold m, extractSearchMetadata.
  cbn [Parser.currentPage totalPages total].
  split; [| split; [| split; [| split]]].
  - rewrite !truthy_or_. apply orb_true_r.
  - rewrite truthy_or_. apply orb_true_r.
  - unfold or_. destruct (truthy (opt_get (searchData_of nextData) "total")) eqn:E;
      [| reflexivity].
    destruct (opt_get (searchData_of nextData) "total"); try discriminate E;
      reflexivity.
  - intros Hn. unfold opt_get at 1 2 3 4. rewrite Hn. reflexivity.
  - intros Hc Ha. rewrite (or_right _ _ Hc). apply or_left. exact Ha.
Qed.

(** The metadata of a state that has neither page number. *)
Lemma extractSearchMetadata_defaults_witness :
  extractSearchMetadata (state_with (VObj [("total", VNum 120)]))
  = {| total := VNum 120; Parser.currentPage := VNum 1; totalPages := VNum 1 |}
  /\ extractSearchMetadata VNull
     = {| total := VNum 0; Parser.currentPage := VNum 1; totalPages := VNum 1 |}.
Proof.
  split; [reflexivity |].
  apply (proj1 (proj2 (proj2 (proj2 (extractSearchMetadata_defaults VNull))))).
  reflexivity.
Defined.

(** [hasNextPage] compares the two page numbers of the search data, each
    read as 1 when it is missing or 0: without a [totalPages] there is a next
    page only for a current page below 1.  It does not look at [actualPage]:
    for search data that give the page as [actualPage], the metadata are on
    the last page while [hasNextPage] still answers yes. *)
Theorem hasNextPage_compares_page_numbers :
  forall compare_other nextData,
    let searchData := searchData_of nextData in
    optional TNumber (opt_get searchData "currentPage") = true ->
    optional TNumber (opt_get searchData "totalPages") = true ->
    Page.hasNextPage compare_other nextData
    = (page_or_1 (opt_get searchData "currentPage")
       <? page_or_1 (opt_get searchData "totalPages"))
    /\ (truthy (opt_get searchData "totalPages") = false ->
        Page.hasNextPage compare_other nextData
        = (page_or_1 (opt_get searchData "currentPage") <? 1))
    /\ (forall last,
          nullish (opt_get searchData "currentPage") = true ->
          opt_get searchData "actualPage" = VNum last ->
          opt_get searchData "totalPages" = VNum last ->
          1 < last ->
          Parser.currentPage (extractSearchMetadata nextData) = VNum last
          /\ totalPages (extractSearchMetadata nextData) = VNum last
          /\ Page.hasNextPage compare_other nextData = true).
Proof.
  intros compare_other nextData searchData Hc Ht.
  assert (Hnum : forall v, optional TNumber v = true ->
                   or_ v (VNum 1) = VNum (page_or_1 v)).
  { intros v Hv. destruct v; try discriminate Hv; try reflexivity.
    unfold or_, page_or_1. cbn [truthy]. destruct (n =? 0); reflexivity. }
  assert (Heq : Page.hasNextPage compare_other nextData
                = (page_or_1 (opt_get searchData "currentPage")
                   <? page_or_1 (opt_get searchData "totalPages"))).
  { unfold Page.hasNextPage. fold searchData.
    rewrite (Hnum _ Hc), (Hnum _ Ht). reflexivity. }
  split; [exact Heq |]. split.
  - intros Hf. rewrite Heq. f_equal.
    destruct (opt_get searchData "totalPages"); try discriminate Ht; try reflexivity.
    cbn [truthy] in Hf. apply negb_false_iff in Hf. unfold page_or_1. rewrite Hf.
    reflexivity.
  - intros last Hcur Hact Htot Hlast.
    unfold extractSearchMetadata. fold searchData.
    cbn [Parser.currentPage totalPages].
    assert (E0 : (last =? 0) = false) by (apply Z.eqb_neq; lia).
    assert (Hcf : truthy (opt_get searchData "currentPage") = false)
      by (destruct (opt_get searchData "currentPage"); try discriminate Hcur;
          reflexivity).
    rewrite (or_right _ _ Hcf), Hact, Htot.
    unfold or_. cbn [truthy]. rewrite E0. cbn [negb].
    split; [reflexivity |]. split; [reflexivity |].
    rewrite Heq, Htot.
    destruct (opt_get searchData "currentPage"); try discriminate Hcur;
      unfold page_or_1; rewrite E0; apply Z.ltb_lt; lia.
Qed.

(** The last page of three, given as [actualPage]. *)
Lemma hasNextPage_compares_page_numbers_witness :
  Page.hasNextPage (fun _ _ => false)
    (state_with (VObj [("actualPage", VNum 3); ("totalPages", VNum 3)])) = true
  /\ Parser.currentPage
       (extractSearchMetadata
          (state_with (VObj [("actualPage", VNum 3); ("totalPages", VNum 3)])))
     = VNum 3.
Proof.
  destruct (hasNextPage_compares_page_numbers (fun _ _ => false)
              (state_with (VObj [("actualPage", VNum 3); ("totalPages", VNum 3)]))
              eq_refl eq_refl) as (_ & _ & H).
  destruct (H 3 eq_refl eq_refl eq_refl ltac:(lia)) as (Hm & _ & Hn).
  split; [exact Hn | exact Hm].
Defined.

(** ** Search URLs *)

Lemma to_int_not_nil n :
  Z.to_int n <> Decimal.Pos Decimal.Nil /\ Z.to_int n <> Decimal.Neg Decimal.Nil.
Proof.
  destruct n as [| p | p]; cbn; split; try discriminate;
    intros H; injection H as H; exact (DecimalPos.Unsigned.to_uint_nonnil p H).
Qed.

Lemma number_to_string_inj a b : number_to_string a = number_to_string b -> a = b.
Proof.
  unfold number_to_string. intros H.
  apply DecimalZ.to_int_inj.
  assert (E : Some (Z.to_int a) = Some (Z.to_int b)).
  { rewrite <- (NilZero.isi (Z.to_int a)) by apply to_int_not_nil.
    rewrite <- (NilZero.isi (Z.to_int b)) by apply to_int_not_nil.
    rewrite H. reflexivity. }
  injection E as E. exact E.
Qed.

Lemma append_assoc (a b c : string) : (a ++ b) ++ c = a ++ (b ++ c).
Proof. induction a as [| ch a IH]; cbn; [| rewrite IH]; reflexivity. Qed.

Lemma append_inj_l (a x y : string) : a ++ x = a ++ y -> x = y.
Proof.
  induction a as [| ch a IH]; cbn; intros H; [exact H |].
  injection H as H. exact (IH H).
Qed.

Lemma list_ascii_of_append (x a : string) :
  list_ascii_of_string (x ++ a)
  = (list_ascii_of_string x ++ list_ascii_of_string a)%list.
Proof. induction x as [| ch x IH]; cbn; [| rewrite IH]; reflexivity. Qed.

Lemma append_inj_r (a x y : string) : x ++ a = y ++ a -> x = y.
Proof.
  intros H. apply (f_equal list_ascii_of_string) in H.
  rewrite !list_ascii_of_append in H. apply app_inv_tail in H.
  apply (f_equal string_of_list_ascii) in H.
  rewrite !string_of_list_ascii_of_string in H. exact H.
Qed.

Lemma buildSearchUrl_split location_ t page :
  Page.buildSearchUrl location_ t page
  = Page.buildSearchUrl location_ t 1
    ++ (if 1 <? page then "pagina-" ++ number_to_string page ++ ".html" else "").
Proof.
  unfold Page.buildSearchUrl. cbn [Z.ltb Z.compare].
  rewrite !append_assoc. reflexivity.
Qed.

(** The search URL of a page.  Page 1, and any page number below it, is the
    bare listing URL of the location; from page 1 on, different pages have
    different URLs; and a sale URL is never a rent URL. *)
Theorem buildSearchUrl_pages :
  forall location_ t,
    (forall page,
       page <= 1 ->
       Page.buildSearchUrl location_ t page
       = BASE_URL ++ "/"
         ++ match t with sale => "comprar-casas" | rent => "arrendar-casas" end
         ++ "/" ++ location_ ++ "/")
    /\ (forall p q,
          1 <= p -> 1 <= q ->
          Page.buildSearchUrl location_ t p = Page.buildSearchUrl location_ t q ->
          p = q)
    /\ (forall p q,
          Page.buildSearchUrl location_ sale p
          <> Page.buildSearchUrl location_ rent q).
Proof.
  intros location_ t. split; [| split].
  - intros page Hp. unfold Page.buildSearchUrl.
    replace (1 <? page) with false by (symmetry; apply Z.ltb_ge; exact Hp).
    reflexivity.
  - intros p q Hp Hq H.
    rewrite (buildSearchUrl_split location_ t p),
      (buildSearchUrl_split location_ t q) in H.
    apply append_inj_l in H.
    destruct (1 <? p) eqn:Ep, (1 <? q) eqn:Eq.
    + apply (append_inj_l "pagina-") in H. apply append_inj_r in H.
      exact (number_to_string_inj p q H).
    + discriminate H.
    + discriminate H.
    + apply Z.ltb_ge in Ep, Eq. lia.
  - intros p q H. unfold Page.buildSearchUrl in H. cbn in H. discriminate H.
Qed.

(** Pages 2 and 3 of the sale listings of Lisboa are at different URLs. *)
Lemma buildSearchUrl_pages_witness :
  Page.buildSearchUrl "lisboa" sale 0 = "https://www.idealista.pt/comprar-casas/lisboa/"
  /\ (Page.buildSearchUrl "lisboa" sale 2 = Page.buildSearchUrl "lisboa" sale 3 ->
      2 = 3).
Proof.
  destruct (buildSearchUrl_pages "lisboa" sale) as (H1 & H2 & _).
  split.
  - exact (H1 0 ltac:(lia)).
  - exact (H2 2 3 ltac:(lia) ltac:(lia)).
Defined.

(** ** How a crawl ends *)

Section CrawlEnds.

Variable World : Type.
Variable scrapePage :
  World -> string -> transaction -> Z -> (thrown + ScrapeResult) * World.
Variable pause : World -> World.
Variable location : string.
Variable transactionType : transaction.
Variable maxPages_ : Z.
Variable limit_ : option Z.

(** Which fetches the loop goes past, and on which fetch it ends. *)
Lemma page_loop_ends page w acc log :
  exists new,
    fetched World
      (page_loop World scrapePage pause location transactionType maxPages_ limit_
         page w acc log) = (log ++ new)%list
    /\ match exit World
               (page_loop World scrapePage pause location transactionType
                  maxPages_ limit_ page w acc log) with
       | PagesExhausted =>
           forallb goes_on new = true
           /\ Z.of_nat (List.length new) = Z.max 0 (maxPages_ + 1 - page)
       | e =>
           exists pre n outcome,
             new = (pre ++ [(n, outcome)])%list
             /\ forallb goes_on pre = true
             /\ ends e outcome
       end.
Proof.
  funelim (page_loop World scrapePage pause location transactionType maxPages_
             limit_ page w acc log).
  - exists []. cbn [fetched exit]. rewrite app_nil_r. split; [reflexivity |].
    split; [reflexivity |]. cbn [List.length]. lia.
  - exists [(page, inl error)]. cbn [fetched exit]. split; [reflexivity |].
    exists [], page, (inl error). cbn [ends]. auto.
  - destruct H as (new & Hf & He).
    exists ((page, inl error) :: new). rewrite Hf, <- app_assoc.
    split; [reflexivity |].
    destruct (exit World _).
    1-3: destruct He as (pre & n & outcome & -> & Hpre & Hend);
      exists ((page, inl error) :: pre), n, outcome;
      cbn [forallb goes_on snd]; rewrite Heq, Hpre; auto.
    destruct He as [Hall Hlen]. cbn [forallb goes_on snd List.length].
    rewrite Heq, Hall. split; [reflexivity | lia].
  - exists [(page, inr result0)]. cbn [fetched exit]. split; [reflexivity |].
    exists [], page, (inr result0). cbn [ends]. auto.
  - destruct H as (new & Hf & He).
    exists ((page, inr result0) :: new). rewrite Hf, <- app_assoc.
    split; [reflexivity |].
    destruct (exit World _).
    1-3: destruct He as (pre & n & outcome & -> & Hpre & Hend);
      exists ((page, inr result0) :: pre), n, outcome;
      cbn [forallb goes_on snd]; rewrite Heq, Hpre; auto.
    destruct He as [Hall Hlen]. cbn [forallb goes_on snd List.length].
    rewrite Heq, Hall. split; [reflexivity | lia].
  - exists [(page, inr result0)]. cbn [fetched exit]. split; [reflexivity |].
    exists [], page, (inr result0). cbn [ends]. auto.
Qed.

(** Beyond the page cap the loop does nothing. *)
Lemma page_loop_exhausted page w acc log :
  maxPages_ < page ->
  page_loop World scrapePage pause location transactionType maxPages_ limit_
    page w acc log
  = {| allProperties := acc; fetched := log; exit := PagesExhausted; world := w |}.
Proof.
  intros Hlt.
  funelim (page_loop World scrapePage pause location transactionType maxPages_
             limit_ page w acc log); try lia.
  reflexivity.
Qed.

End CrawlEnds.

(** The crawl of a location goes past a fetch only when the page announced a
    next page or the fetch failed without being blocked: every fetch but the
    last is of that kind, so a failure that is not a block is skipped, not
    retried.  The crawl ends for want of pages only on a page that announces
    no next page, for a block only on a blocked fetch, and when it ends at
    the page cap it has fetched every page up to the cap. *)
Theorem scrapeLocation_stop_reasons :
  forall World scrapePage pause w location transactionType options,
    let o :=
      scrapeLocation World scrapePage pause w location transactionType options in
    (forall before entry after,
       pages World o = (before ++ entry :: after)%list -> after <> [] ->
       goes_on entry = true)
    /\ (stop World o = NoMorePages ->
        exists before n result,
          pages World o = (before ++ [(n, inr result)])%list
          /\ hasNextPage result = false)
    /\ (stop World o = BlockedStop ->
        exists before n error,
          pages World o = (before ++ [(n, inl error)])%list
          /\ is_blocked error = true)
    /\ (stop World o = PagesExhausted ->
        Z.of_nat (List.length (pages World o)) = Z.max 0 (page_cap options)
        /\ forallb goes_on (pages World o) = true).
Proof.
  intros World scrapePage pause w location transactionType options o.
  destruct (page_loop_ends World scrapePage pause location transactionType
              (page_cap options) (limit options) 1 w [] []) as (new & Hf & He).
  assert (Hpages : pages World o = new) by exact Hf.
  assert (Hstop : stop World o
                  = exit World
                      (page_loop World scrapePage pause location transactionType
                         (page_cap options) (limit options) 1 w [] []))
    by reflexivity.
  rewrite Hpages, Hstop. clear Hpages Hstop Hf.
  destruct (exit World _).
  1-3: destruct He as (pre & n & outcome & -> & Hpre & Hend).
  4: destruct He as [Hall Hlen].
  all: split; [| split; [| split]]; try discriminate.
  1,2,4: intros before entry after E Hafter;
    destruct (exists_last Hafter) as (after' & x & ->);
    change (before ++ entry :: after' ++ [x])%list
      with (before ++ (entry :: after') ++ [x])%list in E;
    rewrite app_assoc in E; apply app_inj_tail in E as [-> _];
    rewrite forallb_app in Hpre; apply andb_true_iff in Hpre as [_ Hpre];
    cbn [forallb] in Hpre; apply andb_true_iff in Hpre as [Hpre _]; exact Hpre.
  - intros _. destruct outcome as [error | result]; [destruct Hend |].
    exists pre, n, result. auto.
  - intros _. destruct outcome as [error | result]; [| destruct Hend].
    exists pre, n, error. auto.
  - intros before entry after E _. rewrite E, forallb_app in Hall.
    apply andb_true_iff in Hall as [_ Hall]. cbn [forallb] in Hall.
    apply andb_true_iff in Hall as [Hall _]. exact Hall.
  - intros _. split; [lia | exact Hall].
Qed.

(** A session whose first fetch times out, capped at two pages: both pages
    are fetched. *)
Lemma scrapeLocation_stop_reasons_witness :
  stop unit
    (scrapeLocation unit timeout_then_three_pages no_pause tt "lisboa" sale
       {| maxPages := Some 2; limit := None |}) = PagesExhausted
  /\ List.length
       (pages unit
          (scrapeLocation unit timeout_then_three_pages no_pause tt "lisboa" sale
             {| maxPages := Some 2; limit := None |})) = 2%nat.
Proof.
  split; [reflexivity |].
  destruct (scrapeLocation_stop_reasons unit timeout_then_three_pages no_pause tt
              "lisboa" sale {| maxPages := Some 2; limit := None |})
    as (_ & _ & _ & H).
  destruct (H eq_refl) as [Hlen _]. cbn [page_cap maxPages] in Hlen.
  apply Nat2Z.inj. rewrite Hlen. reflexivity.
Defined.

(** Without a record limit, and with a limit of 0, which counts as none, the
    crawl never stops for the limit and returns every record of every page
    it fetched, in order. *)
Theorem scrapeLocation_without_limit :
  forall World scrapePage pause w location transactionType options,
    let o :=
      scrapeLocation World scrapePage pause w location transactionType options in
    limit options = None \/ limit options = Some 0 ->
    stop World o <> ReachedLimit
    /\ records World o = flat_map got (pages World o).
Proof.
  intros World scrapePage pause w location transactionType options o Hlim.
  destruct (page_loop_facts World scrapePage pause location transactionType
              (page_cap options) (limit options) 1 w [] [])
    as (new & Hf & _ & _ & Ha & _ & Hreached & _).
  assert (Hno : forall n, limit_reached (limit options) n = false)
    by (intros n; destruct Hlim as [-> | ->]; reflexivity).
  split.
  - intros Hstop. apply Hreached in Hstop. rewrite Hno in Hstop. discriminate Hstop.
  - unfold o, scrapeLocation. cbn [records pages]. fold (page_cap options).
    rewrite Hf, Ha. cbn [app].
    destruct Hlim as [-> | ->]; reflexivity.
Qed.

(** A limit of 0 keeps the ten records of the two pages that load. *)
Lemma scrapeLocation_without_limit_witness :
  List.length
    (records unit
       (scrapeLocation unit timeout_then_three_pages no_pause tt "lisboa" sale
          {| maxPages := None; limit := Some 0 |})) = 10%nat.
Proof.
  destruct (scrapeLocation_without_limit unit timeout_then_three_pages no_pause tt
              "lisboa" sale {| maxPages := None; limit := Some 0 |}
              (or_intror eq_refl)) as [_ H].
  rewrite H. reflexivity.
Defined.

(** With a page cap of 0 or less the crawl fetches nothing: it returns no
    record and leaves the session as it found it. *)
Theorem scrapeLocation_without_pages :
  forall World scrapePage pause w location transactionType options,
    let o :=
      scrapeLocation World scrapePage pause w location transactionType options in
    page_cap options <= 0 ->
    pages World o = []
    /\ records World o = []
    /\ stop World o = PagesExhausted
    /\ final_world World o = w.
Proof.
  intros World scrapePage pause w location transactionType options o Hcap.
  unfold o, scrapeLocation. fold (page_cap options).
  rewrite page_loop_exhausted by lia.
  cbn [records pages stop final_world allProperties fetched exit world].
  repeat apply conj; try reflexivity.
  unfold trim_to_limit, slice0. destruct (limit options) as [l |]; [| reflexivity].
  destruct (l =? 0); [reflexivity |]. destruct (l <? 0); apply firstn_nil.
Qed.

(** No fetch under a cap of 0. *)
Lemma scrapeLocation_without_pages_witness :
  pages unit
    (scrapeLocation unit single_page_session no_pause tt "lisboa" sale
       {| maxPages := Some 0; limit := None |}) = [].
Proof.
  apply (scrapeLocation_without_pages unit single_page_session no_pause tt
           "lisboa" sale {| maxPages := Some 0; limit := None |}).
  cbn [page_cap maxPages]. lia.
Defined.

(** ** Several locations *)

Lemma trim_length_le l (xs : list Property) :
  1 <= l -> Z.of_nat (List.length (trim_to_limit (Some l) xs)) <= l.
Proof.
  intros Hl. unfold trim_to_limit, slice0.
  assert (E0 : (l =? 0) = false) by (apply Z.eqb_neq; lia).
  assert (E1 : (l <? 0) = false) by (apply Z.ltb_ge; lia).
  rewrite E0, E1, length_firstn. lia.
Qed.

Lemma indexOf_first_occurrence before x after :
  ~ In x before ->
  indexOf (before ++ x :: after) x = Z.of_nat (List.length before).
Proof.
  induction before as [| y before IH]; intros Hnot.
  - cbn [app indexOf List.length]. rewrite String.eqb_refl. reflexivity.
  - cbn [app indexOf List.length].
    assert (Hyx : String.eqb y x = false)
      by (apply String.eqb_neq; intros ->; apply Hnot; left; reflexivity).
    rewrite Hyx, IH by (intros Hin; apply Hnot; right; exact Hin).
    replace (Z.of_nat (List.length before) <? 0) with false
      by (symmetry; apply Z.ltb_ge; lia).
    lia.
Qed.

Section LocationsFacts.

Variable World : Type.
Variable scrapePage :
  World -> string -> transaction -> Z -> (thrown + ScrapeResult) * World.
Variable pause pause_between : World -> World.
Variable locations : list string.
Variable transactionType : transaction.
Variable maxPages_ : Z.
Variable limit_ : option Z.

(** What one run of the loop over the locations [todo] visits, collects, and
    why it can end before the last location. *)
Lemma locations_loop_facts todo w acc seen :
  exists new rest,
    visited World
      (locations_loop World scrapePage pause pause_between locations
         transactionType maxPages_ limit_ todo w acc seen) = (seen ++ new)%list
    /\ todo = (map fst new ++ rest)%list
    /\ allRecords World
         (locations_loop World scrapePage pause pause_between locations
            transactionType maxPages_ limit_ todo w acc seen)
       = (acc ++ flat_map collected new)%list
    /\ (rest <> [] ->
        limit_reached limit_
          (List.length
             (allRecords World
                (locations_loop World scrapePage pause pause_between locations
                   transactionType maxPages_ limit_ todo w acc seen))) = true)
    /\ (forall l,
          limit_ = Some l -> 1 <= l -> Z.of_nat (List.length acc) < l ->
          Z.of_nat
            (List.length
               (allRecords World
                  (locations_loop World scrapePage pause pause_between locations
                     transactionType maxPages_ limit_ todo w acc seen))) <= l)
    /\ (forall v,
          In v new ->
          Z.of_nat (List.length (pages World (snd v))) <= Z.max 0 maxPages_).
Proof.
  revert w acc seen. induction todo as [| location todo' IH]; intros w acc seen.
  - exists [], []. cbn [locations_loop visited allRecords flat_map map app].
    rewrite !app_nil_r. repeat apply conj; auto.
    + intros l _ _ H. lia.
    + intros v [].
  - cbn [locations_loop].
    set (o := scrapeLocation World scrapePage pause w location transactionType
                {| maxPages := Some maxPages_; limit := remaining_limit limit_ acc |}).
    assert (Hpages : Z.of_nat (List.length (pages World o)) <= Z.max 0 maxPages_).
    { destruct (page_loop_facts World scrapePage pause location transactionType
                  maxPages_ (remaining_limit limit_ acc) 1 w [] [])
        as (new & Hf & _ & Hb & _).
      assert (E : pages World o = new) by exact Hf. rewrite E.
      destruct Hb as [-> | Hb]; [cbn [List.length] |]; lia. }
    assert (Hroom : forall l, limit_ = Some l -> 1 <= l ->
                      Z.of_nat (List.length acc) < l ->
                      Z.of_nat (List.length (acc ++ records World o)) <= l).
    { intros l -> Hl Hacc. rewrite length_app.
      assert (E0 : (l =? 0) = false) by (apply Z.eqb_neq; lia).
      assert (Hr : Z.of_nat (List.length (records World o))
                   <= l - Z.of_nat (List.length acc)).
      { unfold o, scrapeLocation. cbn [records limit remaining_limit].
        rewrite E0. apply trim_length_le. lia. }
      lia. }
    destruct (limit_reached limit_ (List.length (acc ++ records World o))) eqn:Hlim.
    + exists [(location, o)], todo'.
      cbn [visited allRecords flat_map map fst app collected snd].
      rewrite !app_nil_r. repeat apply conj; auto.
      intros v [<- | []]. exact Hpages.
    + match goal with
      | |- context [locations_loop _ _ _ _ _ _ _ _ todo' ?w' ?acc' ?seen'] =>
          destruct (IH w' acc' seen')
            as (new & rest & Hv & Ht & Ha & Hrest & Hle & Hcap)
      end.
      exists ((location, o) :: new), rest.
      rewrite Hv, Ha, <- !app_assoc.
      cbn [flat_map map fst app collected snd].
      repeat apply conj; auto.
      * rewrite Ht. reflexivity.
      * rewrite app_assoc, <- Ha. exact Hrest.
      * intros l El Hl Hacc. rewrite app_assoc, <- Ha.
        apply (Hle l El Hl).
        subst limit_. unfold limit_reached in Hlim.
        assert (E0 : (l =? 0) = false) by (apply Z.eqb_neq; lia).
        rewrite E0 in Hlim. cbn [negb andb] in Hlim. apply Z.leb_gt in Hlim.
        exact Hlim.
      * intros v [<- | Hin]; [exact Hpages | exact (Hcap v Hin)].
Qed.

(** On a list without repetitions the test on the position of a location
    says whether another location follows. *)
Lemma locations_loop_crawl_each before todo w acc seen :
  locations = (before ++ todo)%list ->
  NoDup locations ->
  locations_loop World scrapePage pause pause_between locations transactionType
    maxPages_ limit_ todo w acc seen
  = crawl_each scrapePage pause pause_between transactionType maxPages_ limit_
      todo w acc seen.
Proof.
  revert before w acc seen.
  induction todo as [| location todo' IH]; intros before w acc seen Hloc Hnd;
    [reflexivity |].
  cbn [locations_loop crawl_each].
  destruct (limit_reached limit_ _); [reflexivity |].
  assert (Hnot : ~ In location before).
  { rewrite Hloc in Hnd. apply NoDup_remove_2 in Hnd.
    intros Hin. apply Hnd. apply in_or_app. left. exact Hin. }
  assert (Htest : (indexOf locations location
                   <? Z.of_nat (List.length locations) - 1)
                  = match todo' with [] => false | _ :: _ => true end).
  { rewrite Hloc, (indexOf_first_occurrence before location todo' Hnot).
    rewrite length_app. cbn [List.length].
    destruct todo'; cbn [List.length];
      [apply Z.ltb_ge | apply Z.ltb_lt]; lia. }
  rewrite Htest.
  rewrite (IH (before ++ [location])%list)
    by (try rewrite <- app_assoc; assumption).
  destruct todo'; reflexivity.
Qed.

End LocationsFacts.

(** [scrapeLocations] goes through the locations in the order given and
    returns the records of the locations it visited, concatenated in that
    order.  It leaves locations out only once the overall limit is reached:
    a location that fails or is blocked does not keep the following ones
    from being crawled, and without a limit every location is visited.  No
    location is fetched beyond the page cap. *)
Theorem scrapeLocations_visits_in_order :
  forall World scrapePage pause pause_between w locations transactionType options,
    let r :=
      scrapeLocations World scrapePage pause pause_between w locations
        transactionType options in
    exists rest,
      locations = (map fst (visited World r) ++ rest)%list
      /\ allRecords World r = flat_map collected (visited World r)
      /\ (rest <> [] ->
          limit_reached (totalLimit options) (List.length (allRecords World r))
          = true)
      /\ (totalLimit options = None \/ totalLimit options = Some 0 ->
          map fst (visited World r) = locations)
      /\ (forall v,
            In v (visited World r) ->
            Z.of_nat (List.length (pages World (snd v)))
            <= Z.max 0 (match maxPagesPerLocation options with
                        | Some m => m
                        | None => 3
                        end)).
Proof.
  intros World scrapePage pause pause_between w locations transactionType options r.
  unfold r, scrapeLocations.
  match goal with
  | |- context [locations_loop _ _ _ _ _ _ ?m ?lim ?todo ?w0 [] []] =>
      destruct (locations_loop_facts World scrapePage pause pause_between
                  locations transactionType m lim todo w0 [] [])
        as (new & rest & Hv & Ht & Ha & Hrest & _ & Hcap)
  end.
  cbn [app] in Hv, Ha. rewrite Hv, Ha.
  exists rest. split; [exact Ht |]. split; [reflexivity |].
  split; [rewrite <- Ha; exact Hrest |]. split; [| exact Hcap].
  intros Hno. destruct rest as [| x rest].
  - rewrite app_nil_r in Ht. symmetry. exact Ht.
  - assert (Hreached : limit_reached (totalLimit options)
                         (List.length (flat_map collected new)) = true)
      by (rewrite <- Ha; apply Hrest; discriminate).
    destruct Hno as [E | E]; rewrite E in Hreached; discriminate Hreached.
Qed.

(** Three locations of five records each, without a limit. *)
Lemma scrapeLocations_visits_in_order_witness :
  map fst
    (visited unit
       (scrapeLocations unit single_page_session no_pause no_pause tt
          ["lisboa"; "porto"; "faro"] sale
          {| maxPagesPerLocation := None; totalLimit := None |}))
  = ["lisboa"; "porto"; "faro"].
Proof.
  destruct (scrapeLocations_visits_in_order unit single_page_session no_pause
              no_pause tt ["lisboa"; "porto"; "faro"] sale
              {| maxPagesPerLocation := None; totalLimit := None |})
    as (rest & _ & _ & _ & H & _).
  apply H. left. reflexivity.
Defined.

(** With an overall limit of at least 1, [scrapeLocations] never returns
    more records than the limit, and when it leaves a location out it
    returns exactly as many. *)
Theorem scrapeLocations_total_limit :
  forall World scrapePage pause pause_between w locations transactionType options l,
    let r :=
      scrapeLocations World scrapePage pause pause_between w locations
        transactionType options in
    totalLimit options = Some l ->
    1 <= l ->
    Z.of_nat (List.length (allRecords World r)) <= l
    /\ (map fst (visited World r) <> locations ->
        Z.of_nat (List.length (allRecords World r)) = l).
Proof.
  intros World scrapePage pause pause_between w locations transactionType options
    l r El Hl.
  unfold r, scrapeLocations. rewrite El.
  match goal with
  | |- context [locations_loop _ _ _ _ _ _ ?m ?lim ?todo ?w0 [] []] =>
      destruct (locations_loop_facts World scrapePage pause pause_between
                  locations transactionType m lim todo w0 [] [])
        as (new & rest & Hv & Ht & _ & Hrest & Hle & _)
  end.
  assert (Hmost := Hle l eq_refl Hl ltac:(cbn [List.length]; lia)).
  split; [exact Hmost |].
  intros Hne. cbn [app] in Hv. rewrite Hv in Hne.
  destruct rest as [| x rest];
    [rewrite app_nil_r in Ht; symmetry in Ht; contradiction |].
  assert (Hreached := Hrest ltac:(discriminate)).
  unfold limit_reached in Hreached.
  apply andb_true_iff in Hreached as [_ Hreached]. apply Z.leb_le in Hreached.
  lia.
Qed.

(** Three locations of five records each under a limit of 7: the third
    location is left out and 7 records are returned. *)
Lemma scrapeLocations_total_limit_witness :
  Z.of_nat
    (List.length
       (allRecords unit
          (scrapeLocations unit single_page_session no_pause no_pause tt
             ["lisboa"; "porto"; "faro"] sale
             {| maxPagesPerLocation := None; totalLimit := Some 7 |}))) = 7.
Proof.
  apply (scrapeLocations_total_limit unit single_page_session no_pause no_pause tt
           ["lisboa"; "porto"; "faro"] sale
           {| maxPagesPerLocation := None; totalLimit := Some 7 |} 7 eq_refl);
    [lia | vm_compute; discriminate].
Defined.

(** On a list of locations without repetitions, [scrapeLocations] waits
    between two consecutive locations and nowhere else: it is [crawl_each].
    The test is on the first position of the location in the list, so the
    list must not repeat a location for this to hold. *)
Theorem scrapeLocations_waits_between_locations :
  forall World scrapePage pause pause_between w locations transactionType options,
    NoDup locations ->
    scrapeLocations World scrapePage pause pause_between w locations
      transactionType options
    = crawl_each scrapePage pause pause_between transactionType
        (match maxPagesPerLocation options with Some m => m | None => 3 end)
        (totalLimit options) locations w [] [].
Proof.
  intros World scrapePage pause pause_between w locations transactionType options
    Hnd.
  unfold scrapeLocations.
  apply (locations_loop_crawl_each World scrapePage pause pause_between locations
           transactionType _ _ [] locations w [] [] eq_refl Hnd).
Qed.

(** Two locations, one wait; the same location twice, two waits, one of them
    after the last crawl. *)
Lemma scrapeLocations_waits_between_locations_witness :
  last_world nat
    (scrapeLocations nat counting_session (fun w => w) S 0%nat ["lisboa"; "porto"]
       sale {| maxPagesPerLocation := None; totalLimit := None |}) = 1%nat
  /\ last_world nat
       (scrapeLocations nat counting_session (fun w => w) S 0%nat
          ["lisboa"; "lisboa"] sale
          {| maxPagesPerLocation := None; totalLimit := None |}) = 2%nat.
Proof.
  split; [| reflexivity].
  rewrite (scrapeLocations_waits_between_locations nat counting_session
             (fun w => w) S 0%nat ["lisboa"; "porto"] sale
             {| maxPagesPerLocation := None; totalLimit := None |}).
  - reflexivity.
  - repeat constructor; cbn [In]; intros H; decompose [or] H;
      try discriminate; assumption.
Defined.

(** ** One page *)

Section PageFacts.

Variable World : Type.
Variable scrapePage :
  World -> string -> transaction -> Z -> (thrown + ScrapeResult) * World.
Variable pause : World -> World.
Variable location : string.
Variable transactionType : transaction.
Variable maxPages_ : Z.
Variable limit_ : option Z.

(** A session in which every fetch fails, without a block and without a
    change of the session: the loop tries every page up to the cap. *)
Lemma page_loop_all_fail page w acc log error :
  (forall p, scrapePage w location transactionType p = (inl error, w)) ->
  is_blocked error = false ->
  page_loop World scrapePage pause location transactionType maxPages_ limit_
    page w acc log
  = {| allProperties := acc;
       fetched :=
         (log ++ map (fun p => (p, inl error))
                   (pages_from page (Z.to_nat (maxPages_ + 1 - page))))%list;
       exit := PagesExhausted;
       world := w |}.
Proof.
  funelim (page_loop World scrapePage pause location transactionType maxPages_
             limit_ page w acc log);
    intros Hall Hnot;
    try match goal with
        | E : scrapePage _ _ _ _ = _ |- _ =>
            rewrite Hall in E; inversion E; subst
        end;
    try congruence.
  - replace (Z.to_nat (maxPages_ + 1 - page)) with 0%nat by lia.
    cbn [pages_from map]. rewrite app_nil_r. reflexivity.
  - rewrite (H _ Hall Hnot), <- app_assoc.
    replace (Z.to_nat (maxPages_ + 1 - page))
      with (S (Z.to_nat (maxPages_ + 1 - (page + 1)))) by lia.
    reflexivity.
Qed.

(** One pass through the loop body on a page that announces no next page. *)
Lemma page_loop_last_page page w acc log result w' :
  page <= maxPages_ ->
  scrapePage w location transactionType page = (inr result, w') ->
  hasNextPage result = false ->
  allProperties World
    (page_loop World scrapePage pause location transactionType maxPages_ limit_
       page w acc log) = (acc ++ properties result)%list
  /\ fetched World
       (page_loop World scrapePage pause location transactionType maxPages_ limit_
          page w acc log) = (log ++ [(page, inr result)])%list
  /\ world World
       (page_loop World scrapePage pause location transactionType maxPages_ limit_
          page w acc log) = w'.
Proof.
  funelim (page_loop World scrapePage pause location transactionType maxPages_
             limit_ page w acc log);
    intros Hle Hpage Hlast; try lia;
    match goal with
    | E : scrapePage _ _ _ _ = _ |- _ =>
        tryif constr_eq E Hpage then fail
        else (rewrite Hpage in E; inversion E; subst)
    end;
    try congruence;
    cbn [allProperties fetched world]; auto.
Qed.

End PageFacts.

(** A scraper that was never initialised raises nothing from
    [scrapeLocation]: the error of [scrapePage] is not a block, so the crawl
    tries every page up to the cap, each fetch failing in the same way, and
    returns no record. *)
Theorem scrapeLocation_uninitialised :
  forall compare_other World select_next_data JSON_parse page_ready render tick
         pause w location transactionType options,
    let o :=
      scrapeLocation World
        (Page.scrapePage compare_other World select_next_data JSON_parse
           page_ready render tick)
        pause w location transactionType options in
    page_ready w = false ->
    records World o = []
    /\ pages World o
       = map (fun p => (p, inl not_initialized))
           (pages_from 1 (Z.to_nat (page_cap options)))
    /\ stop World o = PagesExhausted
    /\ final_world World o = w.
Proof.
  intros compare_other World select_next_data JSON_parse page_ready render tick
    pause w location transactionType options o Hready.
  unfold o, scrapeLocation. fold (page_cap options).
  rewrite (page_loop_all_fail World _ pause location transactionType
             (page_cap options) (limit options) 1 w [] [] not_initialized).
  - cbn [records pages stop final_world allProperties fetched exit world app].
    replace (page_cap options + 1 - 1) with (page_cap options) by lia.
    repeat apply conj; try reflexivity.
    unfold trim_to_limit, slice0. destruct (limit options) as [l |]; [| reflexivity].
    destruct (l =? 0); [reflexivity |]. destruct (l <? 0); apply firstn_nil.
  - intros p. unfold Page.scrapePage. rewrite Hready. reflexivity.
  - reflexivity.
Qed.

(** Three attempts under a cap of 3. *)
Lemma scrapeLocation_uninitialised_witness :
  map fst
    (pages unit
       (scrapeLocation unit
          (Page.scrapePage (fun _ _ => false) unit sample_select sample_parse
             (fun _ => false) (fun w _ => (inr challenge_page, w))
             (fun _ _ => noon))
          no_pause tt "lisboa" sale {| maxPages := Some 3; limit := None |}))
  = [1; 2; 3].
Proof.
  destruct (scrapeLocation_uninitialised (fun _ _ => false) unit sample_select
              sample_parse (fun _ => false) (fun w _ => (inr challenge_page, w))
              (fun _ _ => noon) no_pause tt "lisboa" sale
              {| maxPages := Some 3; limit := None |} eq_refl)
    as (_ & H & _).
  rewrite H. reflexivity.
Defined.

(** A first page without usable embedded state (the container is missing or
    empty, or its text does not parse, or parses to a falsy value) ends the
    crawl of the location at once and without an error: the page counts as an
    empty last page, so one fetch is made and no record is returned. *)
Theorem scrapeLocation_first_page_without_state :
  forall compare_other World select_next_data JSON_parse page_ready render tick
         pause w location transactionType options html w',
    let o :=
      scrapeLocation World
        (Page.scrapePage compare_other World select_next_data JSON_parse
           page_ready render tick)
        pause w location transactionType options in
    1 <= page_cap options ->
    page_ready w = true ->
    render w (Page.buildSearchUrl location transactionType 1) = (inr html, w') ->
    truthy (snd (extractNextData select_next_data JSON_parse html)) = false ->
    pages World o = [(1, inr (empty_last_page 1))]
    /\ records World o = []
    /\ final_world World o = w'.
Proof.
  intros compare_other World select_next_data JSON_parse page_ready render tick
    pause w location transactionType options html w' o Hcap Hready Hrender Hstate.
  destruct (page_loop_last_page World
              (Page.scrapePage compare_other World select_next_data JSON_parse
                 page_ready render tick)
              pause location transactionType (page_cap options) (limit options)
              1 w [] [] (empty_last_page 1) w' Hcap)
    as (Ha & Hf & Hw).
  - unfold Page.scrapePage. rewrite Hready, Hrender. cbn [negb].
    rewrite Hstate. reflexivity.
  - reflexivity.
  - unfold o, scrapeLocation. fold (page_cap options).
    cbn [records pages final_world]. rewrite Ha, Hf, Hw.
    cbn [app empty_last_page properties].
    repeat apply conj; try reflexivity.
    unfold trim_to_limit, slice0. destruct (limit options) as [l |]; [| reflexivity].
    destruct (l =? 0); [reflexivity |]. destruct (l <? 0); apply firstn_nil.
Qed.

(** A challenge page in place of the listings. *)
Lemma scrapeLocation_first_page_without_state_witness :
  pages unit
    (scrapeLocation unit
       (Page.scrapePage (fun _ _ => false) unit sample_select sample_parse
          (fun _ => true) (fun w _ => (inr challenge_page, w)) (fun _ _ => noon))
       no_pause tt "lisboa" sale {| maxPages := None; limit := None |})
  = [(1, inr (empty_last_page 1))].
Proof.
  apply (scrapeLocation_first_page_without_state (fun _ _ => false) unit
           sample_select sample_parse (fun _ => true)
           (fun w _ => (inr challenge_page, w)) (fun _ _ => noon) no_pause tt
           "lisboa" sale {| maxPages := None; limit := None |} challenge_page tt);
    [cbn [page_cap maxPages]; lia | reflexivity | reflexivity | reflexivity].
Defined.

(** ** Cookie consent *)

Lemma subsequence_facts ys :
  (forall x xs, subsequence (x :: xs) ys = true -> subsequence xs ys = true)
  /\ (forall xs y, subsequence xs ys = true -> subsequence xs (y :: ys) = true).
Proof.
  induction ys as [| z ys [IHdrop IHskip]].
  - split.
    + intros x xs H. discriminate H.
    + intros xs y H. destruct xs; [reflexivity | discriminate H].
  - assert (Hdrop : forall x xs,
              subsequence (x :: xs) (z :: ys) = true ->
              subsequence xs (z :: ys) = true).
    { intros x xs H. cbn [subsequence] in H. apply IHskip.
      destruct (String.eqb x z); [exact H | exact (IHdrop x xs H)]. }
    split; [exact Hdrop |].
    intros xs y H. destruct xs as [| x xs]; [reflexivity |].
    change (subsequence (x :: xs) (y :: z :: ys))
      with (if String.eqb x y then subsequence xs (z :: ys)
            else subsequence (x :: xs) (z :: ys)).
    destruct (String.eqb x y); [exact (Hdrop x xs H) | exact H].
Qed.

Section ConsentFacts.

Variable World : Type.
Variable isVisible : World -> string -> bool * World.
Variable humanClick : World -> string -> (thrown + unit) * World.
Variable sleep : World -> World.

(** The clicks of one run of the loop over [selectors]. *)
Lemma consent_loop_facts selectors w clicks :
  exists new,
    fst (Page.consent_loop World isVisible humanClick sleep selectors w clicks)
    = (clicks ++ new)%list
    /\ subsequence (map fst new) selectors = true
    /\ forallb failed (removelast new) = true
    /\ (List.length new <= List.length selectors)%nat.
Proof.
  revert w clicks. induction selectors as [| selector rest IH]; intros w clicks.
  - exists []. cbn [Page.consent_loop fst]. rewrite app_nil_r. auto.
  - cbn [Page.consent_loop]. destruct (isVisible w selector) as [visible w1].
    destruct visible.
    + destruct (humanClick w1 selector) as [[error | done] w2].
      * destruct (IH w2 (clicks ++ [(selector, inl error)])%list)
          as (new & Hf & Hsub & Hfail & Hlen).
        exists ((selector, inl error) :: new).
        rewrite Hf, <- app_assoc. split; [reflexivity |].
        split; [cbn [map fst subsequence]; rewrite String.eqb_refl; exact Hsub |].
        split; [| cbn [List.length]; lia].
        destruct new as [| click new]; [reflexivity |].
        change (removelast ((selector, inl error) :: click :: new))
          with ((selector, @inl thrown unit error) :: removelast (click :: new)).
        cbn [forallb failed snd]. exact Hfail.
      * exists [(selector, inr done)]. cbn [fst]. split; [reflexivity |].
        split; [cbn [map fst subsequence]; rewrite String.eqb_refl;
                destruct rest; reflexivity |].
        split; [reflexivity | cbn [List.length]; lia].
    + destruct (IH w1 clicks) as (new & Hf & Hsub & Hfail & Hlen).
      exists new. split; [exact Hf |].
      split; [apply (proj2 (subsequence_facts rest)); exact Hsub |].
      split; [exact Hfail | cbn [List.length]; lia].
Qed.

End ConsentFacts.

(** [handleCookieConsent] clicks selectors of its list only, in the order of
    the list and each at most once.  Every click but the last one threw: the
    first click that succeeds ends the search, and a click that throws sends
    it on to the next selector.  Without a page nothing is clicked. *)
Theorem handleCookieConsent_clicks :
  forall World isVisible humanClick sleep page_ready w,
    let clicks :=
      fst (Page.handleCookieConsent World isVisible humanClick sleep page_ready w)
    in
    subsequence (map fst clicks) Page.cookieSelectors = true
    /\ forallb failed (removelast clicks) = true
    /\ (List.length clicks <= 10)%nat
    /\ (page_ready w = false ->
        Page.handleCookieConsent World isVisible humanClick sleep page_ready w
        = ([], w)).
Proof.
  intros World isVisible humanClick sleep page_ready w clicks.
  unfold clicks, Page.handleCookieConsent.
  destruct (page_ready w); cbn [negb].
  - destruct (consent_loop_facts World isVisible humanClick sleep
                Page.cookieSelectors w []) as (new & Hf & Hsub & Hfail & Hlen).
    cbn [app] in Hf. rewrite Hf.
    split; [exact Hsub |]. split; [exact Hfail |]. split; [exact Hlen |].
    discriminate.
  - cbn [fst map removelast forallb List.length].
    split; [reflexivity |]. split; [reflexivity |]. split; [lia | reflexivity].
Qed.

(** A banner whose first button cannot be clicked: two clicks, the first of
    which threw. *)
Lemma handleCookieConsent_clicks_witness :
  List.length
    (fst (Page.handleCookieConsent unit banner_visible banner_click no_pause
            (fun _ => true) tt)) = 2%nat
  /\ forallb failed
       (removelast
          (fst (Page.handleCookieConsent unit banner_visible banner_click no_pause
                  (fun _ => true) tt))) = true.
Proof.
  split; [reflexivity |].
  apply (handleCookieConsent_clicks unit banner_visible banner_click no_pause
           (fun _ => true) tt).
Defined.
